(** * contaIDE posting core: a shallow embedding of the Python sources

    The development follows the layout of the repository:
    - [core/models.py]            error kinds, DTOs and results,
    - [core/validator.py]         the validation rules and [validate],
    - [core/posting_engine.py]    payload builders, hashing and [PostingEngine.post],
    - [db/db_manager.py]          the cached connection and [transaction],
    - [services/audit_service.py] [log_action] and [verify_chain],
    - [kernel/validator_adapter.py] the DB-backed repositories,
    - [services/closures_service.py] [finalize_year].

    Modelling conventions.
    - A Python [str] is a Rocq [string]; texts are ASCII (for such texts the
      UTF-8 encoding is the identity and [str.upper] only moves a-z).
    - A Python exception is a value [PyExn] carrying [type(e).__name__] and
      [str(e)]; a computation that may raise returns [Res].
    - [decimal.Decimal] is modelled with the default context (28 digits,
      ROUND_HALF_EVEN, InvalidOperation trapped); signalling NaNs, NaN
      payloads and the exponent limits are left out.
    - The SQLite database is a record of tables, each a list of rows in
      rowid order; the cached connection carries the working state, the last
      committed state while a transaction is open, and the list of
      transaction-control statements it has executed.
    - What the environment decides (the clock, statements that fail, a
      busy database) is an explicit argument. *)

From Stdlib Require Import ZArith NArith List String Ascii Bool Lia Sorted Permutation.
From Stdlib Require Import DecimalString DecimalN DecimalFacts.
Import ListNotations.

Local Open Scope string_scope.
Local Open Scope Z_scope.

(* ================================================================== *)
(** ** Python exceptions and results *)

Record PyExn : Type := mkExn { exn_type : string; exn_text : string }.

Inductive Res (A : Type) : Type :=
| Ok (a : A)
| Raise (e : PyExn).
Arguments Ok {A} a.
Arguments Raise {A} e.

Definition bindR {A B : Type} (m : Res A) (k : A -> Res B) : Res B :=
  match m with
  | Ok a => k a
  | Raise e => Raise e
  end.

Declare Scope res_scope.
Delimit Scope res_scope with res.
Notation "x <- m ;; k" := (bindR m (fun x => k))
  (at level 61, m at next level, right associativity) : res_scope.

(** [for x in xs: acc = f(acc, x)] where the body may raise. *)
Fixpoint foldR {A B : Type} (f : A -> B -> Res A) (xs : list B) (acc : A) : Res A :=
  match xs with
  | [] => Ok acc
  | x :: xs' => bindR (f acc x) (foldR f xs')
  end.

(** [[f(x) for x in xs]] where [f] may raise. *)
Fixpoint mapR {A B : Type} (f : A -> Res B) (xs : list A) : Res (list B) :=
  match xs with
  | [] => Ok []
  | x :: xs' => bindR (f x) (fun y => bindR (mapR f xs') (fun ys => Ok (y :: ys)))
  end.

(* ================================================================== *)
(** ** Strings *)

Definition str1 (c : ascii) : string := String c EmptyString.

(** The double quote and the backslash, written by code. *)
Definition dquote : ascii := ascii_of_nat 34.
Definition bslash : ascii := ascii_of_nat 92.
Definition newline : ascii := ascii_of_nat 10.

Definition is_digit (c : ascii) : bool :=
  (48 <=? N_of_ascii c)%N && (N_of_ascii c <=? 57)%N.

Definition upper_ascii (c : ascii) : ascii :=
  if ((97 <=? N_of_ascii c)%N && (N_of_ascii c <=? 122)%N)%bool
  then ascii_of_N (N_of_ascii c - 32)
  else c.

(** [s.upper()] *)
Fixpoint str_upper (s : string) : string :=
  match s with
  | EmptyString => EmptyString
  | String c r => String (upper_ascii c) (str_upper r)
  end.

(** [s[:n]] *)
Fixpoint str_take (n : nat) (s : string) : string :=
  match n, s with
  | O, _ => EmptyString
  | S _, EmptyString => EmptyString
  | S n', String c r => String c (str_take n' r)
  end.

(** [needle in hay] *)
Fixpoint str_contains (needle hay : string) : bool :=
  String.prefix needle hay ||
  match hay with
  | EmptyString => false
  | String _ r => str_contains needle r
  end.

Fixpoint str_repeat (c : ascii) (n : nat) : string :=
  match n with
  | O => EmptyString
  | S n' => String c (str_repeat c n')
  end.

(** [str(n)] for a natural number, [str(z)] for an integer. *)
Definition N_to_string (n : N) : string := NilZero.string_of_uint (N.to_uint n).

Definition Z_to_string (z : Z) : string :=
  if z <? 0 then "-" ++ N_to_string (Z.abs_N z) else N_to_string (Z.to_N z).

(** Left padding with zeros up to [width] characters. *)
Definition zero_pad (width : nat) (s : string) : string :=
  str_repeat "0" (width - String.length s) ++ s.

(** [f"{n:06d}"]: sign-aware zero padding to a minimum width of six. *)
Definition format_06d (n : Z) : string :=
  if n <? 0 then "-" ++ zero_pad 5 (N_to_string (Z.abs_N n))
  else zero_pad 6 (N_to_string (Z.to_N n)).

(** Python truthiness of [Optional[str]] and [Optional[int]]. *)
Definition truthy_str (o : option string) : bool :=
  match o with
  | Some s => negb (s =? EmptyString)%string
  | None => false
  end.

Definition truthy_int (o : option Z) : bool :=
  match o with
  | Some z => negb (z =? 0)
  | None => false
  end.

(** [a or b] on optional strings. *)
Definition or_str (a b : option string) : option string :=
  if truthy_str a then a else b.

(** How an f-string renders [Optional[str]] and [Optional[int]]. *)
Definition fmt_opt_str (o : option string) : string :=
  match o with Some s => s | None => "None" end.

(* ================================================================== *)
(** ** decimal.Decimal *)

Inductive Decimal : Type :=
| DFin (neg : bool) (coef : N) (exp : Z)   (* (-1)^neg * coef * 10^exp *)
| DInf (neg : bool)
| DNaN.

Definition InvalidOperation : PyExn :=
  mkExn "InvalidOperation" "[<class 'decimal.InvalidOperation'>]".

(** Context precision. *)
Definition prec : Z := 28.

Definition dec_zero : Decimal := DFin false 0 0.        (* Decimal("0") *)
Definition dec_zero2 : Decimal := DFin false 0 (-2).    (* Decimal("0.00") *)
Definition dec_of_int (z : Z) : Decimal := DFin (z <? 0) (Z.abs_N z) 0.

(** [len(self._int)] *)
Definition ndigits (c : N) : Z :=
  Z.of_nat (Corelib.Init.Decimal.nb_digits (N.to_uint c)).

(** [bool(d)] *)
Definition dec_bool (d : Decimal) : bool :=
  match d with
  | DFin _ c _ => negb (c =? 0)%N
  | _ => true
  end.

(** [_fix]: round a non-zero coefficient to the context precision,
    ROUND_HALF_EVEN. *)
Definition dec_fix (neg : bool) (c : Z) (e : Z) : Decimal :=
  let d := ndigits (Z.to_N c) in
  if d <=? prec then DFin neg (Z.to_N c) e
  else
    let k := d - prec in
    let p := 10 ^ k in
    let q := c / p in
    let r := c mod p in
    let half := 5 * 10 ^ (k - 1) in
    let q' := if r >? half then q + 1
              else if r =? half then (if Z.even q then q else q + 1)
              else q in
    if q' =? 10 ^ prec then DFin neg (Z.to_N (10 ^ (prec - 1))) (e + k + 1)
    else DFin neg (Z.to_N q') (e + k).

(** [d.quantize(Decimal("0.01"), rounding=ROUND_HALF_UP)] *)
Definition quantize2 (d : Decimal) : Res Decimal :=
  match d with
  | DNaN => Ok DNaN
  | DInf _ => Raise InvalidOperation
  | DFin s c e =>
      if (c =? 0)%N then Ok (DFin s 0 (-2))
      else if (e + ndigits c - 1) + 2 + 1 >? prec then Raise InvalidOperation
      else
        let c' := if e >=? -2 then Z.of_N c * 10 ^ (e + 2)
                  else (Z.of_N c + 5 * 10 ^ (- e - 3)) / 10 ^ (- e - 2) in
        if ndigits (Z.to_N c') >? prec then Raise InvalidOperation
        else Ok (DFin s (Z.to_N c') (-2))
  end.

(** [q2]: [(value or Decimal("0")).quantize(Decimal("0.01"), ROUND_HALF_UP)] *)
Definition q2 (value : option Decimal) : Res Decimal :=
  quantize2 (match value with
             | Some d => if dec_bool d then d else dec_zero
             | None => dec_zero
             end).

Definition signed (neg : bool) (c : N) : Z :=
  if neg then - Z.of_N c else Z.of_N c.

(** [a + b] in the default context. *)
Definition dec_add (a b : Decimal) : Res Decimal :=
  match a, b with
  | DNaN, _ | _, DNaN => Ok DNaN
  | DInf s1, DInf s2 => if Bool.eqb s1 s2 then Ok (DInf s1) else Raise InvalidOperation
  | DInf s, DFin _ _ _ | DFin _ _ _, DInf s => Ok (DInf s)
  | DFin s1 c1 e1, DFin s2 c2 e2 =>
      let e := Z.min e1 e2 in
      let v := signed s1 c1 * 10 ^ (e1 - e) + signed s2 c2 * 10 ^ (e2 - e) in
      if v =? 0 then Ok (DFin (s1 && s2) 0 e)
      else Ok (dec_fix (v <? 0) (Z.abs v) e)
  end.

(** [a * b] in the default context. *)
Definition dec_mul (a b : Decimal) : Res Decimal :=
  match a, b with
  | DNaN, _ | _, DNaN => Ok DNaN
  | DInf s1, DInf s2 => Ok (DInf (xorb s1 s2))
  | DInf s1, DFin s2 c _ | DFin s2 c _, DInf s1 =>
      if (c =? 0)%N then Raise InvalidOperation else Ok (DInf (xorb s1 s2))
  | DFin s1 c1 e1, DFin s2 c2 e2 =>
      let c := (c1 * c2)%N in
      if (c =? 0)%N then Ok (DFin (xorb s1 s2) 0 (e1 + e2))
      else Ok (dec_fix (xorb s1 s2) (Z.of_N c) (e1 + e2))
  end.

(** Numerical comparison; [None] when a NaN is involved. *)
Definition dec_compare (a b : Decimal) : option comparison :=
  match a, b with
  | DNaN, _ | _, DNaN => None
  | DInf s1, DInf s2 =>
      Some (if s1 then (if s2 then Eq else Lt) else (if s2 then Gt else Eq))
  | DInf s, DFin _ _ _ => Some (if s then Lt else Gt)
  | DFin _ _ _, DInf s => Some (if s then Gt else Lt)
  | DFin s1 c1 e1, DFin s2 c2 e2 =>
      let e := Z.min e1 e2 in
      Some (Z.compare (signed s1 c1 * 10 ^ (e1 - e)) (signed s2 c2 * 10 ^ (e2 - e)))
  end.

(** [a < b], [a > b]: ordering a NaN raises InvalidOperation. *)
Definition dec_lt (a b : Decimal) : Res bool :=
  match dec_compare a b with
  | None => Raise InvalidOperation
  | Some Lt => Ok true
  | Some _ => Ok false
  end.

Definition dec_gt (a b : Decimal) : Res bool :=
  match dec_compare a b with
  | None => Raise InvalidOperation
  | Some Gt => Ok true
  | Some _ => Ok false
  end.

(** [a == b], [a != b]: a NaN is unequal to everything. *)
Definition dec_eq (a b : Decimal) : bool :=
  match dec_compare a b with
  | Some Eq => true
  | _ => false
  end.

Definition dec_ne (a b : Decimal) : bool := negb (dec_eq a b).

(** [int(d)]: truncation towards zero. *)
Definition dec_to_int (d : Decimal) : Res Z :=
  match d with
  | DNaN => Raise (mkExn "ValueError" "cannot convert NaN to integer")
  | DInf _ => Raise (mkExn "OverflowError" "cannot convert Infinity to integer")
  | DFin s c e =>
      if e >=? 0 then Ok (signed s c * 10 ^ e)
      else Ok (signed s (Z.to_N (Z.of_N c / 10 ^ (- e))))
  end.

(** [str(d)] (to-scientific-string). *)
Definition dec_str (d : Decimal) : string :=
  match d with
  | DNaN => "NaN"
  | DInf s => (if s then "-" else EmptyString) ++ "Infinity"
  | DFin s c e =>
      let sign := if s then "-" else EmptyString in
      let ds := N_to_string c in
      let len := Z.of_nat (String.length ds) in
      let leftdigits := e + len in
      let dotplace := if (e <=? 0) && (leftdigits >? -6) then leftdigits else 1 in
      let intpart :=
        if dotplace <=? 0 then "0"
        else if dotplace >=? len then ds ++ str_repeat "0" (Z.to_nat (dotplace - len))
        else String.substring 0 (Z.to_nat dotplace) ds in
      let fracpart :=
        if dotplace <=? 0 then "." ++ str_repeat "0" (Z.to_nat (- dotplace)) ++ ds
        else if dotplace >=? len then EmptyString
        else "." ++ String.substring (Z.to_nat dotplace) (Z.to_nat (len - dotplace)) ds in
      let ex := leftdigits - dotplace in
      let exps :=
        if ex =? 0 then EmptyString
        else "E" ++ (if ex <? 0 then "-" else "+") ++ N_to_string (Z.abs_N ex) in
      sign ++ intpart ++ fracpart ++ exps
  end.

(** [cents]: [int(q2(value) * 100)] *)
Definition cents (value : option Decimal) : Res Z :=
  (q <- q2 value ;;
   m <- dec_mul q (dec_of_int 100) ;;
   dec_to_int m)%res.

(* ================================================================== *)
(** ** core/models.py *)

Inductive ErrorCode : Type :=
| UNBALANCED
| NEGATIVE_AMOUNT
| INVALID_ACCOUNT
| PERIOD_CLOSED
| ALREADY_REVERSED
| AMBIGUOUS_LINE
| EMPTY_LINES
| DB_ERROR
| IDEMPOTENCE_CONFLICT
| PROTOCOL_ERROR
| INVALID_DATE
| NOT_FOUND
| VAT_MISMATCH
| INVALID_INPUT.

Definition ErrorCode_eqb (a b : ErrorCode) : bool :=
  match a, b with
  | UNBALANCED, UNBALANCED | NEGATIVE_AMOUNT, NEGATIVE_AMOUNT
  | INVALID_ACCOUNT, INVALID_ACCOUNT | PERIOD_CLOSED, PERIOD_CLOSED
  | ALREADY_REVERSED, ALREADY_REVERSED | AMBIGUOUS_LINE, AMBIGUOUS_LINE
  | EMPTY_LINES, EMPTY_LINES | DB_ERROR, DB_ERROR
  | IDEMPOTENCE_CONFLICT, IDEMPOTENCE_CONFLICT | PROTOCOL_ERROR, PROTOCOL_ERROR
  | INVALID_DATE, INVALID_DATE | NOT_FOUND, NOT_FOUND
  | VAT_MISMATCH, VAT_MISMATCH | INVALID_INPUT, INVALID_INPUT => true
  | _, _ => false
  end.

(** The members of the enumeration, by name. *)
Definition ErrorCode_members : list (string * ErrorCode) :=
  [ ("UNBALANCED", UNBALANCED); ("NEGATIVE_AMOUNT", NEGATIVE_AMOUNT);
    ("INVALID_ACCOUNT", INVALID_ACCOUNT); ("PERIOD_CLOSED", PERIOD_CLOSED);
    ("ALREADY_REVERSED", ALREADY_REVERSED); ("AMBIGUOUS_LINE", AMBIGUOUS_LINE);
    ("EMPTY_LINES", EMPTY_LINES); ("DB_ERROR", DB_ERROR);
    ("IDEMPOTENCE_CONFLICT", IDEMPOTENCE_CONFLICT); ("PROTOCOL_ERROR", PROTOCOL_ERROR);
    ("INVALID_DATE", INVALID_DATE); ("NOT_FOUND", NOT_FOUND);
    ("VAT_MISMATCH", VAT_MISMATCH); ("INVALID_INPUT", INVALID_INPUT) ].

(** [ErrorCode.<name>]: attribute access on the enumeration class; a name
    that is not a member raises AttributeError (whose text, up to
    CPython 3.11, is the name). *)
Definition ErrorCode_getattr (name : string) : Res ErrorCode :=
  match find (fun m => (fst m =? name)%string) ErrorCode_members with
  | Some m => Ok (snd m)
  | None => Raise (mkExn "AttributeError" name)
  end.

(** [LedgerError]; [details] keeps its default [None] in all the code
    modelled here and is left out. *)
Record LedgerError : Type := mkLedgerError {
  code : ErrorCode;
  message : string
}.

Record LineDTO : Type := mkLineDTO {
  account_id : string;
  dare : Decimal;
  avere : Decimal;
  narration : option string
}.

Record EntryDTO : Type := mkEntryDTO {
  date : string;
  descrizione : string;
  lines : list LineDTO;
  documento : option string;
  document_date : option string;
  cliente_fornitore : option string;
  reversal_of : option Z;
  client_reference_id : option string;
  taxable_amount : option Decimal;
  vat_rate : option Decimal;
  vat_amount : option Decimal;
  period : option string;
  protocol_series : option string;
  idempotence_key : option string;
  correlation_id : option string
}.

(** [EntryResult]; the [timestamp] field (a clock reading taken when the
    result is built) is left out. *)
Record EntryResult : Type := mkEntryResult {
  success : bool;
  entry_id : option Z;
  protocol : option string;
  error_details : list LedgerError;
  errors : list string
}.

(* ================================================================== *)
(** ** core/validator.py *)

(** The three read-only repository protocols. *)
Record AccountRepo : Type := { acc_exists : string -> Res bool }.
Record PeriodRepo : Type := { is_open_by_date : string -> Res bool }.
Record EntryRepo : Type := {
  ent_exists : Z -> Res bool;
  has_reversal_for : Z -> Res bool
}.

(** [re.match(r"^\d{4}-\d{2}-\d{2}$", s)]: ten characters of the given
    shape; [$] also matches just before one final newline. *)
Definition date_re_match (s : string) : bool :=
  match s with
  | String ya (String yb (String yc (String yd (String ha
     (String ma (String mb (String hb (String da (String db rest))))))))) =>
      is_digit ya && is_digit yb && is_digit yc && is_digit yd &&
      (ha =? "-")%char && is_digit ma && is_digit mb &&
      (hb =? "-")%char && is_digit da && is_digit db &&
      ((rest =? EmptyString)%string || (rest =? str1 newline)%string)
  | _ => false
  end.

Definition validate_balanced (entry : EntryDTO) : Res (list LedgerError) :=
  (totals <- foldR (fun (acc : Decimal * Decimal) (l : LineDTO) =>
                      qd <- q2 (Some (dare l)) ;;
                      td <- dec_add (fst acc) qd ;;
                      qa <- q2 (Some (avere l)) ;;
                      ta <- dec_add (snd acc) qa ;;
                      Ok (td, ta))
                   (lines entry) (dec_zero2, dec_zero2) ;;
   let total_dare := fst totals in
   let total_avere := snd totals in
   if dec_ne total_dare total_avere then
     Ok [mkLedgerError UNBALANCED
           ("Entry non bilanciata: Dare=" ++ dec_str total_dare ++
            ", Avere=" ++ dec_str total_avere)]
   else Ok [])%res.

(** The three tests made on one line, in order. *)
Definition line_sign_errors (l : LineDTO) : Res (list LedgerError) :=
  (dneg <- dec_lt (dare l) dec_zero ;;
   neg <- (if dneg : bool then Ok true else dec_lt (avere l) dec_zero) ;;
   dpos <- dec_gt (dare l) dec_zero ;;
   amb <- (if dpos : bool then dec_gt (avere l) dec_zero else Ok false) ;;
   let emp := dec_eq (dare l) dec_zero && dec_eq (avere l) dec_zero in
   Ok ((if neg : bool then
          [mkLedgerError NEGATIVE_AMOUNT ("Valore negativo su account " ++ account_id l)]
        else []) ++
       (if amb : bool then
          [mkLedgerError AMBIGUOUS_LINE
             ("Riga ambigua su account " ++ account_id l ++ ": dare e avere > 0")]
        else []) ++
       (if emp then
          [mkLedgerError EMPTY_LINES
             ("Riga nulla su account " ++ account_id l ++ ": dare e avere = 0")]
        else []))%list)%res.

Definition validate_no_negative (entry : EntryDTO) : Res (list LedgerError) :=
  foldR (fun errs l => es <- line_sign_errors l ;; Ok (errs ++ es)%list)%res
        (lines entry) [].

Definition validate_accounts_exist (entry : EntryDTO) (accounts : AccountRepo)
  : Res (list LedgerError) :=
  foldR (fun errs l =>
           ex <- acc_exists accounts (account_id l) ;;
           Ok (if ex : bool then errs
               else (errs ++ [mkLedgerError INVALID_ACCOUNT
                                ("Account " ++ account_id l ++ " non esiste")])%list))%res
        (lines entry) [].

Definition validate_period_open (entry : EntryDTO) (periods : PeriodRepo)
  : Res (list LedgerError) :=
  if negb (date_re_match (date entry)) then
    Ok [mkLedgerError INVALID_DATE ("Data non valida: " ++ date entry)]
  else
    (op <- is_open_by_date periods (date entry) ;;
     if op : bool then Ok []
     else Ok [mkLedgerError PERIOD_CLOSED ("Periodo chiuso per data " ++ date entry)])%res.

Definition validate_not_already_reversed (entry : EntryDTO) (entries : EntryRepo)
  : Res (list LedgerError) :=
  match reversal_of entry with
  | Some orig =>
      if orig =? 0 then Ok []
      else
        (ex <- ent_exists entries orig ;;
         if negb ex then
           Ok [mkLedgerError NOT_FOUND ("Entry " ++ Z_to_string orig ++ " non esiste")]
         else
           rev <- has_reversal_for entries orig ;;
           if rev : bool then
             Ok [mkLedgerError ALREADY_REVERSED
                   ("L'entry " ++ Z_to_string orig ++ " è già stata stornata")]
           else Ok [])%res
  | None => Ok []
  end.

Definition validate_vat_consistency (entry : EntryDTO) : Res (list LedgerError) :=
  match taxable_amount entry, vat_rate entry, vat_amount entry with
  | Some t, Some r, Some a =>
      (qt <- q2 (Some t) ;;
       qr <- q2 (Some r) ;;
       prod <- dec_mul qt qr ;;
       expected <- q2 (Some prod) ;;
       actual <- q2 (Some a) ;;
       if dec_ne expected actual then
         Ok [mkLedgerError VAT_MISMATCH
               ("IVA incoerente: attesa=" ++ dec_str expected ++
                ", trovata=" ++ dec_str actual)]
       else Ok [])%res
  | _, _, _ => Ok []
  end.

(** The composite validator: every rule runs and contributes. *)
Definition validate (entry : EntryDTO) (accounts : AccountRepo)
    (periods : PeriodRepo) (entries : EntryRepo) : Res (list LedgerError) :=
  (e1 <- validate_balanced entry ;;
   e2 <- validate_no_negative entry ;;
   e3 <- validate_accounts_exist entry accounts ;;
   e4 <- validate_period_open entry periods ;;
   e5 <- validate_not_already_reversed entry entries ;;
   e6 <- validate_vat_consistency entry ;;
   Ok (e1 ++ e2 ++ e3 ++ e4 ++ e5 ++ e6)%list)%res.

(* ================================================================== *)
(** ** hashlib.sha256 (FIPS 180-4), on 32-bit words held in [Z] *)

Module Sha256.

Definition mask32 : Z := 4294967295.
Definition w32 (x : Z) : Z := Z.land x mask32.
Definition add32 (x y : Z) : Z := w32 (x + y).
Definition rotr (n x : Z) : Z := Z.lor (Z.shiftr x n) (w32 (Z.shiftl x (32 - n))).
Definition not32 (x : Z) : Z := Z.lxor x mask32.

Definition Ch (x y z : Z) : Z := Z.lxor (Z.land x y) (Z.land (not32 x) z).
Definition Maj (x y z : Z) : Z :=
  Z.lxor (Z.lxor (Z.land x y) (Z.land x z)) (Z.land y z).
Definition bsig0 (x : Z) : Z := Z.lxor (Z.lxor (rotr 2 x) (rotr 13 x)) (rotr 22 x).
Definition bsig1 (x : Z) : Z := Z.lxor (Z.lxor (rotr 6 x) (rotr 11 x)) (rotr 25 x).
Definition ssig0 (x : Z) : Z := Z.lxor (Z.lxor (rotr 7 x) (rotr 18 x)) (Z.shiftr x 3).
Definition ssig1 (x : Z) : Z := Z.lxor (Z.lxor (rotr 17 x) (rotr 19 x)) (Z.shiftr x 10).

(** The round constants (FIPS 180-4, 4.2.2): the first 32 bits of the
    fractional parts of the cube roots of the first 64 primes. *)
Fixpoint icbrt_bits (bit : nat) (n r : Z) : Z :=
  match bit with
  | O => r
  | S b =>
      let r' := r + 2 ^ Z.of_nat b in
      icbrt_bits b n (if r' * r' * r' <=? n then r' else r)
  end.

(** Integer cube root of [0 <= n < 2^120]. *)
Definition icbrt (n : Z) : Z := icbrt_bits 40 n 0.

Definition is_prime (p : nat) : bool :=
  forallb (fun d => negb (Nat.eqb (Nat.modulo p d) 0)) (seq 2 (p - 2)).

Definition first_primes : list Z := map Z.of_nat (filter is_prime (seq 2 310)).

Definition K256 : list Z :=
  Eval vm_compute in map (fun p => icbrt (p * 2 ^ 96) mod 2 ^ 32) first_primes.

(** The eight chaining words. *)
Record state : Type := mkState {
  ha : Z; hb : Z; hc : Z; hd : Z; he : Z; hf : Z; hg : Z; hh : Z
}.

Definition init_state : state :=
  mkState 0x6a09e667 0xbb67ae85 0x3c6ef372 0xa54ff53a
          0x510e527f 0x9b05688c 0x1f83d9ab 0x5be0cd19.

(** Message padding: 0x80, zeros up to 56 mod 64, the bit length on 8 bytes. *)
Definition be_bytes (n : nat) (x : Z) : list Z :=
  map (fun i => Z.land (Z.shiftr x (8 * Z.of_nat (n - 1 - i))) 255) (seq 0 n).

Definition pad (msg : list Z) : list Z :=
  let len := Z.of_nat (List.length msg) in
  let k := (55 - len) mod 64 in
  (msg ++ [128] ++ repeat 0 (Z.to_nat k) ++ be_bytes 8 (8 * len))%list.

(** Big-endian words of a byte list. *)
Fixpoint to_words (bs : list Z) : list Z :=
  match bs with
  | b0 :: b1 :: b2 :: b3 :: r =>
      (Z.shiftl b0 24 + Z.shiftl b1 16 + Z.shiftl b2 8 + b3) :: to_words r
  | _ => []
  end.

(** Cut a list into blocks of [n] elements. *)
Fixpoint chunks {A : Type} (fuel n : nat) (l : list A) : list (list A) :=
  match fuel with
  | O => []
  | S fuel' =>
      match l with
      | [] => []
      | _ => firstn n l :: chunks fuel' n (skipn n l)
      end
  end.

(** Message schedule; [recent] holds W(t-1), W(t-2), ... most recent first. *)
Fixpoint expand (n : nat) (recent : list Z) : list Z :=
  match n with
  | O => recent
  | S n' =>
      let wt := add32 (add32 (ssig1 (nth 1 recent 0)) (nth 6 recent 0))
                      (add32 (ssig0 (nth 14 recent 0)) (nth 15 recent 0)) in
      expand n' (wt :: recent)
  end.

Definition schedule (block : list Z) : list Z := rev (expand 48 (rev block)).

Definition round (s : state) (kw : Z * Z) : state :=
  let t1 := add32 (add32 (add32 (hh s) (bsig1 (he s)))
                         (add32 (Ch (he s) (hf s) (hg s)) (fst kw))) (snd kw) in
  let t2 := add32 (bsig0 (ha s)) (Maj (ha s) (hb s) (hc s)) in
  mkState (add32 t1 t2) (ha s) (hb s) (hc s) (add32 (hd s) t1) (he s) (hf s) (hg s).

Definition compress (s : state) (block : list Z) : state :=
  let r := fold_left round (combine K256 (schedule block)) s in
  mkState (add32 (ha s) (ha r)) (add32 (hb s) (hb r)) (add32 (hc s) (hc r))
          (add32 (hd s) (hd r)) (add32 (he s) (he r)) (add32 (hf s) (hf r))
          (add32 (hg s) (hg r)) (add32 (hh s) (hh r)).

Definition digest (msg : list Z) : state :=
  let ws := to_words (pad msg) in
  fold_left compress (chunks (List.length ws) 16 ws) init_state.

Definition hex_digit (n : Z) : ascii :=
  nth (Z.to_nat n)
      ["0"; "1"; "2"; "3"; "4"; "5"; "6"; "7"; "8"; "9"; "a"; "b"; "c"; "d"; "e"; "f"]%char
      "0"%char.

Definition nibble (x : Z) (i : Z) : ascii := hex_digit (Z.land (Z.shiftr x (4 * i)) 15).

Definition word_hex (x : Z) (tail : string) : string :=
  String (nibble x 7) (String (nibble x 6) (String (nibble x 5) (String (nibble x 4)
  (String (nibble x 3) (String (nibble x 2) (String (nibble x 1) (String (nibble x 0)
   tail))))))).

Definition hex_of_state (s : state) : string :=
  word_hex (ha s) (word_hex (hb s) (word_hex (hc s) (word_hex (hd s)
  (word_hex (he s) (word_hex (hf s) (word_hex (hg s) (word_hex (hh s)
   EmptyString))))))).

Definition bytes_of_string (s : string) : list Z :=
  map (fun c => Z.of_N (N_of_ascii c)) (list_ascii_of_string s).

(** [hashlib.sha256(s.encode("utf-8")).hexdigest()] *)
Definition hexdigest (s : string) : string := hex_of_state (digest (bytes_of_string s)).

End Sha256.
Arguments Sha256.hexdigest : simpl never.

(* ================================================================== *)
(** ** json: the values the payloads are made of, [dumps] and [loads]

    The payloads built in this repository hold [None], strings, integers,
    lists and dictionaries with string keys.  [json_dumps] is
    [json.dumps(v, sort_keys=True, separators=(",", ":"), ensure_ascii=False)];
    [json_loads] is [json.loads] on texts of that fragment (no insignificant
    white space, no fractions or exponents, no [\u] escape above U+007F). *)

#[warnings="-register-all"]
Inductive json : Type :=
| JNull
| JBool (b : bool)
| JInt (z : Z)
| JStr (s : string)
| JList (l : list json)
| JDict (items : list (string * json)).

(** [d[k] = v] on the items of a dictionary: an existing key keeps its
    place, a new key goes last. *)
Fixpoint dict_set {A : Type} (k : string) (v : A) (items : list (string * A))
  : list (string * A) :=
  match items with
  | [] => [(k, v)]
  | (k', v') :: r =>
      if (k' =? k)%string then (k', v) :: r else (k', v') :: dict_set k v r
  end.

Fixpoint dict_get {A : Type} (k : string) (items : list (string * A)) : option A :=
  match items with
  | [] => None
  | (k', v') :: r => if (k' =? k)%string then Some v' else dict_get k r
  end.

(** [sorted(items)] by key (insertion sort, stable). *)
Fixpoint insert_item {A : Type} (x : string * A) (l : list (string * A))
  : list (string * A) :=
  match l with
  | [] => [x]
  | y :: r => if String.leb (fst x) (fst y) then x :: l else y :: insert_item x r
  end.

Fixpoint sort_items {A : Type} (l : list (string * A)) : list (string * A) :=
  match l with
  | [] => []
  | x :: r => insert_item x (sort_items r)
  end.

Definition hex2 (n : N) : string :=
  String (Sha256.hex_digit (Z.of_N (n / 16))) (str1 (Sha256.hex_digit (Z.of_N (n mod 16)))).

(** The replacement of one character inside a JSON string. *)
Definition esc_char (c : ascii) : string :=
  let n := N_of_ascii c in
  if (n =? 34)%N then String bslash (str1 dquote)
  else if (n =? 92)%N then String bslash (str1 bslash)
  else if (n =? 8)%N then String bslash "b"
  else if (n =? 12)%N then String bslash "f"
  else if (n =? 10)%N then String bslash "n"
  else if (n =? 13)%N then String bslash "r"
  else if (n =? 9)%N then String bslash "t"
  else if (n <? 32)%N then String bslash ("u00" ++ hex2 n)
  else str1 c.

Fixpoint json_escape (s : string) : string :=
  match s with
  | EmptyString => EmptyString
  | String c r => esc_char c ++ json_escape r
  end.

Definition json_quote (s : string) : string :=
  String dquote (json_escape s ++ str1 dquote).

Fixpoint join_comma (l : list string) : string :=
  match l with
  | [] => EmptyString
  | [x] => x
  | x :: r => x ++ "," ++ join_comma r
  end.

Definition dump_item (kv : string * string) : string :=
  json_quote (fst kv) ++ ":" ++ snd kv.

Fixpoint json_dumps (v : json) : string :=
  match v with
  | JNull => "null"
  | JBool true => "true"
  | JBool false => "false"
  | JInt z => Z_to_string z
  | JStr s => json_quote s
  | JList l => "[" ++ join_comma (map json_dumps l) ++ "]"
  | JDict items =>
      "{" ++ join_comma
               (map dump_item
                  (sort_items (map (fun kv => (fst kv, json_dumps (snd kv))) items)))
          ++ "}"
  end.

Definition JSONDecodeError : PyExn := mkExn "JSONDecodeError" "Expecting value".

Definition hex_val (c : ascii) : option N :=
  let n := N_of_ascii c in
  if is_digit c then Some (n - 48)%N
  else if ((97 <=? n) && (n <=? 102))%N then Some (n - 87)%N
  else if ((65 <=? n) && (n <=? 70))%N then Some (n - 55)%N
  else None.

(** The characters of a string up to its closing quote, escapes decoded;
    a raw control character is refused. *)
Fixpoint parse_string_body (s : string) : option (string * string) :=
  match s with
  | EmptyString => None
  | String c r =>
      let n := N_of_ascii c in
      if (n =? 34)%N then Some (EmptyString, r)
      else if (n =? 92)%N then
        match r with
        | EmptyString => None
        | String e r1 =>
            let m := N_of_ascii e in
            let lit (ch : ascii) :=
              match parse_string_body r1 with
              | Some (body, rest) => Some (String ch body, rest)
              | None => None
              end in
            if (m =? 34)%N then lit dquote
            else if (m =? 92)%N then lit bslash
            else if (m =? 47)%N then lit "/"%char
            else if (m =? 98)%N then lit (ascii_of_nat 8)
            else if (m =? 102)%N then lit (ascii_of_nat 12)
            else if (m =? 110)%N then lit (ascii_of_nat 10)
            else if (m =? 114)%N then lit (ascii_of_nat 13)
            else if (m =? 116)%N then lit (ascii_of_nat 9)
            else if (m =? 117)%N then
              match r1 with
              | String x1 (String x2 (String x3 (String x4 r2))) =>
                  match hex_val x1, hex_val x2, hex_val x3, hex_val x4 with
                  | Some v1, Some v2, Some v3, Some v4 =>
                      let cp := (((v1 * 16 + v2) * 16 + v3) * 16 + v4)%N in
                      if (cp <? 128)%N then
                        match parse_string_body r2 with
                        | Some (body, rest) => Some (String (ascii_of_N cp) body, rest)
                        | None => None
                        end
                      else None
                  | _, _, _, _ => None
                  end
              | _ => None
              end
            else None
        end
      else if (n <? 32)%N then None
      else
        match parse_string_body r with
        | Some (body, rest) => Some (String c body, rest)
        | None => None
        end
  end.

(** The longest prefix of digits, and what follows it. *)
Fixpoint span_digits (s : string) : string * string :=
  match s with
  | EmptyString => (EmptyString, EmptyString)
  | String c r =>
      if is_digit c then let (ds, rest) := span_digits r in (String c ds, rest)
      else (EmptyString, s)
  end.

(** An unsigned JSON integer: [0] or a digit sequence without leading zero;
    a fraction or an exponent after it is outside the fragment. *)
Definition parse_nat (s : string) : option (N * string) :=
  let (ds, rest) := span_digits s in
  match NilZero.uint_of_string ds with
  | Some d =>
      if (N_to_string (N.of_uint d) =? ds)%string then
        match rest with
        | String c _ =>
            if ((c =? ".") || (c =? "e") || (c =? "E"))%char then None
            else Some (N.of_uint d, rest)
        | EmptyString => Some (N.of_uint d, rest)
        end
      else None
  | None => None
  end.

(** The text that follows the literal [lit], if [s] starts with it. *)
Fixpoint expect (lit : string) (s : string) : option string :=
  match lit with
  | EmptyString => Some s
  | String c lit' =>
      match s with
      | String c' s' => if (c =? c')%char then expect lit' s' else None
      | EmptyString => None
      end
  end.

Fixpoint parse_value (fuel : nat) (s : string) {struct fuel} : option (json * string) :=
  match fuel with
  | O => None
  | S f =>
      match s with
      | EmptyString => None
      | String c r =>
          let n := N_of_ascii c in
          if (n =? 110)%N then
            match expect "ull" r with Some r' => Some (JNull, r') | None => None end
          else if (n =? 116)%N then
            match expect "rue" r with Some r' => Some (JBool true, r') | None => None end
          else if (n =? 102)%N then
            match expect "alse" r with Some r' => Some (JBool false, r') | None => None end
          else if (n =? 34)%N then
            match parse_string_body r with
            | Some (body, r') => Some (JStr body, r')
            | None => None
            end
          else if (n =? 45)%N then
            match parse_nat r with
            | Some (m, r') => Some (JInt (- Z.of_N m), r')
            | None => None
            end
          else if is_digit c then
            match parse_nat s with
            | Some (m, r') => Some (JInt (Z.of_N m), r')
            | None => None
            end
          else if (n =? 91)%N then
            match r with
            | String c' r' =>
                if (N_of_ascii c' =? 93)%N then Some (JList [], r')
                else match parse_elems f r with
                     | Some (vs, r'') => Some (JList vs, r'')
                     | None => None
                     end
            | EmptyString => None
            end
          else if (n =? 123)%N then
            match r with
            | String c' r' =>
                if (N_of_ascii c' =? 125)%N then Some (JDict [], r')
                else match parse_members f r with
                     | Some (kvs, r'') =>
                         Some (JDict (fold_left (fun d kv => dict_set (fst kv) (snd kv) d)
                                                kvs []), r'')
                     | None => None
                     end
            | EmptyString => None
            end
          else None
      end
  end

with parse_elems (fuel : nat) (s : string) {struct fuel} : option (list json * string) :=
  match fuel with
  | O => None
  | S f =>
      match parse_value f s with
      | Some (v, String c r) =>
          if (N_of_ascii c =? 44)%N then
            match parse_elems f r with
            | Some (vs, r') => Some (v :: vs, r')
            | None => None
            end
          else if (N_of_ascii c =? 93)%N then Some ([v], r)
          else None
      | _ => None
      end
  end

with parse_members (fuel : nat) (s : string) {struct fuel}
  : option (list (string * json) * string) :=
  match fuel with
  | O => None
  | S f =>
      match s with
      | String q r0 =>
          if (N_of_ascii q =? 34)%N then
            match parse_string_body r0 with
            | Some (k, String colon r1) =>
                if (N_of_ascii colon =? 58)%N then
                  match parse_value f r1 with
                  | Some (v, String c r) =>
                      if (N_of_ascii c =? 44)%N then
                        match parse_members f r with
                        | Some (kvs, r') => Some ((k, v) :: kvs, r')
                        | None => None
                        end
                      else if (N_of_ascii c =? 125)%N then Some ([(k, v)], r)
                      else None
                  | _ => None
                  end
                else None
            | _ => None
            end
          else None
      | EmptyString => None
      end
  end.

(** [json.loads(s)] *)
Definition json_loads (s : string) : Res json :=
  match parse_value (S (String.length s)) s with
  | Some (v, EmptyString) => Ok v
  | _ => Raise JSONDecodeError
  end.


(** A dictionary has each key once. *)
Fixpoint nodup_str (l : list string) : bool :=
  match l with
  | [] => true
  | x :: r => negb (existsb (String.eqb x) r) && nodup_str r
  end.

(** Values a Python program can build: no dictionary repeats a key. *)
Fixpoint json_wf (v : json) : bool :=
  match v with
  | JList l => forallb json_wf l
  | JDict items =>
      nodup_str (map fst items) && forallb (fun kv => json_wf (snd kv)) items
  | _ => true
  end.

(** The value with every dictionary listed in key order: what
    [json_loads] reads back from [json_dumps]. *)
Fixpoint json_canon (v : json) : json :=
  match v with
  | JList l => JList (map json_canon l)
  | JDict items =>
      JDict (sort_items (map (fun kv => (fst kv, json_canon (snd kv))) items))
  | _ => v
  end.

(** What may follow a value inside a canonical text. *)
Definition sep_head (rest : string) : bool :=
  match rest with
  | EmptyString => true
  | String c _ => ((c =? ",") || (c =? "]") || (c =? "}"))%char
  end.

Fixpoint sorted_keys {A : Type} (l : list (string * A)) : bool :=
  match l with
  | x :: (y :: _) as r => String.leb (fst x) (fst y) && sorted_keys r
  | _ => true
  end.

(** What reading a dumped value back means: the parser, given enough fuel
    and the text of [v] followed by a separator, returns the canonical form
    of [v] and the rest. *)
Definition reads_back (v : json) : Prop :=
  json_wf v = true ->
  forall fuel rest,
    (String.length (json_dumps v) < fuel)%nat ->
    sep_head rest = true ->
    parse_value fuel (json_dumps v ++ rest) = Some (json_canon v, rest).

(** A dictionary item with its value dumped, and with its value canonical. *)
Definition dump_kv (kv : string * json) : string * string :=
  (fst kv, json_dumps (snd kv)).
Definition canon_kv (kv : string * json) : string * json :=
  (fst kv, json_canon (snd kv)).

(* ================================================================== *)
(** ** The database: tables as lists of rows *)

Record AccountRow : Type := mkAccountRow {
  acc_code : string;
  acc_statement_type : string
}.

Record PeriodRow : Type := mkPeriodRow {
  per_year : string;
  per_month : option string;
  per_start_date : string;
  per_end_date : string;
  per_status : string
}.

Record EntryRow : Type := mkEntryRow {
  ent_id : Z;
  ent_date : string;
  ent_year : string;
  ent_protocol : string;
  ent_protocol_series : string;
  ent_protocol_no : Z;
  ent_document : option string;
  ent_document_date : option string;
  ent_party : option string;
  ent_description : string;
  ent_created_by : string;
  ent_reversal_of : option Z;
  ent_client_reference_id : option string;
  ent_taxable_amount : option Decimal;   (* the value handed to float() *)
  ent_vat_rate : option Decimal;
  ent_vat_amount : option Decimal;
  ent_document_type : option string
}.

Record LineRow : Type := mkLineRow {
  ln_entry_id : Z;
  ln_account_code : string;
  ln_dare_cents : Z;
  ln_avere_cents : Z
}.

Record ReversalRow : Type := mkReversalRow {
  rv_entry_id : Z;
  rv_reversal_of : Z
}.

Record CounterRow : Type := mkCounterRow {
  ctr_year : string;
  ctr_series : string;
  ctr_counter : Z
}.

Record AuditRow : Type := mkAuditRow {
  aud_id : Z;
  aud_entry_id : option Z;
  aud_action : string;
  aud_user_id : string;
  aud_payload : string;
  aud_prev_hash : option string;
  aud_curr_hash : string
}.

Record IdemRow : Type := mkIdemRow {
  idm_key : string;
  idm_payload_hash : string;
  idm_entry_id : Z;
  idm_protocol : string
}.

Record DB : Type := mkDB {
  tbl_accounts : list AccountRow;
  tbl_periods : list PeriodRow;
  tbl_entries : list EntryRow;
  tbl_entry_lines : list LineRow;
  tbl_entry_reversals : list ReversalRow;
  tbl_protocol_counters : list CounterRow;
  tbl_audit_log : list AuditRow;
  tbl_idempotence : list IdemRow
}.

Definition empty_db : DB := mkDB [] [] [] [] [] [] [] [].

Definition set_periods (d : DB) (x : list PeriodRow) : DB :=
  mkDB (tbl_accounts d) x (tbl_entries d) (tbl_entry_lines d)
       (tbl_entry_reversals d) (tbl_protocol_counters d) (tbl_audit_log d)
       (tbl_idempotence d).
Definition set_entries (d : DB) (x : list EntryRow) : DB :=
  mkDB (tbl_accounts d) (tbl_periods d) x (tbl_entry_lines d)
       (tbl_entry_reversals d) (tbl_protocol_counters d) (tbl_audit_log d)
       (tbl_idempotence d).
Definition set_entry_lines (d : DB) (x : list LineRow) : DB :=
  mkDB (tbl_accounts d) (tbl_periods d) (tbl_entries d) x
       (tbl_entry_reversals d) (tbl_protocol_counters d) (tbl_audit_log d)
       (tbl_idempotence d).
Definition set_entry_reversals (d : DB) (x : list ReversalRow) : DB :=
  mkDB (tbl_accounts d) (tbl_periods d) (tbl_entries d) (tbl_entry_lines d)
       x (tbl_protocol_counters d) (tbl_audit_log d) (tbl_idempotence d).
Definition set_protocol_counters (d : DB) (x : list CounterRow) : DB :=
  mkDB (tbl_accounts d) (tbl_periods d) (tbl_entries d) (tbl_entry_lines d)
       (tbl_entry_reversals d) x (tbl_audit_log d) (tbl_idempotence d).
Definition set_audit_log (d : DB) (x : list AuditRow) : DB :=
  mkDB (tbl_accounts d) (tbl_periods d) (tbl_entries d) (tbl_entry_lines d)
       (tbl_entry_reversals d) (tbl_protocol_counters d) x (tbl_idempotence d).
Definition set_idempotence (d : DB) (x : list IdemRow) : DB :=
  mkDB (tbl_accounts d) (tbl_periods d) (tbl_entries d) (tbl_entry_lines d)
       (tbl_entry_reversals d) (tbl_protocol_counters d) (tbl_audit_log d) x.

(** The id given to a new row of an INTEGER PRIMARY KEY table: one more
    than the largest id in use. *)
Definition next_id (ids : list Z) : Z := 1 + fold_right Z.max 0 ids.

Definition opt_str_eqb (a b : option string) : bool :=
  match a, b with
  | Some x, Some y => (x =? y)%string
  | None, None => true
  | _, _ => false
  end.

Definition opt_Z_eqb (a b : option Z) : bool :=
  match a, b with
  | Some x, Some y => x =? y
  | None, None => true
  | _, _ => false
  end.

(* ================================================================== *)
(** ** db/db_manager.py: the cached connection and [transaction] *)

Inductive TxEvent : Type := EvBegin | EvCommit | EvRollback.

(** The one cached connection ([isolation_level=None]: no implicit BEGIN).
    [db] is what the connection reads and writes; [saved] is the last
    committed state while a transaction is open; [tx_log] lists the BEGIN,
    COMMIT and ROLLBACK statements the connection has executed. *)
Record Conn : Type := mkConn {
  db : DB;
  saved : option DB;
  tx_log : list TxEvent
}.

(** What another connection can observe. *)
Definition committed (c : Conn) : DB :=
  match saved c with
  | Some s => s
  | None => db c
  end.

Definition fresh_conn (d : DB) : Conn := mkConn d None [].

(** The places where the code talks to SQLite. *)
Inductive Stmt : Type :=
| SSelectIdempotence
| SInsertCounter
| SUpdateCounter
| SSelectCounter
| SInsertEntry
| SInsertLine (i : nat)
| SInsertReversal
| SSelectAuditLast
| SInsertAudit
| SAuditCommit
| SInsertIdempotence
| STxCommit
| SSelectAuditChain
| SRepoAccount
| SRepoPeriod
| SRepoEntry
| SRepoReversal
| SFinalizeSelect
| SFinalizeUpdate.

(** The environment: whether the n-th BEGIN IMMEDIATE of a [transaction]
    call fails, and whether a statement fails (with which exception). *)
Record Env : Type := mkEnv {
  begin_fault : nat -> option PyExn;
  stmt_fault : Stmt -> option PyExn
}.

Definition no_faults : Env := mkEnv (fun _ => None) (fun _ => None).

(** Computations on the connection that may raise. *)
Definition M (A : Type) : Type := Conn -> Conn * Res A.

Definition retM {A : Type} (a : A) : M A := fun c => (c, Ok a).
Definition raiseM {A : Type} (e : PyExn) : M A := fun c => (c, Raise e).
Definition bindM {A B : Type} (m : M A) (k : A -> M B) : M B :=
  fun c => match m c with
           | (c', Ok a) => k a c'
           | (c', Raise e) => (c', Raise e)
           end.
Definition liftR {A : Type} (r : Res A) : M A := fun c => (c, r).

Declare Scope m_scope.
Delimit Scope m_scope with M.
Notation "x <- m ;; k" := (bindM m (fun x => k))
  (at level 61, m at next level, right associativity) : m_scope.

(** [cur.execute(...)] at place [tag]: the statement fails if the
    environment says so, else it is run on the working state. *)
Definition exec {A : Type} (env : Env) (tag : Stmt) (f : DB -> Res (DB * A)) : M A :=
  fun c =>
    match stmt_fault env tag with
    | Some e => (c, Raise e)
    | None =>
        match f (db c) with
        | Ok (d', a) => (mkConn d' (saved c) (tx_log c), Ok a)
        | Raise e => (c, Raise e)
        end
    end.

(** A query. *)
Definition query {A : Type} (env : Env) (tag : Stmt) (f : DB -> A) : M A :=
  exec env tag (fun d => Ok (d, f d)).

(** [conn.commit()]: nothing to do outside a transaction. *)
Definition conn_commit (env : Env) (tag : Stmt) : M unit :=
  fun c =>
    match saved c with
    | None => (c, Ok tt)
    | Some _ =>
        match stmt_fault env tag with
        | Some e => (c, Raise e)
        | None => (mkConn (db c) None (tx_log c ++ [EvCommit]), Ok tt)
        end
    end.

(** [conn.rollback()]: nothing to do outside a transaction. *)
Definition conn_rollback (c : Conn) : Conn :=
  match saved c with
  | None => c
  | Some s => mkConn s None (tx_log c ++ [EvRollback])
  end.

Definition lower_ascii (c : ascii) : ascii :=
  if ((65 <=? N_of_ascii c)%N && (N_of_ascii c <=? 90)%N)%bool
  then ascii_of_N (N_of_ascii c + 32)
  else c.

Fixpoint str_lower (s : string) : string :=
  match s with
  | EmptyString => EmptyString
  | String c r => String (lower_ascii c) (str_lower r)
  end.

(** The [except sqlite3.OperationalError] test of the BEGIN loop. *)
Definition is_busy (e : PyExn) : bool :=
  (exn_type e =? "OperationalError")%string &&
  (str_contains "locked" (str_lower (exn_text e)) ||
   str_contains "busy" (str_lower (exn_text e))).

Definition max_retries : nat := 5.

(** The [while True] loop around BEGIN IMMEDIATE; [remaining] is
    [_max_retries - attempt].  The sleeps between attempts are not modelled. *)
Fixpoint begin_loop (env : Env) (remaining attempt : nat) (c : Conn) : Conn * Res unit :=
  match saved c with
  | Some _ =>
      (c, Raise (mkExn "OperationalError"
                   "cannot start a transaction within a transaction"))
  | None =>
      match begin_fault env attempt with
      | None => (mkConn (db c) (Some (db c)) (tx_log c ++ [EvBegin]), Ok tt)
      | Some e =>
          if is_busy e then
            match remaining with
            | O => (c, Raise e)
            | S r => begin_loop env r (S attempt) c
            end
          else (c, Raise e)
      end
  end.

(** [with DBManager.transaction() as cur: body]: commit on a clean exit
    (an early [return] is one), rollback and re-raise on an exception. *)
Definition transaction {A : Type} (env : Env) (body : M A) : M A :=
  fun c =>
    match begin_loop env max_retries 0 c with
    | (c1, Raise e) => (c1, Raise e)
    | (c1, Ok _) =>
        match body c1 with
        | (c2, Ok a) =>
            match conn_commit env STxCommit c2 with
            | (c3, Ok _) => (c3, Ok a)
            | (c3, Raise e) => (conn_rollback c3, Raise e)
            end
        | (c2, Raise e) => (conn_rollback c2, Raise e)
        end
    end.

(* ================================================================== *)
(** ** services/audit_service.py *)

(** [_payload_hash] (and [payload_hash] of the posting engine): SHA-256 of
    the canonical JSON text. *)
Definition payload_hash (payload : json) : string :=
  Sha256.hexdigest (json_dumps payload).
Arguments payload_hash : simpl never.

(** [SELECT curr_hash FROM audit_log WHERE entry_id = ? ORDER BY id DESC
    LIMIT 1]: the matching row with the largest id. *)
Definition latest_audit_row (eid : Z) (rows : list AuditRow) : option AuditRow :=
  fold_left (fun best r =>
               if opt_Z_eqb (aud_entry_id r) (Some eid) then
                 match best with
                 | Some b => if aud_id b <? aud_id r then Some r else best
                 | None => Some r
                 end
               else best)
            rows None.

(** [log_action(action, user_id, payload, entry_id)]; [now] is the
    reading of the clock, [payload] the items of the dictionary. *)
Definition log_action (env : Env) (now : string) (action user_id : string)
    (payload : list (string * json)) (entry_id : option Z) : M unit :=
  (let payload := dict_set "timestamp" (JStr now) payload in
   let curr_hash := payload_hash (JDict payload) in
   prev_hash <-
     (if truthy_int entry_id then
        match entry_id with
        | Some eid =>
            row <- query env SSelectAuditLast
                     (fun d => latest_audit_row eid (tbl_audit_log d)) ;;
            retM (match row with
                  | Some r =>
                      if (aud_curr_hash r =? EmptyString)%string then None
                      else Some (aud_curr_hash r)
                  | None => None
                  end)
        | None => retM None
        end
      else retM None) ;;
   _ <- exec env SInsertAudit
          (fun d =>
             Ok (set_audit_log d
                   (tbl_audit_log d ++
                    [mkAuditRow (next_id (map aud_id (tbl_audit_log d)))
                                entry_id action user_id
                                (json_dumps (JDict payload)) prev_hash curr_hash])%list,
                 tt)) ;;
   conn_commit env SAuditCommit)%M.

(** [ORDER BY id ASC] *)
Fixpoint insert_by_id (r : AuditRow) (l : list AuditRow) : list AuditRow :=
  match l with
  | [] => [r]
  | x :: rest => if aud_id r <=? aud_id x then r :: l else x :: insert_by_id r rest
  end.

Fixpoint order_by_id (l : list AuditRow) : list AuditRow :=
  match l with
  | [] => []
  | r :: rest => insert_by_id r (order_by_id rest)
  end.

(** The [for row in rows] loop of [verify_chain]. *)
Fixpoint verify_rows (rows : list AuditRow) (prev_hash : option string) : Res bool :=
  match rows with
  | [] => Ok true
  | row :: rest =>
      (payload <- json_loads (aud_payload row) ;;
       let expected_hash := payload_hash payload in
       if negb (expected_hash =? aud_curr_hash row)%string then Ok false
       else if negb (opt_str_eqb (aud_prev_hash row) prev_hash) then Ok false
       else verify_rows rest (Some (aud_curr_hash row)))%res
  end.

(** [verify_chain(entry_id)] *)
Definition verify_chain (env : Env) (entry_id : Z) (c : Conn) : Res bool :=
  match stmt_fault env SSelectAuditChain with
  | Some e => Raise e
  | None =>
      verify_rows
        (order_by_id
           (filter (fun r => opt_Z_eqb (aud_entry_id r) (Some entry_id))
                   (tbl_audit_log (db c))))
        None
  end.

(* ================================================================== *)
(** ** kernel/validator_adapter.py: the DB-backed repositories *)

Definition digit_val (c : ascii) : Z := Z.of_N (N_of_ascii c) - 48.

(** SQLite's [date(?)] on a text of the shape accepted by
    [validate_period_open] (YYYY-MM-DD, possibly followed by a newline):
    NULL ([None]) unless 1 <= MM <= 12 and 1 <= DD <= 31, else the ten
    characters of the date (without modifiers SQLite prints the fields it
    parsed).  Other shapes are not modelled and give [None]. *)
Definition sqlite_date (s : string) : option string :=
  if date_re_match s then
    match s with
    | String ya (String yb (String yc (String yd (String _
       (String ma (String mb (String _ (String da (String db _))))))))) =>
        let m := 10 * digit_val ma + digit_val mb in
        let d := 10 * digit_val da + digit_val db in
        if (1 <=? m) && (m <=? 12) && (1 <=? d) && (d <=? 31)
        then Some (str_take 10 s)
        else None
    | _ => None
    end
  else None.

(** [x BETWEEN lo AND hi] on TEXT values. *)
Definition text_between (x lo hi : string) : bool :=
  String.leb lo x && String.leb x hi.

(** A read made by a repository at place [tag]. *)
Definition repo_query {A : Type} (env : Env) (tag : Stmt) (a : A) : Res A :=
  match stmt_fault env tag with
  | Some e => Raise e
  | None => Ok a
  end.

Definition AccountsRepoDB (env : Env) (c : Conn) : AccountRepo :=
  {| acc_exists := fun account_code =>
       repo_query env SRepoAccount
         (existsb (fun a => (acc_code a =? account_code)%string)
                  (tbl_accounts (db c))) |}.

(** [is_open_by_date]: no row with [status='closed'] covers the date. *)
Definition closed_hit (d : DB) (iso_date : string) : bool :=
  existsb (fun p =>
             (per_status p =? "closed")%string &&
             match sqlite_date iso_date with
             | Some x => text_between x (per_start_date p) (per_end_date p)
             | None => false
             end)
          (tbl_periods d).

Definition PeriodsRepoDB (env : Env) (c : Conn) : PeriodRepo :=
  {| is_open_by_date := fun iso_date =>
       repo_query env SRepoPeriod (negb (closed_hit (db c) iso_date)) |}.

Definition EntriesRepoDB (env : Env) (c : Conn) : EntryRepo :=
  {| ent_exists := fun entry_id =>
       repo_query env SRepoEntry
         (existsb (fun e => ent_id e =? entry_id) (tbl_entries (db c)));
     has_reversal_for := fun original_entry_id =>
       repo_query env SRepoReversal
         (existsb (fun e => opt_Z_eqb (ent_reversal_of e) (Some original_entry_id))
                  (tbl_entries (db c))) |}.

(* ================================================================== *)
(** ** core/posting_engine.py *)

Definition json_opt_str (o : option string) : json :=
  match o with Some s => JStr s | None => JNull end.

Definition json_opt_int (o : option Z) : json :=
  match o with Some z => JInt z | None => JNull end.

(** [str(q2(x)) if x is not None else None] *)
Definition json_q2 (o : option Decimal) : Res json :=
  match o with
  | Some x => (q <- q2 (Some x) ;; Ok (JStr (dec_str q)))%res
  | None => Ok JNull
  end.

Definition json_line (l : LineDTO) : Res json :=
  (d <- cents (Some (dare l)) ;;
   a <- cents (Some (avere l)) ;;
   Ok (JDict [("account_code", JStr (account_id l));
              ("dare_cents", JInt d); ("avere_cents", JInt a)]))%res.

(** The ["entry"] part shared by the two payloads. *)
Definition entry_content (entry : EntryDTO) : Res json :=
  (t <- json_q2 (taxable_amount entry) ;;
   r <- json_q2 (vat_rate entry) ;;
   a <- json_q2 (vat_amount entry) ;;
   ls <- mapR json_line (lines entry) ;;
   Ok (JDict [("date", JStr (date entry));
              ("descrizione", JStr (descrizione entry));
              ("documento", json_opt_str (documento entry));
              ("document_date", json_opt_str (document_date entry));
              ("cliente_fornitore", json_opt_str (cliente_fornitore entry));
              ("reversal_of", json_opt_int (reversal_of entry));
              ("client_reference_id", json_opt_str (client_reference_id entry));
              ("taxable_amount", t);
              ("vat_rate", r);
              ("vat_amount", a);
              ("lines", JList ls)]))%res.

(** [canonical_payload(entry, user_id, protocol)]: the items of the dict. *)
Definition canonical_payload (entry : EntryDTO) (user_id : string)
    (protocol : option string) : Res (list (string * json)) :=
  (e <- entry_content entry ;;
   Ok [("entry", e); ("protocol", json_opt_str protocol); ("user", JStr user_id)])%res.

(** [idempotence_content(entry, user_id)] *)
Definition idempotence_content (entry : EntryDTO) (user_id : string)
  : Res (list (string * json)) :=
  (e <- entry_content entry ;;
   Ok [("entry", e); ("user", JStr user_id)])%res.

Definition find_counter (year series : string) (rows : list CounterRow)
  : option CounterRow :=
  find (fun r => (ctr_year r =? year)%string && (ctr_series r =? series)%string) rows.

(** [_next_protocol(cur, year, series)] *)
Definition _next_protocol (env : Env) (year series : string) : M (Z * string) :=
  (_ <- exec env SInsertCounter
          (fun d =>
             Ok (match find_counter year series (tbl_protocol_counters d) with
                 | Some _ => d
                 | None => set_protocol_counters d
                             (tbl_protocol_counters d ++ [mkCounterRow year series 0])%list
                 end, tt)) ;;
   _ <- exec env SUpdateCounter
          (fun d =>
             Ok (set_protocol_counters d
                   (map (fun r =>
                           if (ctr_year r =? year)%string && (ctr_series r =? series)%string
                           then mkCounterRow (ctr_year r) (ctr_series r) (ctr_counter r + 1)
                           else r)
                        (tbl_protocol_counters d)), tt)) ;;
   row <- query env SSelectCounter
            (fun d => find_counter year series (tbl_protocol_counters d)) ;;
   match row with
   | Some r =>
       let protocol_no := ctr_counter r in
       retM (protocol_no, year ++ "/" ++ series ++ "/" ++ format_06d protocol_no)
   | None => raiseM (mkExn "TypeError" "'NoneType' object is not subscriptable")
   end)%M.

Definition find_idempotence (key : string) (rows : list IdemRow) : option IdemRow :=
  find (fun r => (idm_key r =? key)%string) rows.

(** [(protocol_series or getattr(entry, "protocol_series", None) or "GEN").upper()] *)
Definition effective_series (caller_series : option string) (entry : EntryDTO) : string :=
  str_upper (match or_str (or_str caller_series (protocol_series entry))
                          (Some "GEN") with
             | Some s => s
             | None => "GEN"
             end).

Definition success_result (entry_id : Z) (protocol : string) : EntryResult :=
  mkEntryResult true (Some entry_id) (Some protocol) [] [].

Definition failure_result (details : list LedgerError) (msgs : list string) : EntryResult :=
  mkEntryResult false None None details msgs.

(** The [for l in entry.lines] loop of step 6. *)
Fixpoint insert_lines (env : Env) (entry_id : Z) (i : nat) (ls : list LineDTO) : M unit :=
  match ls with
  | [] => retM tt
  | l :: rest =>
      (d <- liftR (cents (Some (dare l))) ;;
       a <- liftR (cents (Some (avere l))) ;;
       _ <- exec env (SInsertLine i)
              (fun dbs =>
                 Ok (set_entry_lines dbs
                       (tbl_entry_lines dbs ++ [mkLineRow entry_id (account_id l) d a])%list,
                     tt)) ;;
       insert_lines env entry_id (S i) rest)%M
  end.

(** [float(q2(x)) if x is not None else None] *)
Definition q2_opt (o : option Decimal) : Res (option Decimal) :=
  match o with
  | Some x => (q <- q2 (Some x) ;; Ok (Some q))%res
  | None => Ok None
  end.

(** Steps 4 to 9 of [post]: what runs when the idempotence pre-check did
    not return. *)
Definition post_fresh (env : Env) (now : string) (entry : EntryDTO) (user_id : string)
    (year series : string) (idempotence_key : option string) : M EntryResult :=
  (np <- _next_protocol env year series ;;
   let protocol_no := fst np in
   let protocol_str := snd np in
   ta <- liftR (q2_opt (taxable_amount entry)) ;;
   vr <- liftR (q2_opt (vat_rate entry)) ;;
   va <- liftR (q2_opt (vat_amount entry)) ;;
   entry_id <- exec env SInsertEntry
      (fun d =>
         let new_id := next_id (map ent_id (tbl_entries d)) in
         Ok (set_entries d
               (tbl_entries d ++
                [mkEntryRow new_id (date entry) year protocol_str series protocol_no
                   (documento entry) (document_date entry) (cliente_fornitore entry)
                   (descrizione entry) user_id (reversal_of entry)
                   (or_str (client_reference_id entry) idempotence_key)
                   ta vr va None])%list,
             new_id)) ;;
   _ <- insert_lines env entry_id 0 (lines entry) ;;
   _ <- (if truthy_int (reversal_of entry) then
           match reversal_of entry with
           | Some orig =>
               exec env SInsertReversal
                 (fun d => Ok (set_entry_reversals d
                                 (tbl_entry_reversals d ++ [mkReversalRow entry_id orig])%list,
                               tt))
           | None => retM tt
           end
         else retM tt) ;;
   payload <- liftR (canonical_payload entry user_id (Some protocol_str)) ;;
   _ <- log_action env now "POST" user_id payload (Some entry_id) ;;
   _ <- (if truthy_str idempotence_key then
           match idempotence_key with
           | Some key =>
               content <- liftR (idempotence_content entry user_id) ;;
               let content_hash := payload_hash (JDict content) in
               exec env SInsertIdempotence
                 (fun d =>
                    match find_idempotence key (tbl_idempotence d) with
                    | Some _ =>
                        Raise (mkExn "IntegrityError"
                                 "UNIQUE constraint failed: idempotence.key")
                    | None =>
                        Ok (set_idempotence d
                              (tbl_idempotence d ++
                               [mkIdemRow key content_hash entry_id protocol_str])%list,
                            tt)
                    end)
           | None => retM tt
           end
         else retM tt) ;;
   retM (success_result entry_id protocol_str))%M.

(** The body of the [with DBManager.transaction() as cur] block. *)
Definition post_body (env : Env) (now : string) (entry : EntryDTO) (user_id : string)
    (protocol_series idempotence_key : option string) : M EntryResult :=
  let year := str_take 4 (date entry) in
  let series := effective_series protocol_series entry in
  if truthy_str idempotence_key then
    match idempotence_key with
    | Some key =>
        (content <- liftR (idempotence_content entry user_id) ;;
         let content_hash := payload_hash (JDict content) in
         existing <- query env SSelectIdempotence
                       (fun d => find_idempotence key (tbl_idempotence d)) ;;
         match existing with
         | Some row =>
             if (idm_payload_hash row =? content_hash)%string then
               retM (success_result (idm_entry_id row) (idm_protocol row))
             else
               retM (failure_result
                       [mkLedgerError IDEMPOTENCE_CONFLICT
                          ("Key " ++ key ++ " payload mismatch")]
                       ["Idempotence conflict for key " ++ key])
         | None => post_fresh env now entry user_id year series idempotence_key
         end)%M
    | None => post_fresh env now entry user_id year series idempotence_key
    end
  else post_fresh env now entry user_id year series idempotence_key.

(** The [except Exception as e] clause. *)
Definition exception_result (e : PyExn) : EntryResult :=
  let msg := exn_type e ++ ": " ++ exn_text e in
  let code := if str_contains "Idempotence conflict" msg
              then IDEMPOTENCE_CONFLICT else DB_ERROR in
  failure_result [mkLedgerError code msg] [msg].

(** [PostingEngine.post] *)
Definition post (env : Env) (now : string) (entry : EntryDTO) (user_id : string)
    (accounts_repo : AccountRepo) (periods_repo : PeriodRepo) (entries_repo : EntryRepo)
    (protocol_series idempotence_key : option string) : M EntryResult :=
  fun c =>
    match validate entry accounts_repo periods_repo entries_repo with
    | Raise e => (c, Raise e)                      (* outside the [try] *)
    | Ok (err :: errs) =>
        (c, Ok (failure_result (err :: errs) (map message (err :: errs))))
    | Ok [] =>
        match transaction env
                (post_body env now entry user_id protocol_series idempotence_key) c with
        | (c', Ok r) => (c', Ok r)
        | (c', Raise e) => (c', Ok (exception_result e))
        end
    end.

(** [PostingEngine.post] called with the DB-backed repositories, as
    [PosterAdapter] and [ClosuresService] do. *)
Definition post_db (env : Env) (now : string) (entry : EntryDTO) (user_id : string)
    (protocol_series idempotence_key : option string) : M EntryResult :=
  fun c => post env now entry user_id
             (AccountsRepoDB env c) (PeriodsRepoDB env c) (EntriesRepoDB env c)
             protocol_series idempotence_key c.

(* ================================================================== *)
(** ** services/closures_service.py: [finalize_year] *)

Definition finalize_year (env : Env) (now : string) (year user_id descrizione : string)
  : M EntryResult :=
  (rows <- query env SFinalizeSelect
             (fun d => filter (fun p => (per_year p =? year)%string &&
                                        match per_month p with Some _ => true | None => false end)
                              (tbl_periods d)) ;;
   if existsb (fun r => negb (per_status r =? "closed")%string) rows then
     code <- liftR (ErrorCode_getattr "PERIOD_OPEN") ;;
     retM (failure_result
             [mkLedgerError code ("Mesi non chiusi per anno " ++ year)]
             ["Anno " ++ year ++ " non chiudibile: esistono mesi non 'closed'"])
   else
     _ <- transaction env
            (exec env SFinalizeUpdate
               (fun d =>
                  Ok (set_periods d
                        (map (fun p =>
                                if (per_year p =? year)%string &&
                                   match per_month p with Some _ => false | None => true end
                                then mkPeriodRow (per_year p) (per_month p)
                                       (per_start_date p) (per_end_date p) "finalized"
                                else p)
                             (tbl_periods d)), tt))) ;;
     _ <- log_action env now "FINALIZE_YEAR" user_id
            [("year", JStr year); ("descrizione", JStr descrizione)] None ;;
     retM (mkEntryResult true None None [] []))%M.

(* ================================================================== *)
(** ** Sequences of audit calls and the chain invariant *)

(** The arguments of one [log_action] call, with the clock reading. *)
Record AuditCall : Type := mkAuditCall {
  ac_now : string;
  ac_action : string;
  ac_user_id : string;
  ac_payload : list (string * json);
  ac_entry_id : option Z
}.

(** Consecutive calls; the sequence stops at the first one that raises. *)
Fixpoint log_actions (env : Env) (calls : list AuditCall) : M unit :=
  match calls with
  | [] => retM tt
  | k :: rest =>
      (_ <- log_action env (ac_now k) (ac_action k) (ac_user_id k)
              (ac_payload k) (ac_entry_id k) ;;
       log_actions env rest)%M
  end.

(** [WHERE entry_id = ?] *)
Definition rows_of (eid : Z) (rows : list AuditRow) : list AuditRow :=
  filter (fun r => opt_Z_eqb (aud_entry_id r) (Some eid)) rows.

(** Row ids grow along the table. *)
Definition ids_increasing (rows : list AuditRow) : Prop :=
  StronglySorted (fun a b => aud_id a < aud_id b) rows.

(** The audit log is in rowid order and the chain of every non-zero
    entry id verifies. *)
Definition audit_inv (rows : list AuditRow) : Prop :=
  ids_increasing rows /\
  forall eid, eid <> 0 -> verify_rows (rows_of eid rows) None = Ok true.

(** The hash the next row of a chain has to name. *)
Fixpoint last_hash (rows : list AuditRow) (prev : option string) : option string :=
  match rows with
  | [] => prev
  | r :: rest => last_hash rest (Some (aud_curr_hash r))
  end.

Fixpoint last_row (rows : list AuditRow) : option AuditRow :=
  match rows with
  | [] => None
  | [r] => Some r
  | _ :: rest => last_row rest
  end.

(** The [prev_hash] that [log_action] computes, and the row it inserts. *)
Definition audit_prev (entry_id : option Z) (rows : list AuditRow) : option string :=
  if truthy_int entry_id then
    match entry_id with
    | Some eid =>
        match latest_audit_row eid rows with
        | Some r =>
            if (aud_curr_hash r =? EmptyString)%string then None
            else Some (aud_curr_hash r)
        | None => None
        end
    | None => None
    end
  else None.

Definition new_audit_row (rows : list AuditRow) (now action user_id : string)
    (payload : list (string * json)) (entry_id : option Z) : AuditRow :=
  let payload := dict_set "timestamp" (JStr now) payload in
  mkAuditRow (next_id (map aud_id rows)) entry_id action user_id
             (json_dumps (JDict payload)) (audit_prev entry_id rows)
             (payload_hash (JDict payload)).

(* ================================================================== *)
(** ** Quantities used to state what a posting does *)

(** The counter value [_next_protocol] hands out. *)
Definition next_counter (year series : string) (rows : list CounterRow) : Z :=
  match find_counter year series rows with
  | Some r => ctr_counter r + 1
  | None => 1
  end.

(** The series as the specification words it: the caller-supplied
    series, else [entry.protocol_series], else "GEN" (an absent or empty
    string does not count), in upper case. *)
Definition spec_series (caller_series : option string) (entry : EntryDTO) : string :=
  str_upper
    (match caller_series with
     | Some (String a s) => String a s
     | _ =>
         match protocol_series entry with
         | Some (String a s) => String a s
         | _ => "GEN"
         end
     end).

(** Two entries with the same business content (the fields that
    [entry_content] reads); [period], [protocol_series], [idempotence_key]
    and [correlation_id] may differ. *)
Definition same_content (e1 e2 : EntryDTO) : Prop :=
  date e1 = date e2 /\ descrizione e1 = descrizione e2 /\ lines e1 = lines e2 /\
  documento e1 = documento e2 /\ document_date e1 = document_date e2 /\
  cliente_fornitore e1 = cliente_fornitore e2 /\ reversal_of e1 = reversal_of e2 /\
  client_reference_id e1 = client_reference_id e2 /\
  taxable_amount e1 = taxable_amount e2 /\ vat_rate e1 = vat_rate e2 /\
  vat_amount e1 = vat_amount e2.

(** The six rules of [validate], in order, and how many report an error. *)
Definition rule_outcomes (entry : EntryDTO) (accounts : AccountRepo)
    (periods : PeriodRepo) (entries : EntryRepo) : list (Res (list LedgerError)) :=
  [ validate_balanced entry;
    validate_no_negative entry;
    validate_accounts_exist entry accounts;
    validate_period_open entry periods;
    validate_not_already_reversed entry entries;
    validate_vat_consistency entry ].

Definition rule_violated (r : Res (list LedgerError)) : bool :=
  match r with
  | Ok (_ :: _) => true
  | _ => false
  end.

Definition violated_rules (entry : EntryDTO) (accounts : AccountRepo)
    (periods : PeriodRepo) (entries : EntryRepo) : nat :=
  List.length (filter rule_violated (rule_outcomes entry accounts periods entries)).

(* ================================================================== *)
(** ** Sample data (the scenarios of the test-suite) *)

(** [Decimal] with two decimals, from an amount in cents. *)
Definition dec2 (cents_value : Z) : Decimal :=
  DFin (cents_value <? 0) (Z.abs_N cents_value) (-2).

Definition sample_db : DB :=
  mkDB [mkAccountRow "1410" "ASSET"; mkAccountRow "4100" "REVENUE";
        mkAccountRow "2321" "LIABILITY"]
       [mkPeriodRow "2025" None "2025-01-01" "2025-12-31" "open"]
       [] [] [] [] [] [].

Definition sample_now : string := "2025-01-15T10:00:00+00:00".
Definition sample_later : string := "2025-01-15T10:00:07+00:00".

(** Sales invoice: 1410 Dr 122.00, 4100 Cr 100.00, 2321 Cr 22.00. *)
Definition sales_invoice : EntryDTO :=
  mkEntryDTO "2025-01-15" "Fattura vendita"
    [mkLineDTO "1410" (dec2 12200) dec_zero None;
     mkLineDTO "4100" dec_zero (dec2 10000) None;
     mkLineDTO "2321" dec_zero (dec2 2200) None]
    (Some "FA-100") (Some "2025-01-15") (Some "CLI-001") None None
    (Some (dec2 10000)) (Some (dec2 22)) (Some (dec2 2200))
    None None None None.


(** The same invoice carrying its own protocol series. *)
Definition sales_invoice_adj : EntryDTO :=
  mkEntryDTO "2025-01-15" "Fattura vendita"
    (lines sales_invoice)
    (Some "FA-100") (Some "2025-01-15") (Some "CLI-001") None None
    (Some (dec2 10000)) (Some (dec2 22)) (Some (dec2 2200))
    None (Some "adj") None None.

(** An entry whose first line carries [Decimal("NaN")]. *)
Definition nan_entry : EntryDTO :=
  mkEntryDTO "2025-01-15" "Importo non numerico"
    [mkLineDTO "1410" DNaN dec_zero None;
     mkLineDTO "4100" dec_zero (dec2 10000) None]
    None None None None None None None None None None None None.

(** An entry that breaks four rules: unbalanced, unknown account, date in
    the wrong format, VAT amount off. *)
Definition broken_entry : EntryDTO :=
  mkEntryDTO "15-04-2025" "Errata"
    [mkLineDTO "ZZZ" (dec2 10000) dec_zero None;
     mkLineDTO "4100" dec_zero (dec2 9000) None]
    None None None None None
    (Some (dec2 10000)) (Some (dec2 22)) (Some (dec2 2100))
    None None None None.

(** A database whose year 2024 has been finalized. *)
Definition finalized_db : DB :=
  set_periods sample_db
    [mkPeriodRow "2024" None "2024-01-01" "2024-12-31" "finalized";
     mkPeriodRow "2025" None "2025-01-01" "2025-12-31" "open"].

Definition entry_2024 : EntryDTO :=
  mkEntryDTO "2024-06-15" "Scrittura tardiva"
    [mkLineDTO "1410" (dec2 5000) dec_zero None;
     mkLineDTO "4100" dec_zero (dec2 5000) None]
    None None None None None None None None None None None None.

(** A database where March 2025 is still open and January is closed. *)
Definition months_db : DB :=
  set_periods sample_db
    [mkPeriodRow "2025" None "2025-01-01" "2025-12-31" "closed";
     mkPeriodRow "2025" (Some "01") "2025-01-01" "2025-01-31" "closed";
     mkPeriodRow "2025" (Some "03") "2025-03-01" "2025-03-31" "open"].

(** The environment in which only the INSERT INTO idempotence fails. *)
Definition idempotence_insert_fails : Env :=
  mkEnv (fun _ => None)
        (fun s => match s with
                  | SInsertIdempotence =>
                      Some (mkExn "OperationalError" "database or disk is full")
                  | _ => None
                  end).

(** The connection after the sales invoice was posted with key IDEM-1. *)
Definition conn_after_invoice : Conn :=
  fst (post_db no_faults sample_now sales_invoice "tester" (Some "gen") (Some "IDEM-1")
         (fresh_conn sample_db)).

(** The same connection once a closed period covers January 2025. *)
Definition conn_january_closed : Conn :=
  mkConn (set_periods (db conn_after_invoice)
            (mkPeriodRow "2025" (Some "01") "2025-01-01" "2025-01-31" "closed"
             :: tbl_periods (db conn_after_invoice)))
         None (tx_log conn_after_invoice).

(** Three audit calls: two for entry 1, one for entry 2. *)
Definition sample_calls : list AuditCall :=
  [ mkAuditCall sample_now "POST" "tester" [("test", JStr "value")] (Some 1);
    mkAuditCall sample_later "POST" "tester" [("test", JInt 2)] (Some 2);
    mkAuditCall sample_later "AMEND" "auditor"
      [("note", JStr "ok"); ("timestamp", JNull)] (Some 1) ].

(** Two audit calls for the entry id 0. *)
Definition zero_calls : list AuditCall :=
  [ mkAuditCall sample_now "POST" "tester" [("test", JStr "value")] (Some 0);
    mkAuditCall sample_later "AMEND" "tester" [("test", JStr "value")] (Some 0) ].

(* ================================================================== *)
(** ** More sample data *)

(** The environment in which only the INSERT of the second line fails. *)
Definition line_insert_fails : Env :=
  mkEnv (fun _ => None)
        (fun s => match s with
                  | SInsertLine 1 => Some (mkExn "OperationalError" "disk I/O error")
                  | _ => None
                  end).

(** The environment in which the first two BEGIN IMMEDIATE find the
    database locked. *)
Definition busy_twice : Env :=
  mkEnv (fun attempt =>
           if (attempt <? 2)%nat
           then Some (mkExn "OperationalError" "database is locked")
           else None)
        (fun _ => None).

(** A database whose year 2025 is closed. *)
Definition closed_year_db : DB :=
  set_periods sample_db
    [mkPeriodRow "2025" None "2025-01-01" "2025-12-31" "closed"].

(** An entry dated on a day that does not exist. *)
Definition entry_day_32 : EntryDTO :=
  mkEntryDTO "2025-12-32" "Scrittura fuori calendario"
    [mkLineDTO "1410" (dec2 5000) dec_zero None;
     mkLineDTO "4100" dec_zero (dec2 5000) None]
    None None None None None None None None None None None None.

(** The reversal of entry 1, and a second one. *)
Definition reversal_of_1 : EntryDTO :=
  mkEntryDTO "2025-01-20" "Storno"
    [mkLineDTO "1410" dec_zero (dec2 12200) None;
     mkLineDTO "4100" (dec2 10000) dec_zero None;
     mkLineDTO "2321" (dec2 2200) dec_zero None]
    (Some "FA-100") (Some "2025-01-15") (Some "CLI-001") (Some 1) None
    None None None None None None None.

Definition reversal_of_1_again : EntryDTO :=
  mkEntryDTO "2025-01-21" "Storno bis"
    (lines reversal_of_1)
    None None None (Some 1) None None None None None None None None.

(* ================================================================== *)
(** ** Protocol numbers *)

(** What identifies a protocol: year, series and number. *)
Definition protocol_key (e : EntryRow) : string * string * Z :=
  (ent_year e, ent_protocol_series e, ent_protocol_no e).

(** No two entries share a protocol, and the counter of a (year, series)
    is not below the numbers handed out in it. *)
Definition protocol_inv (d : DB) : Prop :=
  NoDup (map protocol_key (tbl_entries d)) /\
  forall e, In e (tbl_entries d) ->
    exists crow,
      find_counter (ent_year e) (ent_protocol_series e) (tbl_protocol_counters d)
      = Some crow /\
      ent_protocol_no e <= ctr_counter crow.

(** A database where every month of 2025 on file is closed. *)
Definition months_closed_db : DB :=
  set_periods sample_db
    [mkPeriodRow "2025" None "2025-01-01" "2025-12-31" "closed";
     mkPeriodRow "2025" (Some "01") "2025-01-01" "2025-01-31" "closed";
     mkPeriodRow "2024" (Some "12") "2024-12-01" "2024-12-31" "open"].

(* ================================================================== *)
(** ** Amounts *)

(** An amount that, rounded to cents, stays below 10^18 cents (the range
    of an SQLite INTEGER is a little over 9 * 10^18). *)
Definition small_amount (d : Decimal) : Prop :=
  forall s c e, q2 (Some d) = Ok (DFin s c e) -> Z.of_N c < 10 ^ 18.

(** [SUM(column)] over rows. *)
Definition sumZ (l : list Z) : Z := fold_right Z.add 0 l.

(* ================================================================== *)
(** ** kernel/poster_adapter.py and kernel/accounting_kernel.py *)

(** [PosterAdapter.post_entry(entry, user_id, protocol_series="GEN",
    idempotence_key=None)]: the engine is called with the DB-backed
    repositories inside a [try]; an exception becomes a DB_ERROR failure
    whose message is [str(ex)].  [entry] is an [EntryDTO] by its type (the
    [isinstance] test passes) and the calls to the logger are left out.
    [LedgerService.post_entry] passes its arguments on to this method. *)
Definition post_entry (env : Env) (now : string) (entry : EntryDTO) (user_id : string)
    (protocol_series : string) (idempotence_key : option string) : M EntryResult :=
  fun c =>
    match post_db env now entry user_id (Some protocol_series) idempotence_key c with
    | (c', Ok result) => (c', Ok result)
    | (c', Raise ex) =>
        (c', Ok (failure_result [mkLedgerError DB_ERROR (exn_text ex)] [exn_text ex]))
    end.

(** [AccountingKernel.process_entry]: validate, then post. *)
Definition process_entry (env : Env) (now : string) (entry : EntryDTO) (user_id : string)
    (protocol_series : string) (idempotence_key : option string) : M EntryResult :=
  fun c =>
    match validate entry (AccountsRepoDB env c) (PeriodsRepoDB env c)
                   (EntriesRepoDB env c) with
    | Raise e => (c, Raise e)
    | Ok (err :: errs) =>
        (c, Ok (failure_result (err :: errs) (map message (err :: errs))))
    | Ok [] => post_db env now entry user_id (Some protocol_series) idempotence_key c
    end.

(** The invoice of the samples with every field the engine does not read
    set. *)
Definition sales_invoice_tagged : EntryDTO :=
  mkEntryDTO "2025-01-15" "Fattura vendita"
    (lines sales_invoice)
    (Some "FA-100") (Some "2025-01-15") (Some "CLI-001") None None
    (Some (dec2 10000)) (Some (dec2 22)) (Some (dec2 2200))
    (Some "2025-01") (Some "adj") (Some "IDEM-7") (Some "corr-1").

(* ================================================================== *)
(** ** services/ledger_service.py: the builders and their postings *)

(** [AccountMap], with the defaults of [AccountCodes]
    (services/constants.py). *)
Record AccountMap : Type := mkAccountMap {
  crediti_clienti : string;
  iva_a_credito : string;
  banca_cc : string;
  cassa : string;
  debiti_fornitori : string;
  iva_a_debito : string;
  vendite_prestazioni : string;
  costi_servizi : string;
  oneri_finanziari : string
}.

Definition default_account_map : AccountMap :=
  mkAccountMap "1410" "1411" "1432" "1431" "2310" "2321" "4100" "3200" "3500".

(** [a or b] where [b] is a string. *)
Definition str_or (a : option string) (b : string) : string :=
  match or_str a (Some b) with
  | Some s => s
  | None => b
  end.

(** [_default_idempotence_key]: [f"{prefix}:{date}:{doc_no or ''}:{descrizione}"] *)
Definition _default_idempotence_key (prefix date : string) (doc_no : option string)
    (descrizione : string) : string :=
  prefix ++ ":" ++ date ++ ":" ++ str_or doc_no EmptyString ++ ":" ++ descrizione.

(** [LineDTO(account_id=a, dare=x)] and [LineDTO(account_id=a, avere=x)]:
    the other amount is the default [Decimal("0")]. *)
Definition line_dare (a : string) (x : Decimal) : LineDTO := mkLineDTO a x dec_zero None.
Definition line_avere (a : string) (x : Decimal) : LineDTO := mkLineDTO a dec_zero x None.

Definition build_sales_invoice (acc : AccountMap) (date customer_name_or_code : string)
    (doc_no doc_date : option string) (descrizione : string)
    (net_amount vat_rate : Decimal) : Res EntryDTO :=
  (net <- q2 (Some net_amount) ;;
   rate <- q2 (Some vat_rate) ;;
   prod <- dec_mul net rate ;;
   vat <- q2 (Some prod) ;;
   sum <- dec_add net vat ;;
   total <- q2 (Some sum) ;;
   Ok (mkEntryDTO date descrizione
         [line_dare (crediti_clienti acc) total;
          line_avere (vendite_prestazioni acc) net;
          line_avere (iva_a_debito acc) vat]
         doc_no doc_date (Some customer_name_or_code) None None
         (Some net) (Some rate) (Some vat) None None None None))%res.

Definition build_purchase_invoice (acc : AccountMap) (date supplier_name_or_code : string)
    (doc_no doc_date : option string) (descrizione : string)
    (net_amount vat_rate : Decimal) (expense_account_code : option string)
  : Res EntryDTO :=
  (net <- q2 (Some net_amount) ;;
   rate <- q2 (Some vat_rate) ;;
   prod <- dec_mul net rate ;;
   vat <- q2 (Some prod) ;;
   sum <- dec_add net vat ;;
   total <- q2 (Some sum) ;;
   let expense_acc := str_or expense_account_code (costi_servizi acc) in
   Ok (mkEntryDTO date descrizione
         [line_dare expense_acc net;
          line_dare (iva_a_credito acc) vat;
          line_avere (debiti_fornitori acc) total]
         doc_no doc_date (Some supplier_name_or_code) None None
         (Some net) (Some rate) (Some vat) None None None None))%res.

Definition build_cash_receipt (acc : AccountMap) (date customer_name_or_code : string)
    (descrizione : string) (amount : Decimal) (bank_account_code : option string)
  : Res EntryDTO :=
  (amt <- q2 (Some amount) ;;
   let bank_acc := str_or bank_account_code (banca_cc acc) in
   Ok (mkEntryDTO date descrizione
         [line_dare bank_acc amt;
          line_avere (crediti_clienti acc) amt]
         None None (Some customer_name_or_code) None None
         None None None None None None None))%res.

Definition build_cash_payment (acc : AccountMap) (date supplier_name_or_code : string)
    (descrizione : string) (amount : Decimal) (bank_account_code : option string)
  : Res EntryDTO :=
  (amt <- q2 (Some amount) ;;
   let bank_acc := str_or bank_account_code (banca_cc acc) in
   Ok (mkEntryDTO date descrizione
         [line_dare (debiti_fornitori acc) amt;
          line_avere bank_acc amt]
         None None (Some supplier_name_or_code) None None
         None None None None None None None))%res.

Definition build_bank_fee (acc : AccountMap) (date descrizione : string)
    (fee_amount : Decimal) (bank_account_code : option string) : Res EntryDTO :=
  (fee <- q2 (Some fee_amount) ;;
   let bank_acc := str_or bank_account_code (banca_cc acc) in
   Ok (mkEntryDTO date descrizione
         [line_dare (oneri_finanziari acc) fee;
          line_avere bank_acc fee]
         None None None None None
         None None None None None None None))%res.

(** The [post_*] methods: build the entry (outside any [try]), take the
    caller's idempotence key or the default one, post through the adapter. *)
Definition post_built (env : Env) (now : string) (built : Res EntryDTO) (user_id : string)
    (protocol_series : string) (idempotence_key : option string) (default_key : string)
  : M EntryResult :=
  fun c =>
    match built with
    | Raise e => (c, Raise e)
    | Ok entry =>
        let idem := str_or idempotence_key default_key in
        post_entry env now entry user_id protocol_series (Some idem) c
    end.

Definition post_sales_invoice (env : Env) (now : string) (acc : AccountMap)
    (date customer_name_or_code : string) (doc_no doc_date : option string)
    (descrizione : string) (net_amount vat_rate : Decimal) (user_id : string)
    (protocol_series : string) (idempotence_key : option string) : M EntryResult :=
  post_built env now
    (build_sales_invoice acc date customer_name_or_code doc_no doc_date descrizione
       net_amount vat_rate)
    user_id protocol_series idempotence_key
    (_default_idempotence_key "SALES" date doc_no descrizione).

Definition post_purchase_invoice (env : Env) (now : string) (acc : AccountMap)
    (date supplier_name_or_code : string) (doc_no doc_date : option string)
    (descrizione : string) (net_amount vat_rate : Decimal) (user_id : string)
    (expense_account_code : option string)
    (protocol_series : string) (idempotence_key : option string) : M EntryResult :=
  post_built env now
    (build_purchase_invoice acc date supplier_name_or_code doc_no doc_date descrizione
       net_amount vat_rate expense_account_code)
    user_id protocol_series idempotence_key
    (_default_idempotence_key "PURCHASE" date doc_no descrizione).

Definition post_cash_receipt (env : Env) (now : string) (acc : AccountMap)
    (date customer_name_or_code descrizione : string) (amount : Decimal)
    (user_id : string) (bank_account_code : option string)
    (protocol_series : string) (idempotence_key : option string) : M EntryResult :=
  post_built env now
    (build_cash_receipt acc date customer_name_or_code descrizione amount
       bank_account_code)
    user_id protocol_series idempotence_key
    (_default_idempotence_key "RECEIPT" date None descrizione).

Definition post_cash_payment (env : Env) (now : string) (acc : AccountMap)
    (date supplier_name_or_code descrizione : string) (amount : Decimal)
    (user_id : string) (bank_account_code : option string)
    (protocol_series : string) (idempotence_key : option string) : M EntryResult :=
  post_built env now
    (build_cash_payment acc date supplier_name_or_code descrizione amount
       bank_account_code)
    user_id protocol_series idempotence_key
    (_default_idempotence_key "PAYMENT" date None descrizione).

Definition post_bank_fee (env : Env) (now : string) (acc : AccountMap)
    (date descrizione : string) (fee_amount : Decimal)
    (user_id : string) (bank_account_code : option string)
    (protocol_series : string) (idempotence_key : option string) : M EntryResult :=
  post_built env now
    (build_bank_fee acc date descrizione fee_amount bank_account_code)
    user_id protocol_series idempotence_key
    (_default_idempotence_key "BANKFEE" date None descrizione).

(** The accounts of the default map, and the year 2025 open. *)
Definition service_db : DB :=
  mkDB [mkAccountRow "1410" "ASSET"; mkAccountRow "1411" "ASSET";
        mkAccountRow "1432" "ASSET"; mkAccountRow "1431" "ASSET";
        mkAccountRow "2310" "LIABILITY"; mkAccountRow "2321" "LIABILITY";
        mkAccountRow "4100" "REVENUE"; mkAccountRow "3200" "EXPENSE";
        mkAccountRow "3500" "EXPENSE"]
       [mkPeriodRow "2025" None "2025-01-01" "2025-12-31" "open"]
       [] [] [] [] [] [].

(** The errors of the accounts rule and of the period rule, as [validate]
    lists them. *)
Definition accounts_and_period_errors (entry : EntryDTO) (accounts : AccountRepo)
    (periods : PeriodRepo) : Res (list LedgerError) :=
  (e3 <- validate_accounts_exist entry accounts ;;
   e4 <- validate_period_open entry periods ;;
   Ok (e3 ++ e4)%list)%res.

(* ================================================================== *)
(** ** decimal.Decimal: division, subtraction, negation *)

Definition DivisionByZero : PyExn :=
  mkExn "DivisionByZero" "[<class 'decimal.DivisionByZero'>]".

(** [Etiny()] of the default context: [Emin - prec + 1]. *)
Definition Etiny : Z := -999999 - prec + 1.

(** [copy_negate] *)
Definition dec_copy_negate (d : Decimal) : Decimal :=
  match d with
  | DFin s c e => DFin (negb s) c e
  | DInf s => DInf (negb s)
  | DNaN => DNaN
  end.

(** [-d]: minus zero is zero. *)
Definition dec_neg (d : Decimal) : Decimal :=
  match d with
  | DFin s c e => if (c =? 0)%N then DFin false 0 e else dec_fix (negb s) (Z.of_N c) e
  | DInf s => DInf (negb s)
  | DNaN => DNaN
  end.

(** [a - b] is [a + b.copy_negate()]. *)
Definition dec_sub (a b : Decimal) : Res Decimal := dec_add a (dec_copy_negate b).

(** [a >= b]: ordering a NaN raises InvalidOperation. *)
Definition dec_ge (a b : Decimal) : Res bool :=
  match dec_compare a b with
  | None => Raise InvalidOperation
  | Some Lt => Ok false
  | Some _ => Ok true
  end.

(** The loop of an exact division:
    [while exp < ideal_exp and coeff % 10 == 0: coeff //= 10; exp += 1],
    with [n = ideal_exp - exp]. *)
Fixpoint strip_zeros (n : nat) (coeff exp : Z) : Z * Z :=
  match n with
  | O => (coeff, exp)
  | S n' =>
      if coeff mod 10 =? 0 then strip_zeros n' (coeff / 10) (exp + 1)
      else (coeff, exp)
  end.

(** [a / b] in the default context. *)
Definition dec_div (a b : Decimal) : Res Decimal :=
  match a, b with
  | DNaN, _ | _, DNaN => Ok DNaN
  | DInf _, DInf _ => Raise InvalidOperation
  | DInf s1, DFin s2 _ _ => Ok (DInf (xorb s1 s2))
  | DFin s1 _ _, DInf s2 => Ok (DFin (xorb s1 s2) 0 Etiny)
  | DFin s1 c1 e1, DFin s2 c2 e2 =>
      let sign := xorb s1 s2 in
      if (c2 =? 0)%N then
        if (c1 =? 0)%N then Raise InvalidOperation else Raise DivisionByZero
      else if (c1 =? 0)%N then Ok (DFin sign 0 (e1 - e2))
      else
        let shift := ndigits c2 - ndigits c1 + prec + 1 in
        let exp := e1 - e2 - shift in
        let num := if shift >=? 0 then Z.of_N c1 * 10 ^ shift else Z.of_N c1 in
        let den := if shift >=? 0 then Z.of_N c2 else Z.of_N c2 * 10 ^ (- shift) in
        let coeff := num / den in
        let remainder := num mod den in
        if negb (remainder =? 0) then
          Ok (dec_fix sign (if coeff mod 5 =? 0 then coeff + 1 else coeff) exp)
        else
          let ideal_exp := e1 - e2 in
          let stripped := strip_zeros (Z.to_nat (ideal_exp - exp)) coeff exp in
          Ok (dec_fix sign (fst stripped) (snd stripped))
  end.

(* ================================================================== *)
(** ** The statements of the services *)

Inductive ServiceStmt : Type :=
| SGetEntryLines
| SBuildReversalEntry
| SBuildReversalLines
| SGetPeriod
| SClosePeriodUpdate
| STrialBalance.

(** One row of the query of [_trial_balance]. *)
Record TrialRow : Type := mkTrialRow {
  tr_account_code : string;
  tr_statement_type : string;
  tr_dare_cents : Z;
  tr_avere_cents : Z
}.

(** The environment of the services: the one of the engine, whether a
    statement of a service fails, and the rows SQLite answers to the query
    of [_trial_balance] for a database and two dates (SQL leaves the order
    of the groups open, and the schema decides whether a code can repeat). *)
Record ServiceEnv : Type := mkServiceEnv {
  engine_env : Env;
  service_fault : ServiceStmt -> option PyExn;
  trial_balance_rows : DB -> string -> string -> list TrialRow
}.

Definition service_no_faults (rows : DB -> string -> string -> list TrialRow)
  : ServiceEnv :=
  mkServiceEnv no_faults (fun _ => None) rows.

(** [cur.execute(...)] of a service, inside or outside a transaction. *)
Definition exec_at {A : Type} (fault : option PyExn) (f : DB -> Res (DB * A)) : M A :=
  fun c =>
    match fault with
    | Some e => (c, Raise e)
    | None =>
        match f (db c) with
        | Ok (d', a) => (mkConn d' (saved c) (tx_log c), Ok a)
        | Raise e => (c, Raise e)
        end
    end.

(* ================================================================== *)
(** ** services/ledger_query_repo.py: [get_entry_lines] *)

(** The [LineDTO] built from a stored row: the dataclass does not check its
    fields, and an amount of zero cents is read back as [None]. *)
Record LineSnapshot : Type := mkLineSnapshot {
  snap_account_id : string;
  snap_dare : option Decimal;
  snap_avere : option Decimal
}.

(** [(Decimal(cents) / 100) if cents else None] *)
Definition amount_of_cents (cents_value : Z) : Res (option Decimal) :=
  if cents_value =? 0 then Ok None
  else (q <- dec_div (dec_of_int cents_value) (dec_of_int 100) ;; Ok (Some q))%res.

Definition line_snapshot (row : LineRow) : Res LineSnapshot :=
  (d <- amount_of_cents (ln_dare_cents row) ;;
   a <- amount_of_cents (ln_avere_cents row) ;;
   Ok (mkLineSnapshot (ln_account_code row) d a))%res.

(** [get_entry_lines(entry_id)]: the rows of the entry, in table order. *)
Definition get_entry_lines (senv : ServiceEnv) (entry_id : Z) (c : Conn)
  : Res (list LineSnapshot) :=
  match service_fault senv SGetEntryLines with
  | Some e => Raise e
  | None =>
      mapR line_snapshot
        (filter (fun row => ln_entry_id row =? entry_id) (tbl_entry_lines (db c)))
  end.

(** What reading an amount back means: [None] where the amount posted
    rounds to zero cents, else a [Decimal] equal ([==]) to the amount posted
    rounded to cents. *)
Definition read_back (posted : Decimal) (stored : option Decimal) : Prop :=
  exists q : Decimal,
    q2 (Some posted) = Ok q /\
    match stored with
    | None => dec_eq q dec_zero = true
    | Some x => dec_eq x q = true /\ dec_eq q dec_zero = false
    end.

(** Every line row belongs to an entry row (the foreign key of
    [entry_lines]). *)
Definition lines_have_entries (d : DB) : Prop :=
  forall row, In row (tbl_entry_lines d) ->
              exists e, In e (tbl_entries d) /\ ent_id e = ln_entry_id row.

(* ================================================================== *)
(** ** services/closures_service.py: [close_period] *)

Record AccrualItem : Type := mkAccrualItem {
  accrual_descrizione : string;
  accrual_date_ : string;
  accrual_expense_account : string;
  accrual_payable_account : string;
  accrual_amount : Decimal
}.

Record DeferralItem : Type := mkDeferralItem {
  deferral_descrizione : string;
  deferral_date_ : string;
  deferral_prepaid_account : string;
  deferral_expense_account : string;
  deferral_amount : Decimal
}.

Record AmortizationItem : Type := mkAmortizationItem {
  amortization_descrizione : string;
  amortization_date_ : string;
  amortization_asset_account : string;
  amortization_expense_account : string;
  amortization_amount : Decimal
}.

(** An entry built from a date, a description and lines only. *)
Definition plain_entry (date0 descrizione0 : string) (ls : list LineDTO) : EntryDTO :=
  mkEntryDTO date0 descrizione0 ls
    None None None None None None None None None None None None.

(** The entries of [_post_accrual], [_post_deferral], [_post_amortization]. *)
Definition accrual_entry (item : AccrualItem) : EntryDTO :=
  plain_entry (accrual_date_ item) (accrual_descrizione item)
    [line_dare (accrual_expense_account item) (accrual_amount item);
     line_avere (accrual_payable_account item) (accrual_amount item)].

Definition deferral_entry (item : DeferralItem) : EntryDTO :=
  plain_entry (deferral_date_ item) (deferral_descrizione item)
    [line_dare (deferral_prepaid_account item) (deferral_amount item);
     line_avere (deferral_expense_account item) (deferral_amount item)].

Definition amortization_entry (item : AmortizationItem) : EntryDTO :=
  plain_entry (amortization_date_ item) (amortization_descrizione item)
    [line_dare (amortization_expense_account item) (amortization_amount item);
     line_avere (amortization_asset_account item) (amortization_amount item)].

(** One value of the dictionary [_trial_balance] returns. *)
Record Balance : Type := mkBalance {
  bal_statement_type : string;
  bal_side : string;
  bal_amount : Decimal
}.

(** The body of the loop of [_trial_balance] for one row. *)
Definition balance_of_row (r : TrialRow) : Res Balance :=
  (dare0 <- dec_div (dec_of_int (tr_dare_cents r)) (dec_of_int 100) ;;
   avere0 <- dec_div (dec_of_int (tr_avere_cents r)) (dec_of_int 100) ;;
   let st := tr_statement_type r in
   if ((st =? "ASSET") || (st =? "EXPENSE"))%string then
     net <- dec_sub dare0 avere0 ;;
     pos <- dec_ge net dec_zero ;;
     if pos : bool then Ok (mkBalance st "DEBIT" net)
     else Ok (mkBalance st "CREDIT" (dec_neg net))
   else
     net <- dec_sub avere0 dare0 ;;
     pos <- dec_ge net dec_zero ;;
     if pos : bool then Ok (mkBalance st "CREDIT" net)
     else Ok (mkBalance st "DEBIT" (dec_neg net)))%res.

(** [_trial_balance(start_date, end_date)]: the items of the dictionary. *)
Definition _trial_balance (senv : ServiceEnv) (start_date end_date : string) (c : Conn)
  : Res (list (string * Balance)) :=
  match service_fault senv STrialBalance with
  | Some e => Raise e
  | None =>
      foldR (fun result r =>
               bal <- balance_of_row r ;;
               Ok (dict_set (tr_account_code r) bal result))%res
            (trial_balance_rows senv (db c) start_date end_date) []
  end.

(** The state of the loop of [_post_income_closing_entry]. *)
Record ClosingState : Type := mkClosingState {
  cl_lines : list LineDTO;
  debit_total : Decimal;
  credit_total : Decimal
}.

Definition closing_step (st0 : ClosingState) (item : string * Balance) : Res ClosingState :=
  let acc := fst item in
  let bal := snd item in
  let st := bal_statement_type bal in
  if negb ((st =? "REVENUE") || (st =? "EXPENSE"))%string then Ok st0
  else if dec_eq (bal_amount bal) dec_zero then Ok st0
  else
    let to_dare :=
      (d <- dec_add (debit_total st0) (bal_amount bal) ;;
       Ok (mkClosingState (cl_lines st0 ++ [line_dare acc (bal_amount bal)])
                          d (credit_total st0)))%res in
    let to_avere :=
      (k <- dec_add (credit_total st0) (bal_amount bal) ;;
       Ok (mkClosingState (cl_lines st0 ++ [line_avere acc (bal_amount bal)])
                          (debit_total st0) k))%res in
    if (st =? "REVENUE")%string then
      if (bal_side bal =? "CREDIT")%string then to_dare else to_avere
    else
      if (bal_side bal =? "DEBIT")%string then to_avere else to_dare.

(** The lines of the closing entry: the income accounts brought to zero and
    the difference on the equity account. *)
Definition closing_lines (equity_account : string) (balances : list (string * Balance))
  : Res (list LineDTO) :=
  (st <- foldR closing_step balances (mkClosingState [] dec_zero dec_zero) ;;
   loss <- dec_gt (debit_total st) (credit_total st) ;;
   if loss : bool then
     diff <- dec_sub (debit_total st) (credit_total st) ;;
     _ <- dec_add (credit_total st) diff ;;
     Ok (cl_lines st ++ [line_avere equity_account diff])%list
   else
     profit <- dec_gt (credit_total st) (debit_total st) ;;
     if profit : bool then
       diff <- dec_sub (credit_total st) (debit_total st) ;;
       _ <- dec_add (debit_total st) diff ;;
       Ok (cl_lines st ++ [line_dare equity_account diff])%list
     else Ok (cl_lines st))%res.

(** [_post_income_closing_entry(period, user_id, descrizione)] *)
Definition _post_income_closing_entry (senv : ServiceEnv) (now : string)
    (equity_account : string) (period0 : PeriodRow) (user_id descrizione0 : string)
  : M EntryResult :=
  fun c =>
    match (balances <- _trial_balance senv (per_start_date period0)
                         (per_end_date period0) c ;;
           closing_lines equity_account balances)%res with
    | Raise e => (c, Raise e)
    | Ok [] => (c, Ok (mkEntryResult true None None [] []))
    | Ok (l :: ls) =>
        post_db (engine_env senv) now
          (plain_entry (per_end_date period0) descrizione0 (l :: ls))
          user_id (Some "CLOSE") None c
    end.

(** The postings of the adjustments, one after the other; the results are
    dropped, an exception ends the loop.  The [k]-th posting reads the clock
    [clock k]. *)
Fixpoint post_adjustments (senv : ServiceEnv) (clock : nat -> string) (k : nat)
    (entries : list EntryDTO) (user_id : string) : M unit :=
  match entries with
  | [] => retM tt
  | e :: rest =>
      (_ <- post_db (engine_env senv) (clock k) e user_id (Some "ADJ") None ;;
       post_adjustments senv clock (S k) rest user_id)%M
  end.

(** [year=? AND (month IS ? OR month=?)] *)
Definition period_matches (year : string) (month : option string) (p : PeriodRow) : bool :=
  (per_year p =? year)%string && opt_str_eqb (per_month p) month.

(** [_get_period(year, month)]: the first matching row. *)
Definition _get_period (senv : ServiceEnv) (year : string) (month : option string)
  : M (option PeriodRow) :=
  exec_at (service_fault senv SGetPeriod)
    (fun d => Ok (d, find (period_matches year month) (tbl_periods d))).

Definition close_matching (year : string) (month : option string) (p : PeriodRow)
  : PeriodRow :=
  if period_matches year month p
  then mkPeriodRow (per_year p) (per_month p) (per_start_date p) (per_end_date p) "closed"
  else p.

(** [close_period(year, month, user_id, descrizione=..., accruals=...,
    deferrals=..., amortizations=...)]; [equity_account] is the account
    given to the constructor, [clock] the readings of the clock by the
    postings and, last, by the audit. *)
Definition close_period (senv : ServiceEnv) (clock : nat -> string)
    (equity_account : string) (year : string) (month : option string)
    (user_id descrizione0 : string)
    (accruals : list AccrualItem) (deferrals : list DeferralItem)
    (amortizations : list AmortizationItem) : M EntryResult :=
  (period0 <- _get_period senv year month ;;
   let label := "Periodo " ++ year ++ "-" ++ str_or month EmptyString in
   match period0 with
   | None =>
       retM (failure_result [mkLedgerError NOT_FOUND (label ++ " non esiste")]
                            [label ++ " non esiste"])
   | Some p =>
       if (per_status p =? "closed")%string then
         retM (failure_result [mkLedgerError PERIOD_CLOSED (label ++ " già chiuso")]
                              [label ++ " già chiuso"])
       else if (per_status p =? "finalized")%string then
         retM (failure_result [mkLedgerError PERIOD_CLOSED (label ++ " già finalizzato")]
                              [label ++ " già finalizzato"])
       else
         let adjustments :=
           (map accrual_entry accruals ++ map deferral_entry deferrals ++
            map amortization_entry amortizations)%list in
         _ <- transaction (engine_env senv)
                (exec_at (service_fault senv SClosePeriodUpdate)
                   (fun d => Ok (set_periods d
                                   (map (close_matching year month) (tbl_periods d)),
                                 tt))) ;;
         _ <- post_adjustments senv clock 0 adjustments user_id ;;
         closing_result <-
           _post_income_closing_entry senv (clock (List.length adjustments))
             equity_account p user_id descrizione0 ;;
         _ <- log_action (engine_env senv) (clock (S (List.length adjustments)))
                "CLOSE_PERIOD" user_id
                [("year", JStr year); ("month", json_opt_str month);
                 ("descrizione", JStr descrizione0);
                 ("period_start", JStr (per_start_date p));
                 ("period_end", JStr (per_end_date p))]
                (if success closing_result then entry_id closing_result else None) ;;
         retM closing_result
   end)%M.

(** A date that SQLite's [date()] accepts and that lies between the start
    and the end of the period. *)
Definition dated_within (p : PeriodRow) (iso_date : string) : Prop :=
  exists x, sqlite_date iso_date = Some x /\
            text_between x (per_start_date p) (per_end_date p) = true.

(** A database with income to close in December 2025. *)
Definition december_db : DB :=
  mkDB [mkAccountRow "1410" "ASSET"; mkAccountRow "4100" "REVENUE";
        mkAccountRow "3200" "EXPENSE"; mkAccountRow "2310" "LIABILITY";
        mkAccountRow "9999" "EQUITY"]
       [mkPeriodRow "2025" None "2025-01-01" "2025-12-31" "open";
        mkPeriodRow "2025" (Some "12") "2025-12-01" "2025-12-31" "open"]
       [mkEntryRow 1 "2025-12-10" "2025" "2025/GEN/000001" "GEN" 1 None None None
          "Vendita" "tester" None None None None None None]
       [mkLineRow 1 "1410" 10000 0; mkLineRow 1 "4100" 0 10000]
       [] [mkCounterRow "2025" "GEN" 1] [] [].

(** The answer of SQLite to the trial-balance query on [december_db]. *)
Definition december_rows (d : DB) (start_date end_date : string) : list TrialRow :=
  [mkTrialRow "1410" "ASSET" 10000 0; mkTrialRow "4100" "REVENUE" 0 10000].

Definition december_accrual : AccrualItem :=
  mkAccrualItem "Rateo interessi" "2025-12-31" "3200" "2310" (dec2 10000).

(* ================================================================== *)
(** ** Reversals: [LedgerQueryRepo.build_reversal] and
       [LedgerService.reverse_entry] *)

(** The connection hands out [sqlite3.Row] objects ([row_factory]), and a
    [sqlite3.Row] has no method [get]: evaluating [row.get(column)] raises. *)
Definition Row_get {A : Type} (column : string) : Res A :=
  Raise (mkExn "AttributeError" "'sqlite3.Row' object has no attribute 'get'").

(** The [EntryDTO] of a reversal: its lines are built from stored rows (an
    amount can be [None]), its VAT fields are what [row.get] returns. *)
Record ReversalDraft : Type := mkReversalDraft {
  draft_date : string;
  draft_descrizione : string;
  draft_lines : list LineSnapshot;
  draft_documento : option string;
  draft_document_date : option string;
  draft_cliente_fornitore : option string;
  draft_reversal_of : Z;
  draft_taxable_amount : option Decimal;
  draft_vat_rate : option Decimal;
  draft_vat_amount : option Decimal
}.

(** One turn of the loop over the original lines: dare and avere swapped. *)
Definition inverted_line (l : LineRow) : Res LineSnapshot :=
  (d <- amount_of_cents (ln_dare_cents l) ;;
   a <- amount_of_cents (ln_avere_cents l) ;;
   Ok (mkLineSnapshot (ln_account_code l) a d))%res.

(** [build_reversal(original_entry_id, descrizione)]; [today] is the date
    read from the clock. *)
Definition build_reversal (senv : ServiceEnv) (today : string) (original_entry_id : Z)
    (descrizione0 : string) (c : Conn) : Res (option ReversalDraft) :=
  match service_fault senv SBuildReversalEntry with
  | Some e => Raise e
  | None =>
      match find (fun e => ent_id e =? original_entry_id) (tbl_entries (db c)) with
      | None => Ok None
      | Some row =>
          match service_fault senv SBuildReversalLines with
          | Some e => Raise e
          | None =>
              (inv_lines <- mapR inverted_line
                              (filter (fun l => ln_entry_id l =? original_entry_id)
                                      (tbl_entry_lines (db c))) ;;
               ta <- Row_get "taxable_amount" ;;
               vr <- Row_get "vat_rate" ;;
               va <- Row_get "vat_amount" ;;
               Ok (Some (mkReversalDraft today descrizione0 inv_lines
                           (ent_document row) (ent_document_date row) (ent_party row)
                           original_entry_id ta vr va)))%res
          end
      end
  end.

(** [reverse_entry(original_entry_id=..., user_id=..., descrizione=...,
    protocol_series=..., idempotence_key=...)].  [today] and [today_build]
    are the dates read from the clock here and in [build_reversal];
    [post_draft] stands for [self.post_entry] applied to the entry built
    from the stored rows. *)
Definition reverse_entry (senv : ServiceEnv)
    (post_draft : ReversalDraft -> string -> string -> string -> M EntryResult)
    (today today_build : string) (original_entry_id : Z) (user_id descrizione0 : string)
    (protocol_series : string) (idempotence_key : option string) : M EntryResult :=
  fun c =>
    let env := engine_env senv in
    let id_text := Z_to_string original_entry_id in
    match ent_exists (EntriesRepoDB env c) original_entry_id with
    | Raise e => (c, Raise e)
    | Ok false => (c, Ok (failure_result [] ["Entry " ++ id_text ++ " non trovata"]))
    | Ok true =>
        match has_reversal_for (EntriesRepoDB env c) original_entry_id with
        | Raise e => (c, Raise e)
        | Ok true =>
            let err := mkLedgerError ALREADY_REVERSED
                         ("Storno gi√† presente per id=" ++ id_text) in
            (c, Ok (failure_result [err] [message err]))
        | Ok false =>
            match is_open_by_date (PeriodsRepoDB env c) today with
            | Raise e => (c, Raise e)
            | Ok false =>
                let err := mkLedgerError PERIOD_CLOSED
                             ("Periodo chiuso per data: " ++ today) in
                (c, Ok (failure_result [err] [message err]))
            | Ok true =>
                match build_reversal senv today_build original_entry_id descrizione0 c with
                | Raise e => (c, Raise e)
                | Ok None =>
                    (c, Ok (failure_result []
                              ["Impossibile costruire reversal per id " ++ id_text]))
                | Ok (Some reversal_dto) =>
                    let idem :=
                      str_or idempotence_key
                        (_default_idempotence_key "REV" (draft_date reversal_dto)
                           (draft_documento reversal_dto) descrizione0) in
                    post_draft reversal_dto user_id protocol_series idem c
                end
            end
        end
    end.

(* ================================================================== *)
(** ** services/vat_service.py *)

(** [d.quantize(Decimal("0.01"))] with the rounding of the default
    context, ROUND_HALF_EVEN. *)
Definition quantize2_even (d : Decimal) : Res Decimal :=
  match d with
  | DNaN => Ok DNaN
  | DInf _ => Raise InvalidOperation
  | DFin s c e =>
      if (c =? 0)%N then Ok (DFin s 0 (-2))
      else if (e + ndigits c - 1) + 2 + 1 >? prec then Raise InvalidOperation
      else
        let c' := if e >=? -2 then Z.of_N c * 10 ^ (e + 2)
                  else
                    let p := 10 ^ (- e - 2) in
                    let q := Z.of_N c / p in
                    let r := Z.of_N c mod p in
                    if 2 * r >? p then q + 1
                    else if 2 * r =? p then (if Z.even q then q else q + 1)
                    else q in
        if ndigits (Z.to_N c') >? prec then Raise InvalidOperation
        else Ok (DFin s (Z.to_N c') (-2))
  end.

(** [VATService.post_vat_entry]: the VAT is the product rounded by
    [quantize], the entry goes through [LedgerService.post_entry] with the
    default series and no idempotence key. *)
Definition post_vat_entry (env : Env) (now : string) (date0 descrizione0 : string)
    (taxable_amount0 vat_rate0 : Decimal)
    (revenue_account vat_liability_account receivable_account : string)
    (user_id : string) : M EntryResult :=
  fun c =>
    match (prod <- dec_mul taxable_amount0 vat_rate0 ;;
           vat_amount0 <- quantize2_even prod ;;
           total <- dec_add taxable_amount0 vat_amount0 ;;
           Ok (mkEntryDTO date0 descrizione0
                 [line_dare receivable_account total;
                  line_avere revenue_account taxable_amount0;
                  line_avere vat_liability_account vat_amount0]
                 None None None None None
                 (Some taxable_amount0) (Some vat_rate0) (Some vat_amount0)
                 None None None None))%res with
    | Raise e => (c, Raise e)
    | Ok entry => post_entry env now entry user_id "GEN" None c
    end.

(* ================================================================== *)
(** ** services/audit_service.py on payloads with integer keys *)

(** The payload of [log_action] is any Python dictionary that [json.dumps]
    can serialise.  [PyVal] is [json] with one more kind of dictionary, the
    one whose keys are integers: [json.dumps] writes such a key as the text
    of the number, between quotes.  (A dictionary that mixes integer and
    string keys makes the sort of [sort_keys=True] raise TypeError, so it is
    never stored; floats are left out.) *)
Inductive PyVal : Type :=
| PNone
| PBool (b : bool)
| PInt (z : Z)
| PStr (s : string)
| PList (l : list PyVal)
| PDict (items : list (string * PyVal))
| PIntDict (items : list (Z * PyVal)).

(** [sorted(items)] on integer keys (insertion sort, stable). *)
Fixpoint insert_int_item {A : Type} (x : Z * A) (l : list (Z * A)) : list (Z * A) :=
  match l with
  | [] => [x]
  | y :: r => if fst x <=? fst y then x :: l else y :: insert_int_item x r
  end.

Fixpoint sort_int_items {A : Type} (l : list (Z * A)) : list (Z * A) :=
  match l with
  | [] => []
  | x :: r => insert_int_item x (sort_int_items r)
  end.

(** An integer key sorts as a number and is written as a string. *)
Definition dump_int_item (kv : Z * string) : string :=
  json_quote (Z_to_string (fst kv)) ++ ":" ++ snd kv.

(** [json.dumps(v, sort_keys=True, separators=(",", ":"),
    ensure_ascii=False)] on a Python value. *)
Fixpoint py_dumps (v : PyVal) : string :=
  match v with
  | PNone => "null"
  | PBool true => "true"
  | PBool false => "false"
  | PInt z => Z_to_string z
  | PStr s => json_quote s
  | PList l => "[" ++ join_comma (map py_dumps l) ++ "]"
  | PDict items =>
      "{" ++ join_comma
               (map dump_item
                  (sort_items (map (fun kv => (fst kv, py_dumps (snd kv))) items)))
          ++ "}"
  | PIntDict items =>
      "{" ++ join_comma
               (map dump_int_item
                  (sort_int_items (map (fun kv => (fst kv, py_dumps (snd kv))) items)))
          ++ "}"
  end.

(** A [json] value as the Python value it is. *)
Fixpoint py_of_json (v : json) : PyVal :=
  match v with
  | JNull => PNone
  | JBool b => PBool b
  | JInt z => PInt z
  | JStr s => PStr s
  | JList l => PList (map py_of_json l)
  | JDict items => PDict (map (fun kv => (fst kv, py_of_json (snd kv))) items)
  end.

(** [log_action(action, user_id, payload, entry_id)] once more, statement
    by statement as [log_action] above, with the items of [payload] Python
    values: [_payload_hash] and the stored text are both [json.dumps] of the
    dictionary the caller passed, timestamp added. *)
Definition log_action_py (env : Env) (now : string) (action user_id : string)
    (payload : list (string * PyVal)) (entry_id : option Z) : M unit :=
  (let payload := dict_set "timestamp" (PStr now) payload in
   let curr_hash := Sha256.hexdigest (py_dumps (PDict payload)) in
   prev_hash <-
     (if truthy_int entry_id then
        match entry_id with
        | Some eid =>
            row <- query env SSelectAuditLast
                     (fun d => latest_audit_row eid (tbl_audit_log d)) ;;
            retM (match row with
                  | Some r =>
                      if (aud_curr_hash r =? EmptyString)%string then None
                      else Some (aud_curr_hash r)
                  | None => None
                  end)
        | None => retM None
        end
      else retM None) ;;
   _ <- exec env SInsertAudit
          (fun d =>
             Ok (set_audit_log d
                   (tbl_audit_log d ++
                    [mkAuditRow (next_id (map aud_id (tbl_audit_log d)))
                                entry_id action user_id
                                (py_dumps (PDict payload)) prev_hash curr_hash])%list,
                 tt)) ;;
   conn_commit env SAuditCommit)%M.

(** A payload whose item "lines" is a dictionary keyed by line number. *)
Definition numbered_payload : list (string * PyVal) :=
  [("lines", PIntDict [(1, PStr "1410"); (2, PStr "4100"); (10, PStr "2321")])].

(** What [json.loads] makes of the stored text of that payload: the keys of
    "lines" are strings, in the order of the text. *)
Definition numbered_payload_read : json :=
  JDict [("lines", JDict [("1", JStr "1410"); ("2", JStr "4100"); ("10", JStr "2321")]);
         ("timestamp", JStr sample_now)].

(** An entry that breaks three rules (unbalanced, date in the wrong format,
    VAT amount off) and whose first line carries [Decimal("NaN")]. *)
Definition nan_broken_entry : EntryDTO :=
  mkEntryDTO "15-04-2025" "Errata"
    [mkLineDTO "1410" DNaN dec_zero None;
     mkLineDTO "4100" dec_zero (dec2 9000) None]
    None None None None None
    (Some (dec2 10000)) (Some (dec2 22)) (Some (dec2 2100))
    None None None None.

Arguments json_loads : simpl never.

(* ================================================================== *)
(** * Properties *)

(** ** Strings and canonical JSON *)

Section CanonicalJson.
Local Open Scope nat_scope.

Lemma app_assoc_s (a b c : string) : (a ++ b) ++ c = a ++ (b ++ c).
Proof. induction a; simpl; congruence. Qed.

Lemma app_nil_r_s (a : string) : a ++ EmptyString = a.
Proof. induction a; simpl; congruence. Qed.

Lemma length_app_s (a b : string) :
  String.length (a ++ b) = (String.length a + String.length b)%nat.
Proof. induction a; simpl; congruence. Qed.

(** One escaped character is decoded to itself. *)
Lemma parse_esc_char (c : ascii) (s : string) :
  parse_string_body (esc_char c ++ s) =
  match parse_string_body s with
  | Some (body, rest) => Some (String c body, rest)
  | None => None
  end.
Proof.
  destruct c as [[] [] [] [] [] [] [] []]; reflexivity.
Qed.

Lemma parse_string_escape (s rest : string) :
  parse_string_body (json_escape s ++ String dquote rest) = Some (s, rest).
Proof.
  induction s as [|c s IH]; simpl.
  - reflexivity.
  - rewrite app_assoc_s, parse_esc_char, IH. reflexivity.
Qed.

Lemma span_digits_uint (d : Corelib.Init.Decimal.uint) (rest : string) :
  sep_head rest = true ->
  span_digits (NilEmpty.string_of_uint d ++ rest) = (NilEmpty.string_of_uint d, rest).
Proof.
  intros Hr. induction d; simpl; try (rewrite IHd; reflexivity).
  destruct rest as [|c r]; simpl; [reflexivity|].
  simpl in Hr.
  destruct (is_digit c) eqn:Hd; [|reflexivity].
  exfalso. unfold is_digit in Hd.
  apply orb_true_iff in Hr. destruct Hr as [Hr|Hr];
    [apply orb_true_iff in Hr; destruct Hr as [Hr|Hr]|];
    apply Ascii.eqb_eq in Hr; subst c; discriminate Hd.
Qed.

Lemma N_to_string_nilempty (n : N) :
  N_to_string n = NilEmpty.string_of_uint (N.to_uint n).
Proof.
  unfold N_to_string, NilZero.string_of_uint.
  destruct (N.to_uint n) eqn:E; try reflexivity.
  exfalso. destruct n; simpl in E; [discriminate|].
  exact (DecimalPos.Unsigned.to_uint_nonnil p E).
Qed.

Lemma to_uint_nonnil (n : N) : N.to_uint n <> Corelib.Init.Decimal.Nil.
Proof.
  destruct n; simpl; [discriminate|]. apply DecimalPos.Unsigned.to_uint_nonnil.
Qed.

Lemma parse_nat_roundtrip (n : N) (rest : string) :
  sep_head rest = true ->
  parse_nat (N_to_string n ++ rest) = Some (n, rest).
Proof.
  intros Hr. unfold parse_nat.
  rewrite N_to_string_nilempty, span_digits_uint by assumption.
  rewrite <- N_to_string_nilempty.
  unfold N_to_string at 1.
  rewrite NilZero.usu by apply to_uint_nonnil.
  rewrite DecimalN.Unsigned.of_to, String.eqb_refl.
  destruct rest as [|c r]; [reflexivity|].
  simpl in Hr.
  apply orb_true_iff in Hr. destruct Hr as [Hr|Hr];
    [apply orb_true_iff in Hr; destruct Hr as [Hr|Hr]|];
    apply Ascii.eqb_eq in Hr; subst c; reflexivity.
Qed.

(** A printed natural number starts with a digit. *)
Lemma N_to_string_head (n : N) :
  exists c r, N_to_string n = String c r /\ is_digit c = true.
Proof.
  rewrite N_to_string_nilempty.
  pose proof (to_uint_nonnil n) as H.
  destruct (N.to_uint n); try congruence; simpl; eexists; eexists; split; reflexivity.
Qed.

(* ---- sorting the items of a dictionary ---- *)
Section SortItems.
Context {A : Type}.
Implicit Types (l : list (string * A)) (x : string * A).

Lemma insert_item_in x y l : In x (insert_item y l) <-> x = y \/ In x l.
Proof.
  induction l as [|z l IH]; simpl.
  - intuition.
  - destruct (String.leb (fst y) (fst z)); simpl; rewrite ?IH; intuition.
Qed.

Lemma sort_items_in x l : In x (sort_items l) <-> In x l.
Proof.
  induction l as [|z l IH]; simpl; [tauto|].
  rewrite insert_item_in, IH. intuition.
Qed.

Lemma insert_item_perm y l : Permutation.Permutation (insert_item y l) (y :: l).
Proof.
  induction l as [|z l IH]; simpl; [reflexivity|].
  destruct (String.leb (fst y) (fst z)); [reflexivity|].
  rewrite IH. apply Permutation.perm_swap.
Qed.

Lemma sort_items_perm l : Permutation.Permutation (sort_items l) l.
Proof.
  induction l as [|z l IH]; simpl; [reflexivity|].
  rewrite insert_item_perm. now constructor.
Qed.

Lemma insert_item_sorted y l :
  sorted_keys l = true -> sorted_keys (insert_item y l) = true.
Proof.
  induction l as [|z l IH]; simpl; intros Hs; [reflexivity|].
  destruct (String.leb (fst y) (fst z)) eqn:E.
  - simpl. now rewrite E.
  - assert (Hz : String.leb (fst z) (fst y) = true).
    { destruct (String.leb_total (fst y) (fst z)); congruence. }
    destruct l as [|w l]; simpl in *.
    + now rewrite Hz.
    + apply andb_true_iff in Hs. destruct Hs as [Hzw Hs].
      specialize (IH Hs).
      destruct (String.leb (fst y) (fst w)); simpl in *.
      * now rewrite Hz.
      * now rewrite Hzw.
Qed.

Lemma sort_items_sorted l : sorted_keys (sort_items l) = true.
Proof.
  induction l; simpl; [reflexivity|]. now apply insert_item_sorted.
Qed.

Lemma sort_items_id l : sorted_keys l = true -> sort_items l = l.
Proof.
  induction l as [|z l IH]; simpl; intros Hs; [reflexivity|].
  destruct l as [|w l]; [reflexivity|].
  apply andb_true_iff in Hs. destruct Hs as [Hzw Hs].
  rewrite (IH Hs). simpl. now rewrite Hzw.
Qed.

Lemma sort_items_idem l : sort_items (sort_items l) = sort_items l.
Proof. apply sort_items_id, sort_items_sorted. Qed.
End SortItems.

Lemma insert_item_map {A B : Type} (f : A -> B) (x : string * A) (l : list (string * A)) :
  insert_item (fst x, f (snd x)) (map (fun kv => (fst kv, f (snd kv))) l) =
  map (fun kv => (fst kv, f (snd kv))) (insert_item x l).
Proof.
  induction l as [|z l IH]; simpl; [reflexivity|].
  destruct (String.leb (fst x) (fst z)); simpl; [reflexivity|]. now rewrite IH.
Qed.

Lemma sort_items_map {A B : Type} (f : A -> B) (l : list (string * A)) :
  sort_items (map (fun kv => (fst kv, f (snd kv))) l) =
  map (fun kv => (fst kv, f (snd kv))) (sort_items l).
Proof.
  induction l as [|z l IH]; simpl; [reflexivity|].
  rewrite IH. apply insert_item_map.
Qed.

Lemma nodup_str_spec (l : list string) : nodup_str l = true <-> NoDup l.
Proof.
  induction l as [|x l IH]; simpl.
  - split; [constructor|reflexivity].
  - rewrite andb_true_iff, negb_true_iff, IH. split.
    + intros [Hx Hl]. constructor; [|assumption].
      intros Hin. assert (existsb (String.eqb x) l = true); [|congruence].
      apply existsb_exists. exists x. split; [assumption|apply String.eqb_refl].
    + intros Hnd. inversion Hnd as [|? ? Hx Hl]; subst. split; [|assumption].
      destruct (existsb (String.eqb x) l) eqn:E; [|reflexivity].
      apply existsb_exists in E. destruct E as [y [Hy Hxy]].
      apply String.eqb_eq in Hxy. subst y. contradiction.
Qed.

Lemma sort_items_nodup {A : Type} (l : list (string * A)) :
  nodup_str (map fst l) = true -> nodup_str (map fst (sort_items l)) = true.
Proof.
  rewrite !nodup_str_spec. intros H.
  eapply Permutation.Permutation_NoDup; [|exact H].
  apply Permutation.Permutation_map, Permutation.Permutation_sym, sort_items_perm.
Qed.

(* ---- rebuilding a dictionary from its parsed members ---- *)
Lemma dict_set_fresh {A : Type} (k : string) (v : A) (l : list (string * A)) :
  ~ In k (map fst l) -> dict_set k v l = (l ++ [(k, v)])%list.
Proof.
  induction l as [|[k' v'] l IH]; simpl; intros Hn; [reflexivity|].
  destruct (String.eqb_spec k' k) as [->|Hne]; [tauto|].
  rewrite IH by tauto. reflexivity.
Qed.

Lemma fold_dict_set {A : Type} (l acc : list (string * A)) :
  NoDup (map fst (acc ++ l)%list) ->
  fold_left (fun d kv => dict_set (fst kv) (snd kv) d) l acc = (acc ++ l)%list.
Proof.
  revert acc. induction l as [|[k v] l IH]; intros acc Hnd; simpl.
  - now rewrite List.app_nil_r.
  - rewrite dict_set_fresh.
    + rewrite IH; rewrite <- List.app_assoc; [reflexivity|exact Hnd].
    + rewrite map_app in Hnd. simpl in Hnd.
      apply NoDup_remove_2 in Hnd. intros Hin. apply Hnd.
      apply in_or_app. now left.
Qed.

(* ---- induction on values, through lists and dictionaries ---- *)
Section JsonInduction.
Variable P : json -> Prop.
Hypothesis HNull : P JNull.
Hypothesis HBool : forall b, P (JBool b).
Hypothesis HInt : forall z, P (JInt z).
Hypothesis HStr : forall s, P (JStr s).
Hypothesis HList : forall l, Forall P l -> P (JList l).
Hypothesis HDict : forall items, Forall (fun kv => P (snd kv)) items -> P (JDict items).

Fixpoint json_nested_ind (v : json) : P v :=
  match v with
  | JNull => HNull
  | JBool b => HBool b
  | JInt z => HInt z
  | JStr s => HStr s
  | JList l =>
      HList l ((fix go (l : list json) : Forall P l :=
                  match l with
                  | [] => Forall_nil P
                  | x :: r => Forall_cons x (json_nested_ind x) (go r)
                  end) l)
  | JDict items =>
      HDict items
        ((fix go (l : list (string * json)) : Forall (fun kv => P (snd kv)) l :=
            match l with
            | [] => Forall_nil _
            | x :: r => Forall_cons x (json_nested_ind (snd x)) (go r)
            end) items)
  end.
End JsonInduction.

Lemma parse_value_S (f : nat) (c : ascii) (r : string) :
  parse_value (S f) (String c r) =
  let s := String c r in
  let n := N_of_ascii c in
  if (n =? 110)%N then
    match expect "ull" r with Some r' => Some (JNull, r') | None => None end
  else if (n =? 116)%N then
    match expect "rue" r with Some r' => Some (JBool true, r') | None => None end
  else if (n =? 102)%N then
    match expect "alse" r with Some r' => Some (JBool false, r') | None => None end
  else if (n =? 34)%N then
    match parse_string_body r with
    | Some (body, r') => Some (JStr body, r')
    | None => None
    end
  else if (n =? 45)%N then
    match parse_nat r with
    | Some (m, r') => Some (JInt (- Z.of_N m), r')
    | None => None
    end
  else if is_digit c then
    match parse_nat s with
    | Some (m, r') => Some (JInt (Z.of_N m), r')
    | None => None
    end
  else if (n =? 91)%N then
    match r with
    | String c' r' =>
        if (N_of_ascii c' =? 93)%N then Some (JList [], r')
        else match parse_elems f r with
             | Some (vs, r'') => Some (JList vs, r'')
             | None => None
             end
    | EmptyString => None
    end
  else if (n =? 123)%N then
    match r with
    | String c' r' =>
        if (N_of_ascii c' =? 125)%N then Some (JDict [], r')
        else match parse_members f r with
             | Some (kvs, r'') =>
                 Some (JDict (fold_left (fun d kv => dict_set (fst kv) (snd kv) d)
                                        kvs []), r'')
             | None => None
             end
    | EmptyString => None
    end
  else None.
Proof. reflexivity. Qed.

Lemma parse_elems_S (f : nat) (s : string) :
  parse_elems (S f) s =
  match parse_value f s with
  | Some (v, String c r) =>
      if (N_of_ascii c =? 44)%N then
        match parse_elems f r with
        | Some (vs, r') => Some (v :: vs, r')
        | None => None
        end
      else if (N_of_ascii c =? 93)%N then Some ([v], r)
      else None
  | _ => None
  end.
Proof. reflexivity. Qed.

Lemma parse_members_S (f : nat) (q : ascii) (r0 : string) :
  parse_members (S f) (String q r0) =
  if (N_of_ascii q =? 34)%N then
    match parse_string_body r0 with
    | Some (k, String colon r1) =>
        if (N_of_ascii colon =? 58)%N then
          match parse_value f r1 with
          | Some (v, String c r) =>
              if (N_of_ascii c =? 44)%N then
                match parse_members f r with
                | Some (kvs, r') => Some ((k, v) :: kvs, r')
                | None => None
                end
              else if (N_of_ascii c =? 125)%N then Some ([(k, v)], r)
              else None
          | _ => None
          end
        else None
    | _ => None
    end
  else None.
Proof. reflexivity. Qed.

(** The first character of a canonical text never closes a list. *)
Lemma json_dumps_head (v : json) :
  exists c r, json_dumps v = String c r /\ (N_of_ascii c =? 93)%N = false.
Proof.
  destruct v as [|[]|z|s|l|items]; simpl; try (eexists; eexists; split; reflexivity).
  unfold Z_to_string. destruct (z <? 0)%Z.
  - eexists; eexists; split; reflexivity.
  - destruct (N_to_string_head (Z.to_N z)) as [c [r [E Hd]]].
    exists c, r. split; [exact E|].
    unfold is_digit in Hd. apply andb_true_iff in Hd. destruct Hd as [H1 H2].
    apply N.leb_le in H1, H2. apply N.eqb_neq. lia.
Qed.

Lemma json_dumps_length (v : json) : (1 <= String.length (json_dumps v))%nat.
Proof.
  destruct (json_dumps_head v) as [c [r [E _]]]. rewrite E. simpl. lia.
Qed.

(** The statement proved by induction on the value. *)
Lemma parse_elems_roundtrip (xs : list json) :
  xs <> [] ->
  Forall reads_back xs ->
  forallb json_wf xs = true ->
  forall fuel rest,
    (String.length (join_comma (map json_dumps xs)) + 1 < fuel)%nat ->
    parse_elems fuel (join_comma (map json_dumps xs) ++ String "]" rest)
    = Some (map json_canon xs, rest).
Proof.
  induction xs as [|x xs IH]; intros Hne HP Hwf fuel rest Hfuel; [congruence|].
  inversion HP as [|? ? Hx Hxs]; subst.
  simpl in Hwf. apply andb_true_iff in Hwf. destruct Hwf as [Hwx Hwxs].
  destruct fuel as [|f]; [lia|].
  rewrite parse_elems_S.
  destruct xs as [|y ys].
  - simpl in *. rewrite (Hx Hwx) by (simpl; auto; lia). reflexivity.
  - change (join_comma (map json_dumps (x :: y :: ys)))
      with (json_dumps x ++ "," ++ join_comma (map json_dumps (y :: ys))) in *.
    rewrite length_app_s in Hfuel. simpl String.length in Hfuel.
    pose proof (json_dumps_length x).
    rewrite app_assoc_s. simpl (("," ++ _) ++ _).
    rewrite (Hx Hwx) by (simpl; auto; lia).
    simpl. rewrite IH; try assumption; try discriminate; try reflexivity.
    simpl in *. lia.
Qed.

Lemma dump_item_text (k : string) (text rest : string) :
  dump_item (k, text) ++ rest
  = String dquote (json_escape k ++ String dquote (String ":" (text ++ rest))).
Proof.
  unfold dump_item, json_quote, str1. simpl.
  rewrite !app_assoc_s. simpl. reflexivity.
Qed.

Lemma parse_members_roundtrip (kvs : list (string * json)) :
  kvs <> [] ->
  Forall (fun kv => reads_back (snd kv)) kvs ->
  forallb (fun kv => json_wf (snd kv)) kvs = true ->
  forall fuel rest,
    (String.length (join_comma (map dump_item (map dump_kv kvs))) + 1 < fuel)%nat ->
    parse_members fuel
      (join_comma (map dump_item (map dump_kv kvs)) ++ String "}" rest)
    = Some (map canon_kv kvs, rest).
Proof.
  induction kvs as [|[k v] kvs IH]; intros Hne HP Hwf fuel rest Hfuel; [congruence|].
  inversion HP as [|? ? Hx Hxs]; subst. simpl in Hx.
  simpl in Hwf. apply andb_true_iff in Hwf. destruct Hwf as [Hwx Hwxs].
  destruct fuel as [|f]; [lia|].
  pose proof (json_dumps_length v) as Hlen.
  destruct kvs as [|y ys].
  - simpl join_comma in *. unfold dump_kv at 1. simpl fst. simpl snd.
    rewrite dump_item_text, parse_members_S.
    change (N_of_ascii dquote =? 34)%N with true. cbv iota.
    rewrite parse_string_escape.
    change (N_of_ascii ":" =? 58)%N with true. cbv iota.
    unfold dump_kv, dump_item in Hfuel. simpl in Hfuel.
    rewrite !length_app_s in Hfuel. simpl in Hfuel.
    rewrite (Hx Hwx) by (simpl; auto; lia). reflexivity.
  - change (join_comma (map dump_item (map dump_kv ((k, v) :: y :: ys))))
      with (dump_item (k, json_dumps v) ++ ","
            ++ join_comma (map dump_item (map dump_kv (y :: ys)))) in *.
    remember (join_comma (map dump_item (map dump_kv (y :: ys)))) as tail eqn:Etail.
    rewrite length_app_s in Hfuel.
    unfold dump_item at 1 in Hfuel. simpl in Hfuel.
    rewrite !length_app_s in Hfuel. simpl in Hfuel.
    rewrite app_assoc_s. simpl (("," ++ _) ++ _).
    rewrite dump_item_text, parse_members_S.
    change (N_of_ascii dquote =? 34)%N with true. cbv iota.
    rewrite parse_string_escape.
    change (N_of_ascii ":" =? 58)%N with true. cbv iota.
    rewrite (Hx Hwx) by (simpl; auto; lia).
    change (N_of_ascii "," =? 44)%N with true. cbv iota.
    rewrite IH; try assumption; try discriminate; try reflexivity.
    lia.
Qed.

Lemma Z_to_string_reads_back (z : Z) : reads_back (JInt z).
Proof.
  intros _ fuel rest Hfuel Hrest. simpl json_dumps in *. simpl json_canon.
  destruct fuel as [|f]; [lia|].
  unfold Z_to_string. destruct (Z.ltb_spec z 0) as [Hneg|Hpos].
  - simpl append. rewrite parse_value_S. cbv zeta.
    change (N_of_ascii "-") with 45%N. simpl N.eqb. cbv iota.
    rewrite parse_nat_roundtrip by assumption.
    rewrite N2Z.inj_abs_N. do 3 f_equal. lia.
  - destruct (N_to_string_head (Z.to_N z)) as [c [r [E Hd]]].
    pose proof (parse_nat_roundtrip (Z.to_N z) rest Hrest) as Hp.
    rewrite E in *. simpl append in *.
    rewrite parse_value_S. cbv zeta.
    assert (Hc := Hd). unfold is_digit in Hc.
    apply andb_true_iff in Hc. destruct Hc as [H1 H2].
    apply N.leb_le in H1, H2.
    replace (N_of_ascii c =? 110)%N with false by (symmetry; apply N.eqb_neq; lia).
    replace (N_of_ascii c =? 116)%N with false by (symmetry; apply N.eqb_neq; lia).
    replace (N_of_ascii c =? 102)%N with false by (symmetry; apply N.eqb_neq; lia).
    replace (N_of_ascii c =? 34)%N with false by (symmetry; apply N.eqb_neq; lia).
    replace (N_of_ascii c =? 45)%N with false by (symmetry; apply N.eqb_neq; lia).
    rewrite Hd, Hp. rewrite Z2N.id by assumption. reflexivity.
Qed.

Lemma json_wf_sorted_items (items : list (string * json)) :
  forallb (fun kv => json_wf (snd kv)) items = true ->
  forallb (fun kv => json_wf (snd kv)) (sort_items items) = true.
Proof.
  rewrite !forallb_forall. intros H x Hx. apply H. now apply sort_items_in.
Qed.

(** Reading a canonical text gives the value back, dictionaries in key order. *)
Lemma json_reads_back (v : json) : reads_back v.
Proof.
  induction v as [| b | z | s | l IH | items IH] using json_nested_ind.
  - intros _ [|f] rest Hf Hr; [simpl in Hf; lia|]. reflexivity.
  - intros _ [|f] rest Hf Hr; [simpl in Hf; lia|]. destruct b; reflexivity.
  - apply Z_to_string_reads_back.
  - intros _ [|f] rest Hf Hr; [simpl in Hf; lia|].
    simpl json_dumps. unfold json_quote. simpl append.
    rewrite parse_value_S. cbv zeta.
    change (N_of_ascii dquote) with 34%N. simpl N.eqb. cbv iota.
    rewrite app_assoc_s. simpl (str1 dquote ++ rest).
    rewrite parse_string_escape. reflexivity.
  - intros Hwf [|f] rest Hf Hr; [simpl in Hf; lia|].
    simpl in Hwf. simpl json_dumps in *. simpl json_canon.
    simpl append. rewrite parse_value_S. cbv zeta.
    change (N_of_ascii "[") with 91%N. simpl N.eqb. cbv iota.
    change (is_digit "[") with false. cbv iota.
    destruct l as [|x xs].
    + reflexivity.
    + rewrite app_assoc_s. simpl ("]" ++ rest).
      destruct (json_dumps_head x) as [c [r [E Hc]]].
      assert (Hj : exists r', join_comma (map json_dumps (x :: xs)) = String c r').
      { destruct xs; simpl; rewrite E; simpl; eexists; reflexivity. }
      destruct Hj as [r' Hj].
      pose proof (parse_elems_roundtrip (x :: xs) ltac:(discriminate) IH Hwf f rest) as Hp.
      remember (join_comma (map json_dumps (x :: xs))) as body eqn:Eb.
      simpl String.length in Hf. rewrite length_app_s in Hf. simpl in Hf.
      specialize (Hp ltac:(lia)).
      rewrite Hj in *. simpl append. cbv iota. rewrite Hc.
      simpl append in Hp. rewrite Hp. reflexivity.
  - intros Hwf [|f] rest Hf Hr; [simpl in Hf; lia|].
    simpl in Hwf. apply andb_true_iff in Hwf. destruct Hwf as [Hnd Hwf].
    simpl json_dumps in *. simpl json_canon.
    change (fun kv : string * json => (fst kv, json_dumps (snd kv))) with dump_kv in *.
    change (fun kv : string * json => (fst kv, json_canon (snd kv))) with canon_kv.
    unfold dump_kv, canon_kv in *.
    rewrite sort_items_map in *.
    simpl append. rewrite parse_value_S. cbv zeta.
    change (N_of_ascii "{") with 123%N. simpl N.eqb. cbv iota.
    change (is_digit "{") with false. cbv iota.
    destruct (sort_items items) as [|x xs] eqn:Es.
    + simpl. rewrite sort_items_map, Es. reflexivity.
    + rewrite app_assoc_s. simpl ("}" ++ rest).
      assert (HP : Forall (fun kv => reads_back (snd kv)) (x :: xs)).
      { rewrite <- Es. rewrite Forall_forall in *. intros y Hy.
        apply IH. now apply sort_items_in. }
      assert (Hw : forallb (fun kv => json_wf (snd kv)) (x :: xs) = true).
      { rewrite <- Es. now apply json_wf_sorted_items. }
      pose proof (parse_members_roundtrip (x :: xs) ltac:(discriminate) HP Hw f rest) as Hp.
      unfold dump_kv in Hp.
      remember (join_comma (map dump_item
                  (map (fun kv => (fst kv, json_dumps (snd kv))) (x :: xs)))) as body eqn:Eb.
      simpl String.length in Hf. rewrite length_app_s in Hf. simpl in Hf.
      specialize (Hp ltac:(lia)). subst body.
      assert (Hj : exists r',
                 join_comma (map dump_item
                               (map (fun kv => (fst kv, json_dumps (snd kv))) (x :: xs)))
                 = String dquote r').
      { destruct xs; simpl; eexists; reflexivity. }
      destruct Hj as [r' Hj]. rewrite Hj in *. simpl append in *. cbv iota.
      change (N_of_ascii dquote =? 125)%N with false. cbv iota.
      rewrite Hp. rewrite fold_dict_set.
      * simpl app. rewrite sort_items_map, Es. reflexivity.
      * simpl app. change (canon_kv x :: map canon_kv xs) with (map canon_kv (x :: xs)).
        rewrite map_map. unfold canon_kv. simpl fst.
        change (NoDup (map fst (x :: xs))). rewrite <- Es.
        apply nodup_str_spec, sort_items_nodup, Hnd.
Qed.

Lemma json_dumps_canon (v : json) : json_dumps (json_canon v) = json_dumps v.
Proof.
  induction v as [| b | z | s | l IH | items IH] using json_nested_ind;
    try reflexivity.
  - simpl. rewrite map_map. do 3 f_equal.
    apply map_ext_in. intros x Hx. rewrite Forall_forall in IH. now apply IH.
  - simpl. rewrite (sort_items_map json_canon items), map_map. simpl.
    assert (E : map (fun x : string * json => (fst x, json_dumps (json_canon (snd x))))
                    (sort_items items)
                = map (fun x => (fst x, json_dumps (snd x))) (sort_items items)).
    { apply map_ext_in. intros x Hx. rewrite Forall_forall in IH.
      f_equal. apply IH. now apply sort_items_in. }
    rewrite E, !(sort_items_map json_dumps), sort_items_idem. reflexivity.
Qed.

(** [json.loads(json.dumps(v))] succeeds and serialises to the same text. *)
Lemma json_roundtrip (v : json) :
  json_wf v = true ->
  json_loads (json_dumps v) = Ok (json_canon v).
Proof.
  intros Hwf. unfold json_loads.
  pose proof (json_reads_back v Hwf (S (String.length (json_dumps v))) EmptyString
                ltac:(lia) eq_refl) as H.
  rewrite app_nil_r_s in H. rewrite H. reflexivity.
Qed.

End CanonicalJson.

(** ** The audit chain *)

(** The test vectors of FIPS 180-4 and the size of the constant table. *)
Lemma sha256_round_constants :
  List.length Sha256.K256 = 64%nat /\
  nth 0 Sha256.K256 0 = 0x428a2f98 /\ nth 63 Sha256.K256 0 = 0xc67178f2.
Proof. repeat split. Qed.

Lemma sha256_abc :
  Sha256.hexdigest "abc"
  = "ba7816bf8f01cfea414140de5dae2223b00361a396177a9cb410ff61f20015ad".
Proof. vm_compute. reflexivity. Qed.

Lemma sha256_empty :
  Sha256.hexdigest EmptyString
  = "e3b0c44298fc1c149afbf4c8996fb92427ae41e4649b934ca495991b7852b855".
Proof. vm_compute. reflexivity. Qed.

Lemma hexdigest_nonempty (s : string) : Sha256.hexdigest s <> EmptyString.
Proof. unfold Sha256.hexdigest, Sha256.hex_of_state, Sha256.word_hex. discriminate. Qed.

Lemma payload_hash_nonempty (p : json) : (payload_hash p =? EmptyString)%string = false.
Proof. apply String.eqb_neq, hexdigest_nonempty. Qed.

(** Hashing what [json.loads] returns gives the stored hash again. *)
Lemma payload_hash_reload (p : json) :
  json_wf p = true ->
  exists q, json_loads (json_dumps p) = Ok q /\ payload_hash q = payload_hash p.
Proof.
  intros Hwf. exists (json_canon p). split.
  - now apply json_roundtrip.
  - unfold payload_hash. now rewrite json_dumps_canon.
Qed.

Lemma dict_set_keys {A : Type} (k : string) (v : A) (l : list (string * A)) :
  map fst (dict_set k v l) = map fst l \/
  (~ In k (map fst l) /\ map fst (dict_set k v l) = (map fst l ++ [k])%list).
Proof.
  induction l as [|[k' v'] l IH]; simpl.
  - right. split; [tauto|reflexivity].
  - destruct (String.eqb_spec k' k) as [->|Hne]; simpl.
    + now left.
    + destruct IH as [IH|[Hn IH]]; rewrite IH; [now left|right].
      split; [|reflexivity]. intros [H|H]; [congruence|tauto].
Qed.

Lemma dict_set_in {A : Type} (k : string) (v : A) (l : list (string * A)) x :
  In x (dict_set k v l) -> In x l \/ snd x = v.
Proof.
  induction l as [|[k' v'] l IH]; simpl.
  - intros [<-|[]]. now right.
  - destruct (String.eqb_spec k' k) as [->|Hne]; simpl.
    + intros [<-|H]; [now right|left; now right].
    + intros [<-|H]; [left; now left|].
      destruct (IH H); [left; now right|now right].
Qed.

Lemma dict_set_wf (k : string) (v : json) (l : list (string * json)) :
  json_wf v = true -> json_wf (JDict l) = true -> json_wf (JDict (dict_set k v l)) = true.
Proof.
  intros Hv Hl. simpl in *. apply andb_true_iff in Hl. destruct Hl as [Hnd Hf].
  apply andb_true_iff. split.
  - apply nodup_str_spec. apply nodup_str_spec in Hnd.
    destruct (dict_set_keys k v l) as [E|[Hn E]]; rewrite E; [assumption|].
    eapply Permutation_NoDup; [apply Permutation_cons_append|].
    now constructor.
  - rewrite forallb_forall in *. intros x Hx.
    destruct (dict_set_in _ _ _ _ Hx) as [H|H]; [now apply Hf|now rewrite H].
Qed.

(* ---- the table in rowid order ---- *)
Lemma next_id_above (ids : list Z) (x : Z) : In x ids -> x < next_id ids.
Proof.
  unfold next_id. induction ids as [|y ids IH]; cbn [fold_right In]; [tauto|].
  intros [->|H]; [lia|]. specialize (IH H). lia.
Qed.

Lemma ids_increasing_snoc (rows : list AuditRow) (r : AuditRow) :
  ids_increasing rows ->
  (forall x, In x rows -> aud_id x < aud_id r) ->
  ids_increasing (rows ++ [r]).
Proof.
  unfold ids_increasing. induction rows as [|a rows IH]; simpl; intros Hs Hlt.
  - repeat constructor.
  - apply StronglySorted_inv in Hs. destruct Hs as [Hs Ha].
    constructor.
    + apply IH; auto.
    + apply Forall_app. split; [assumption|]. constructor; auto.
Qed.

Lemma ids_increasing_filter (f : AuditRow -> bool) (rows : list AuditRow) :
  ids_increasing rows -> ids_increasing (filter f rows).
Proof.
  unfold ids_increasing. induction rows as [|a rows IH]; simpl; intros Hs; [constructor|].
  apply StronglySorted_inv in Hs. destruct Hs as [Hs Ha].
  destruct (f a); [|auto].
  constructor; [auto|].
  rewrite Forall_forall in *. intros x Hx. apply Ha.
  apply filter_In in Hx. tauto.
Qed.

(** [ORDER BY id ASC] leaves a table in rowid order as it is. *)
Lemma order_by_id_increasing (rows : list AuditRow) :
  ids_increasing rows -> order_by_id rows = rows.
Proof.
  unfold ids_increasing. induction rows as [|a rows IH]; simpl; intros Hs; [reflexivity|].
  apply StronglySorted_inv in Hs. destruct Hs as [Hs Ha].
  rewrite IH by assumption.
  destruct rows as [|b rows]; [reflexivity|]. simpl.
  inversion Ha as [|? ? Hab _]; subst.
  destruct (Z.leb_spec (aud_id a) (aud_id b)); [reflexivity|lia].
Qed.

Lemma last_row_snoc (rows : list AuditRow) (r : AuditRow) :
  last_row (rows ++ [r]) = Some r.
Proof.
  induction rows as [|a rows IH]; [reflexivity|].
  simpl. rewrite IH. destruct (rows ++ [r])%list eqn:E; [|reflexivity].
  destruct rows; discriminate.
Qed.

Lemma last_row_some (a : AuditRow) (rows : list AuditRow) :
  exists r, last_row (a :: rows) = Some r.
Proof.
  revert a. induction rows as [|b rows IH]; intros a; [now exists a|].
  destruct (IH b) as [r Hr]. exists r. simpl in *. exact Hr.
Qed.

(** [ORDER BY id DESC LIMIT 1] picks the last matching row. *)
Lemma latest_audit_row_fold (eid : Z) (rows : list AuditRow) (best : option AuditRow) :
  ids_increasing rows ->
  (forall b, best = Some b -> Forall (fun r => aud_id b < aud_id r) rows) ->
  fold_left (fun best r =>
               if opt_Z_eqb (aud_entry_id r) (Some eid) then
                 match best with
                 | Some b => if aud_id b <? aud_id r then Some r else best
                 | None => Some r
                 end
               else best) rows best
  = match last_row (rows_of eid rows) with
    | Some r => Some r
    | None => best
    end.
Proof.
  unfold ids_increasing, rows_of. revert best.
  induction rows as [|a rows IH]; intros best Hs Hb; simpl; [reflexivity|].
  apply StronglySorted_inv in Hs. destruct Hs as [Hs Ha].
  destruct (opt_Z_eqb (aud_entry_id a) (Some eid)) eqn:E.
  - assert (Hnew : (match best with
                    | Some b => if aud_id b <? aud_id a then Some a else best
                    | None => Some a
                    end) = Some a).
    { destruct best as [b|]; [|reflexivity].
      specialize (Hb b eq_refl). inversion Hb; subst.
      destruct (Z.ltb_spec (aud_id b) (aud_id a)); [reflexivity|lia]. }
    rewrite Hnew, IH; [|assumption|intros b [= <-]; assumption].
    simpl. destruct (filter _ rows) as [|x l]; [reflexivity|].
    destruct (last_row_some x l) as [r ->]. reflexivity.
  - apply IH; [assumption|].
    intros b Hbb. specialize (Hb b Hbb). now inversion Hb.
Qed.

Lemma latest_audit_row_last (eid : Z) (rows : list AuditRow) :
  ids_increasing rows ->
  latest_audit_row eid rows = last_row (rows_of eid rows).
Proof.
  intros Hs. unfold latest_audit_row.
  rewrite latest_audit_row_fold; [|assumption|discriminate].
  destruct (last_row _); reflexivity.
Qed.

(* ---- extending a verified chain ---- *)
Lemma verify_rows_snoc (rows : list AuditRow) (r : AuditRow) (prev : option string) q :
  verify_rows rows prev = Ok true ->
  json_loads (aud_payload r) = Ok q ->
  payload_hash q = aud_curr_hash r ->
  aud_prev_hash r = last_hash rows prev ->
  verify_rows (rows ++ [r]) prev = Ok true.
Proof.
  revert prev. induction rows as [|a rows IH]; intros prev Hv Hq Hh Hp;
    cbn [verify_rows app last_hash] in *.
  - rewrite Hq. cbn [bindR]. rewrite Hh, String.eqb_refl. cbn [negb].
    rewrite Hp. destruct prev; cbn [opt_str_eqb negb]; rewrite ?String.eqb_refl; reflexivity.
  - destruct (json_loads (aud_payload a)) as [p|e]; cbn [bindR] in *; [|discriminate].
    destruct (negb (payload_hash p =? aud_curr_hash a)%string); [discriminate|].
    destruct (negb (opt_str_eqb (aud_prev_hash a) prev)); [discriminate|].
    now apply IH.
Qed.

Lemma verify_rows_last_hash (rows : list AuditRow) (prev : option string) :
  verify_rows rows prev = Ok true ->
  last_hash rows prev =
  match last_row rows with
  | Some r => if (aud_curr_hash r =? EmptyString)%string then None else Some (aud_curr_hash r)
  | None => prev
  end.
Proof.
  revert prev. induction rows as [|a rows IH]; intros prev Hv;
    cbn [verify_rows last_hash last_row] in *; [reflexivity|].
  destruct (json_loads (aud_payload a)) as [p|e]; cbn [bindR] in *; [|discriminate].
  destruct (String.eqb_spec (payload_hash p) (aud_curr_hash a)) as [E|]; [|discriminate].
  cbn [negb] in Hv.
  destruct (negb (opt_str_eqb (aud_prev_hash a) prev)); [discriminate|].
  rewrite (IH _ Hv). destruct rows as [|b rows].
  - cbn [last_row]. rewrite <- E, payload_hash_nonempty. reflexivity.
  - destruct (last_row_some b rows) as [r ->]. reflexivity.
Qed.

Lemma rows_of_snoc (eid : Z) (rows : list AuditRow) (r : AuditRow) :
  rows_of eid (rows ++ [r]) =
  if opt_Z_eqb (aud_entry_id r) (Some eid) then (rows_of eid rows ++ [r])%list
  else rows_of eid rows.
Proof.
  unfold rows_of. rewrite filter_app. cbn [filter].
  destruct (opt_Z_eqb (aud_entry_id r) (Some eid)); [reflexivity|apply List.app_nil_r].
Qed.

Lemma new_audit_row_above (rows : list AuditRow) now action user_id payload entry_id x :
  In x rows -> aud_id x < aud_id (new_audit_row rows now action user_id payload entry_id).
Proof.
  intros Hx. unfold new_audit_row. cbn [aud_id].
  apply next_id_above, in_map, Hx.
Qed.

(** Appending the row [log_action] builds keeps the invariant. *)
Lemma audit_inv_step (rows : list AuditRow) now action user_id payload entry_id :
  audit_inv rows ->
  json_wf (JDict payload) = true ->
  audit_inv (rows ++ [new_audit_row rows now action user_id payload entry_id]).
Proof.
  intros [Hs Hv] Hwf. split.
  - apply ids_increasing_snoc; [assumption|]. intros x Hx. now apply new_audit_row_above.
  - intros eid Hne. rewrite rows_of_snoc.
    destruct (opt_Z_eqb (aud_entry_id (new_audit_row rows now action user_id payload entry_id))
                        (Some eid)) eqn:E; [|now apply Hv].
    unfold new_audit_row in E. cbn [aud_entry_id] in E.
    destruct entry_id as [e|]; [|discriminate]. cbn [opt_Z_eqb] in E.
    apply Z.eqb_eq in E. subst e.
    assert (Hwf' : json_wf (JDict (dict_set "timestamp" (JStr now) payload)) = true)
      by (now apply dict_set_wf).
    destruct (payload_hash_reload _ Hwf') as [q [Hq Hh]].
    apply verify_rows_snoc with (q := q).
    + now apply Hv.
    + exact Hq.
    + exact Hh.
    + unfold new_audit_row. cbn [aud_prev_hash]. unfold audit_prev, truthy_int.
      destruct (Z.eqb_spec eid 0) as [|_]; [contradiction|]. cbn [negb].
      rewrite latest_audit_row_last by assumption.
      rewrite (verify_rows_last_hash _ _ (Hv eid Hne)). reflexivity.
Qed.

Lemma audit_inv_empty : audit_inv [].
Proof.
  split; [constructor|]. intros eid _. reflexivity.
Qed.

(** What [log_action] does to the audit log, whether or not it raises. *)
Lemma log_action_log (env : Env) now action user_id payload entry_id (c : Conn) :
  let c' := fst (log_action env now action user_id payload entry_id c) in
  tbl_audit_log (db c') = tbl_audit_log (db c) \/
  tbl_audit_log (db c') =
    (tbl_audit_log (db c)
     ++ [new_audit_row (tbl_audit_log (db c)) now action user_id payload entry_id])%list.
Proof.
  unfold log_action, new_audit_row, audit_prev, bindM, query, exec, conn_commit, retM.
  destruct (truthy_int entry_id); [destruct entry_id as [eid|]|];
    destruct (stmt_fault env SSelectAuditLast);
    destruct (stmt_fault env SInsertAudit);
    destruct (stmt_fault env SAuditCommit);
    destruct (saved c);
    cbn; auto.
Qed.

Lemma log_action_ok (env : Env) now action user_id payload entry_id (c c' : Conn) :
  log_action env now action user_id payload entry_id c = (c', Ok tt) ->
  tbl_audit_log (db c') =
    (tbl_audit_log (db c)
     ++ [new_audit_row (tbl_audit_log (db c)) now action user_id payload entry_id])%list
  /\ saved c' = None.
Proof.
  unfold log_action, new_audit_row, audit_prev, bindM, query, exec, conn_commit, retM.
  destruct (truthy_int entry_id); [destruct entry_id as [eid|]|];
    destruct (stmt_fault env SSelectAuditLast);
    destruct (stmt_fault env SInsertAudit);
    destruct (stmt_fault env SAuditCommit);
    destruct (saved c) eqn:Es;
    cbn; rewrite ?Es; intros [= <-]; cbn; auto.
Qed.

Lemma log_action_inv (env : Env) now action user_id payload entry_id (c : Conn) :
  audit_inv (tbl_audit_log (db c)) ->
  json_wf (JDict payload) = true ->
  audit_inv (tbl_audit_log (db (fst (log_action env now action user_id payload entry_id c)))).
Proof.
  intros Hinv Hwf.
  destruct (log_action_log env now action user_id payload entry_id c) as [E|E];
    cbv zeta in E; rewrite E; [assumption|now apply audit_inv_step].
Qed.

Lemma log_actions_inv (env : Env) (calls : list AuditCall) (c : Conn) :
  audit_inv (tbl_audit_log (db c)) ->
  Forall (fun k => json_wf (JDict (ac_payload k)) = true) calls ->
  audit_inv (tbl_audit_log (db (fst (log_actions env calls c)))).
Proof.
  revert c. induction calls as [|k calls IH]; intros c Hinv Hwf; [exact Hinv|].
  inversion Hwf as [|? ? Hk Hrest]; subst.
  cbn [log_actions]. unfold bindM.
  pose proof (log_action_inv env (ac_now k) (ac_action k) (ac_user_id k)
                (ac_payload k) (ac_entry_id k) c Hinv Hk) as H1.
  destruct (log_action env (ac_now k) (ac_action k) (ac_user_id k)
              (ac_payload k) (ac_entry_id k) c) as [c1 [[]|e]]; cbn [fst] in *.
  - now apply IH.
  - exact H1.
Qed.

Lemma verify_chain_of_inv (env : Env) (entry_id : Z) (c : Conn) :
  audit_inv (tbl_audit_log (db c)) ->
  stmt_fault env SSelectAuditChain = None ->
  entry_id <> 0 ->
  verify_chain env entry_id c = Ok true.
Proof.
  intros [Hs Hv] Hf Hne. unfold verify_chain. rewrite Hf.
  change (filter (fun r => opt_Z_eqb (aud_entry_id r) (Some entry_id))
                 (tbl_audit_log (db c)))
    with (rows_of entry_id (tbl_audit_log (db c))).
  rewrite order_by_id_increasing by (apply ids_increasing_filter, Hs).
  now apply Hv.
Qed.

(* ================================================================== *)
(** ** The posting engine *)


(** ** Stepping through computations on the connection *)

Lemma bindM_ok {A B : Type} (m : M A) (k : A -> M B) (c c' : Conn) (b : B) :
  bindM m k c = (c', Ok b) ->
  exists c1 a, m c = (c1, Ok a) /\ k a c1 = (c', Ok b).
Proof.
  unfold bindM. destruct (m c) as [c1 [a|e]]; [|discriminate].
  intros H. now exists c1, a.
Qed.

Lemma liftR_ok {A : Type} (r : Res A) (c c' : Conn) (a : A) :
  liftR r c = (c', Ok a) -> r = Ok a /\ c' = c.
Proof. unfold liftR. intros [= <- <-]. auto. Qed.

Lemma retM_ok {A : Type} (x : A) (c c' : Conn) (a : A) :
  retM x c = (c', Ok a) -> a = x /\ c' = c.
Proof. unfold retM. intros [= <- <-]. auto. Qed.

Lemma exec_ok {A : Type} (env : Env) (tag : Stmt) (f : DB -> Res (DB * A))
    (c c' : Conn) (a : A) :
  exec env tag f c = (c', Ok a) ->
  stmt_fault env tag = None /\
  exists d', f (db c) = Ok (d', a) /\ c' = mkConn d' (saved c) (tx_log c).
Proof.
  unfold exec. destruct (stmt_fault env tag); [discriminate|].
  destruct (f (db c)) as [[d' x]|e]; [|discriminate].
  intros [= <- <-]. split; [reflexivity|]. now exists d'.
Qed.

Lemma query_ok {A : Type} (env : Env) (tag : Stmt) (f : DB -> A) (c c' : Conn) (a : A) :
  query env tag f c = (c', Ok a) ->
  stmt_fault env tag = None /\ a = f (db c) /\ c' = c.
Proof.
  unfold query. intros H. apply exec_ok in H.
  destruct H as [Hf [d' [[= <- <-] ->]]]. destruct c; auto.
Qed.

(** A successful BEGIN loop opens a transaction on the current state. *)
Lemma begin_loop_ok (env : Env) (remaining attempt : nat) (c c1 : Conn) :
  begin_loop env remaining attempt c = (c1, Ok tt) ->
  saved c = None /\ c1 = mkConn (db c) (Some (db c)) (tx_log c ++ [EvBegin]).
Proof.
  revert attempt. induction remaining as [|r IH]; intros attempt; cbn [begin_loop];
    destruct (saved c) eqn:Es; try discriminate;
    destruct (begin_fault env attempt) as [e|]; try (intros [= <-]; auto);
    destruct (is_busy e); try discriminate.
  apply IH.
Qed.

Lemma begin_loop_raise (env : Env) (remaining attempt : nat) (c c1 : Conn) (e : PyExn) :
  begin_loop env remaining attempt c = (c1, Raise e) -> c1 = c.
Proof.
  revert attempt. induction remaining as [|r IH]; intros attempt; cbn [begin_loop];
    destruct (saved c) eqn:Es; try (intros [= <- _]; reflexivity);
    destruct (begin_fault env attempt) as [e'|]; try discriminate;
    destruct (is_busy e'); try (intros [= <- _]; reflexivity).
  apply IH.
Qed.

(** ** Validation failures *)

Lemma post_validation_failure (env : Env) now entry user_id accounts periods entries
    series key (c : Conn) (errs : list LedgerError) :
  validate entry accounts periods entries = Ok errs ->
  errs <> [] ->
  post env now entry user_id accounts periods entries series key c
  = (c, Ok (failure_result errs (map message errs))).
Proof.
  intros Hv Hne. unfold post. rewrite Hv. destruct errs; [congruence|reflexivity].
Qed.

(** Once the validator has returned, [post] returns a result. *)
Lemma post_returns_after_validation (env : Env) now entry user_id accounts periods entries
    series key (c : Conn) (errs : list LedgerError) :
  validate entry accounts periods entries = Ok errs ->
  exists c' r, post env now entry user_id accounts periods entries series key c = (c', Ok r).
Proof.
  intros Hv. unfold post. rewrite Hv. destruct errs as [|e errs].
  - destruct (transaction env _ c) as [c' [r|e]]; eexists; eexists; reflexivity.
  - eexists; eexists; reflexivity.
Qed.

(** ** The idempotence pre-check *)


(** ** Protocol allocation *)

Lemma find_counter_snoc (year series : string) (rows : list CounterRow) (z : Z) :
  find_counter year series rows = None ->
  find_counter year series (rows ++ [mkCounterRow year series z])
  = Some (mkCounterRow year series z).
Proof.
  unfold find_counter. induction rows as [|r rows IH]; cbn [find app].
  - intros _. cbn. now rewrite !String.eqb_refl.
  - destruct ((ctr_year r =? year)%string && (ctr_series r =? series)%string);
      [discriminate|exact IH].
Qed.

Lemma find_counter_bump (year series : string) (rows : list CounterRow) :
  find_counter year series
    (map (fun r => if (ctr_year r =? year)%string && (ctr_series r =? series)%string
                   then mkCounterRow (ctr_year r) (ctr_series r) (ctr_counter r + 1)
                   else r) rows)
  = option_map (fun r => mkCounterRow (ctr_year r) (ctr_series r) (ctr_counter r + 1))
               (find_counter year series rows).
Proof.
  unfold find_counter. induction rows as [|r rows IH]; cbn [find map option_map];
    [reflexivity|].
  destruct ((ctr_year r =? year)%string && (ctr_series r =? series)%string) eqn:E.
  - cbn [ctr_year ctr_series]. rewrite E. reflexivity.
  - rewrite E. exact IH.
Qed.

Lemma next_protocol_ok (env : Env) (year series : string) (c c' : Conn) (n : Z) (p : string) :
  _next_protocol env year series c = (c', Ok (n, p)) ->
  n = next_counter year series (tbl_protocol_counters (db c)) /\
  p = year ++ "/" ++ series ++ "/" ++ format_06d n /\
  exists ctrs crow,
    c' = mkConn (set_protocol_counters (db c) ctrs) (saved c) (tx_log c) /\
    find_counter year series ctrs = Some crow /\ ctr_counter crow = n.
Proof.
  unfold _next_protocol. intros H.
  apply bindM_ok in H. destruct H as [c1 [[] [H1 H]]].
  apply bindM_ok in H. destruct H as [c2 [[] [H2 H]]].
  apply bindM_ok in H. destruct H as [c3 [row [H3 H]]].
  apply exec_ok in H1. destruct H1 as [_ [d1 [[= <-] ->]]].
  apply exec_ok in H2. destruct H2 as [_ [d2 [[= <-] ->]]].
  apply query_ok in H3. destruct H3 as [_ [-> ->]].
  cbn [db saved tx_log] in H.
  unfold next_counter.
  destruct (find_counter year series (tbl_protocol_counters (db c))) as [r0|] eqn:E0.
  - cbn [tbl_protocol_counters set_protocol_counters] in H.
    rewrite find_counter_bump, E0 in H. cbn [option_map] in H.
    apply retM_ok in H. destruct H as [[= -> ->] ->]. cbn [ctr_counter].
    repeat split; try reflexivity.
    eexists. eexists. split; [reflexivity|]. split.
    + rewrite find_counter_bump, E0. reflexivity.
    + reflexivity.
  - cbn [tbl_protocol_counters set_protocol_counters] in H.
    rewrite find_counter_bump, find_counter_snoc in H by assumption.
    cbn [option_map] in H.
    apply retM_ok in H. destruct H as [[= -> ->] ->]. cbn [ctr_counter].
    repeat split; try reflexivity.
    eexists. eexists. split; [reflexivity|]. split.
    + rewrite find_counter_bump, find_counter_snoc by assumption. reflexivity.
    + reflexivity.
Qed.

(** ** The fresh path of a posting *)

Lemma insert_lines_ok (env : Env) (entry_id : Z) (ls : list LineDTO) (i : nat)
    (c c' : Conn) :
  insert_lines env entry_id i ls c = (c', Ok tt) ->
  exists rows,
    c' = mkConn (set_entry_lines (db c) (tbl_entry_lines (db c) ++ rows)) (saved c) (tx_log c)
    /\ List.length rows = List.length ls.
Proof.
  revert i c. induction ls as [|l ls IH]; intros i c H; cbn [insert_lines] in H.
  - apply retM_ok in H. destruct H as [_ ->]. exists []. rewrite List.app_nil_r.
    destruct c as [[] ? ?]; auto.
  - apply bindM_ok in H. destruct H as [c1 [d [H1 H]]].
    apply bindM_ok in H. destruct H as [c2 [a [H2 H]]].
    apply bindM_ok in H. destruct H as [c3 [[] [H3 H]]].
    apply liftR_ok in H1. destruct H1 as [_ ->].
    apply liftR_ok in H2. destruct H2 as [_ ->].
    apply exec_ok in H3. destruct H3 as [_ [d3 [[= <-] ->]]].
    apply IH in H. destruct H as [rows [-> Hlen]].
    cbn [db saved tx_log tbl_entry_lines set_entry_lines].
    exists (mkLineRow entry_id (account_id l) d a :: rows).
    rewrite <- List.app_assoc. cbn [app List.length]. auto.
Qed.

Lemma log_action_ok_db (env : Env) now action user_id payload entry_id (c c' : Conn) :
  log_action env now action user_id payload entry_id c = (c', Ok tt) ->
  db c' = set_audit_log (db c)
            (tbl_audit_log (db c)
             ++ [new_audit_row (tbl_audit_log (db c)) now action user_id payload entry_id])
  /\ saved c' = None.
Proof.
  unfold log_action, new_audit_row, audit_prev, bindM, query, exec, conn_commit, retM.
  destruct (truthy_int entry_id); [destruct entry_id as [eid|]|];
    destruct (stmt_fault env SSelectAuditLast);
    destruct (stmt_fault env SInsertAudit);
    destruct (stmt_fault env SAuditCommit);
    destruct (saved c) eqn:Es;
    cbn; rewrite ?Es; intros [= <-]; cbn; auto.
Qed.

Lemma find_idempotence_snoc (key : string) (rows : list IdemRow) h i p :
  find_idempotence key rows = None ->
  find_idempotence key (rows ++ [mkIdemRow key h i p]) = Some (mkIdemRow key h i p).
Proof.
  unfold find_idempotence. induction rows as [|r rows IH]; cbn [find app].
  - intros _. cbn. now rewrite String.eqb_refl.
  - destruct (idm_key r =? key)%string; [discriminate|exact IH].
Qed.

(** What a posting that went through steps 4 to 9 has done. *)
Lemma post_fresh_ok (env : Env) now entry user_id (year series : string)
    (key : option string) (c c' : Conn) (r : EntryResult) :
  post_fresh env now entry user_id year series key c = (c', Ok r) ->
  let n := next_counter year series (tbl_protocol_counters (db c)) in
  let proto := year ++ "/" ++ series ++ "/" ++ format_06d n in
  let id := next_id (map ent_id (tbl_entries (db c))) in
  r = success_result id proto /\
  saved c' = None /\
  (exists erow, tbl_entries (db c') = (tbl_entries (db c) ++ [erow])%list
                /\ ent_id erow = id /\ ent_protocol erow = proto
                /\ ent_protocol_series erow = series /\ ent_protocol_no erow = n) /\
  (exists crow, find_counter year series (tbl_protocol_counters (db c')) = Some crow
                /\ ctr_counter crow = n) /\
  (truthy_str key = false -> tbl_idempotence (db c') = tbl_idempotence (db c)) /\
  (forall k, key = Some k -> k <> EmptyString ->
     exists content,
       idempotence_content entry user_id = Ok content /\
       find_idempotence k (tbl_idempotence (db c)) = None /\
       tbl_idempotence (db c') =
         (tbl_idempotence (db c)
          ++ [mkIdemRow k (payload_hash (JDict content)) id proto])%list).
Proof.
  unfold post_fresh. intros H.
  apply bindM_ok in H. destruct H as [c1 [[n p] [H1 H]]].
  apply next_protocol_ok in H1. destruct H1 as [Hn [Hp [ctrs [crow [-> [Hfind Hcrow]]]]]].
  cbn [fst snd] in H.
  apply bindM_ok in H. destruct H as [c2 [ta [H2 H]]].
  apply liftR_ok in H2. destruct H2 as [_ ->].
  apply bindM_ok in H. destruct H as [c3 [vr [H3 H]]].
  apply liftR_ok in H3. destruct H3 as [_ ->].
  apply bindM_ok in H. destruct H as [c4 [va [H4 H]]].
  apply liftR_ok in H4. destruct H4 as [_ ->].
  apply bindM_ok in H. destruct H as [c5 [eid [H5 H]]].
  apply exec_ok in H5. destruct H5 as [_ [d5 [[= <- <-] ->]]].
  cbn [db saved tx_log tbl_entries set_protocol_counters] in H.
  apply bindM_ok in H. destruct H as [c6 [[] [H6 H]]].
  apply insert_lines_ok in H6. destruct H6 as [lrows [-> _]].
  cbn [db saved tx_log] in H.
  apply bindM_ok in H. destruct H as [c7 [[] [H7 H]]].
  assert (Hc7 : exists revs,
             c7 = mkConn (set_entry_reversals
                            (set_entry_lines
                               (set_entries (set_protocol_counters (db c) ctrs)
                                  (tbl_entries (db c) ++
                                   [mkEntryRow (next_id (map ent_id (tbl_entries (db c))))
                                      (date entry) year p series n (documento entry)
                                      (document_date entry) (cliente_fornitore entry)
                                      (descrizione entry) user_id (reversal_of entry)
                                      (or_str (client_reference_id entry) key)
                                      ta vr va None]))
                               (tbl_entry_lines (db c) ++ lrows))
                            revs)
                         (saved c) (tx_log c)).
  { destruct (truthy_int (reversal_of entry)); [destruct (reversal_of entry) as [orig|]|].
    - apply exec_ok in H7. destruct H7 as [_ [d7 [[= <-] ->]]].
      cbn. eexists. reflexivity.
    - apply retM_ok in H7. destruct H7 as [_ ->].
      exists (tbl_entry_reversals (db c)). reflexivity.
    - apply retM_ok in H7. destruct H7 as [_ ->].
      exists (tbl_entry_reversals (db c)). reflexivity. }
  destruct Hc7 as [revs ->]. clear H7.
  apply bindM_ok in H. destruct H as [c8 [payload [H8 H]]].
  apply liftR_ok in H8. destruct H8 as [_ ->].
  apply bindM_ok in H. destruct H as [c9 [[] [H9 H]]].
  apply log_action_ok_db in H9. destruct H9 as [Hdb9 Hsaved9].
  cbn [db] in Hdb9.
  apply bindM_ok in H. destruct H as [c10 [[] [H10 H]]].
  apply retM_ok in H. destruct H as [-> ->].
  subst n p. cbv zeta.
  split; [reflexivity|].
  destruct (truthy_str key) eqn:Ekey.
  - destruct key as [k|]; [|discriminate].
    apply bindM_ok in H10. destruct H10 as [c11 [content [H11 H10]]].
    apply liftR_ok in H11. destruct H11 as [Hcontent ->].
    apply exec_ok in H10. destruct H10 as [_ [d10 [Hins ->]]].
    rewrite Hdb9 in Hins. cbn [tbl_idempotence set_audit_log set_entry_reversals
      set_entry_lines set_entries set_protocol_counters] in Hins.
    destruct (find_idempotence k (tbl_idempotence (db c))) eqn:Efind; [discriminate|].
    injection Hins as <-.
    cbn [db saved]. cbn.
    split; [exact Hsaved9|]. split.
    { eexists. split; [reflexivity|]. cbn. auto. }
    split.
    { exists crow. auto. }
    split; [discriminate|].
    intros k' [= <-] _. exists content. auto.
  - apply retM_ok in H10. destruct H10 as [_ ->].
    rewrite Hdb9. cbn.
    split; [exact Hsaved9|]. split.
    { eexists. split; [reflexivity|]. cbn. auto. }
    split.
    { exists crow. auto. }
    split; [reflexivity|].
    intros k -> Hk. unfold truthy_str in Ekey.
    destruct (String.eqb_spec k EmptyString); [contradiction|discriminate].
Qed.


(** ** The validator *)

Lemma validate_ok_inv entry accounts periods entries (errs : list LedgerError) :
  validate entry accounts periods entries = Ok errs ->
  exists e1 e2 e3 e4 e5 e6,
    validate_balanced entry = Ok e1 /\
    validate_no_negative entry = Ok e2 /\
    validate_accounts_exist entry accounts = Ok e3 /\
    validate_period_open entry periods = Ok e4 /\
    validate_not_already_reversed entry entries = Ok e5 /\
    validate_vat_consistency entry = Ok e6 /\
    errs = (e1 ++ e2 ++ e3 ++ e4 ++ e5 ++ e6)%list.
Proof.
  unfold validate.
  destruct (validate_balanced entry) as [e1|]; [|discriminate].
  destruct (validate_no_negative entry) as [e2|]; [|discriminate].
  destruct (validate_accounts_exist entry accounts) as [e3|]; [|discriminate].
  destruct (validate_period_open entry periods) as [e4|]; [|discriminate].
  destruct (validate_not_already_reversed entry entries) as [e5|]; [|discriminate].
  destruct (validate_vat_consistency entry) as [e6|]; [|discriminate].
  cbn [bindR]. intros [= <-]. exists e1, e2, e3, e4, e5, e6. auto 10.
Qed.

(** Where no rule raises, every rule runs and contributes: when [validate]
    returns, each of the six rules has returned and all its errors are in the
    result, so an entry that violates K rules gets at least K structured
    errors; and as soon as one rule is violated [post] returns the failure
    carrying exactly those errors, leaving the connection as it was (no BEGIN
    is issued, the transaction log and the database are unchanged).  An entry
    on which a rule raises gets no result at all, as shown after this. *)
Theorem validation_exhaustive (env : Env) now entry user_id accounts periods entries
    series key (c : Conn) (errs : list LedgerError) :
  validate entry accounts periods entries = Ok errs ->
  Forall (fun r => exists es, r = Ok es /\ incl es errs)
         (rule_outcomes entry accounts periods entries) /\
  (violated_rules entry accounts periods entries <= List.length errs)%nat /\
  ((1 <= violated_rules entry accounts periods entries)%nat ->
   post env now entry user_id accounts periods entries series key c
   = (c, Ok (failure_result errs (map message errs))) /\
   success (failure_result errs (map message errs)) = false /\
   error_details (failure_result errs (map message errs)) = errs).
Proof.
  intros Hv.
  destruct (validate_ok_inv _ _ _ _ _ Hv)
    as [e1 [e2 [e3 [e4 [e5 [e6 [H1 [H2 [H3 [H4 [H5 [H6 ->]]]]]]]]]]]].
  assert (Hk : (violated_rules entry accounts periods entries
                <= List.length (e1 ++ e2 ++ e3 ++ e4 ++ e5 ++ e6))%nat).
  { unfold violated_rules, rule_outcomes. rewrite H1, H2, H3, H4, H5, H6.
    rewrite !List.length_app.
    destruct e1, e2, e3, e4, e5, e6; cbn; lia. }
  split; [|split].
  - unfold rule_outcomes. rewrite H1, H2, H3, H4, H5, H6.
    repeat constructor; eexists; (split; [reflexivity|]);
      intros x Hx; repeat (apply in_or_app; (now left) || right); assumption.
  - exact Hk.
  - intros HK. split; [|split; reflexivity].
    apply post_validation_failure; [exact Hv|].
    intros E. rewrite E in Hk. cbn [List.length] in Hk. lia.
Qed.

Lemma validation_exhaustive_witness :
  let c := fresh_conn sample_db in
  violated_rules broken_entry (AccountsRepoDB no_faults c) (PeriodsRepoDB no_faults c)
                 (EntriesRepoDB no_faults c) = 4%nat /\
  exists errs,
    map code errs = [UNBALANCED; INVALID_ACCOUNT; INVALID_DATE; VAT_MISMATCH] /\
    post_db no_faults sample_now broken_entry "tester" (Some "GEN") (Some "IDEM-9") c
    = (c, Ok (failure_result errs (map message errs))).
Proof.
  cbv zeta. split; [vm_compute; reflexivity|].
  eexists. split; [|unfold post_db].
  2: { eapply (validation_exhaustive no_faults sample_now broken_entry "tester").
       - vm_compute. reflexivity.
       - vm_compute. lia. }
  vm_compute. reflexivity.
Defined.

(** The rules that [nan_broken_entry] violates, each taken alone. *)
Lemma nan_broken_entry_rules (periods : PeriodRepo) :
  validate_balanced nan_broken_entry
  = Ok [mkLedgerError UNBALANCED "Entry non bilanciata: Dare=NaN, Avere=90.00"] /\
  validate_no_negative nan_broken_entry = Raise InvalidOperation /\
  validate_period_open nan_broken_entry periods
  = Ok [mkLedgerError INVALID_DATE "Data non valida: 15-04-2025"] /\
  (exists e, validate_vat_consistency nan_broken_entry = Ok [e] /\ code e = VAT_MISMATCH).
Proof.
  split; [vm_compute; reflexivity|].
  split; [vm_compute; reflexivity|].
  split; [vm_compute; reflexivity|].
  eexists. split; vm_compute; reflexivity.
Qed.

(** C7. An entry that violates three rules and gets no failure Result:
    [nan_broken_entry] is unbalanced, its date is not YYYY-MM-DD and its VAT
    amount is off - each of the three rules, run on it, returns one error -
    and its first line carries [Decimal("NaN")].  [validate] runs
    [validate_balanced], then [validate_no_negative] raises InvalidOperation
    on [l.dare < 0]; the rules after it are not run, [validate] returns no
    list, and [post], which calls [validate] outside its [try], raises
    instead of returning the failure with at least three errors - whatever
    the repositories, the storage and the connection. *)
Theorem post_raises_on_violating_entry (env : Env) now user_id accounts periods entries
    series key (c : Conn) :
  (3 <= violated_rules nan_broken_entry accounts periods entries)%nat /\
  validate nan_broken_entry accounts periods entries = Raise InvalidOperation /\
  post env now nan_broken_entry user_id accounts periods entries series key c
  = (c, Raise InvalidOperation).
Proof.
  destruct (nan_broken_entry_rules periods) as [Hb [Hn [Hp [e [Hvat _]]]]].
  split; [|split].
  - unfold violated_rules, rule_outcomes. rewrite Hb, Hn, Hp, Hvat.
    cbn [filter rule_violated List.length].
    destruct (rule_violated (validate_accounts_exist nan_broken_entry accounts));
      destruct (rule_violated (validate_not_already_reversed nan_broken_entry entries));
      cbn [List.length]; lia.
  - unfold validate. rewrite Hb, Hn. reflexivity.
  - unfold post, validate. rewrite Hb, Hn. reflexivity.
Qed.

(** C9. A repeated posting whose key is stored with the very hash of the
    submitted content still goes through the validator first: when the
    validator reports errors, [post] returns them (a failure that carries no
    entry id and no protocol) and does not look the key up; the connection is
    left as it was. *)
Theorem replay_gated_by_validation (env : Env) now entry user_id accounts periods entries
    series (key : string) (c : Conn) (row : IdemRow) (content : list (string * json))
    (errs : list LedgerError) :
  find_idempotence key (tbl_idempotence (db c)) = Some row ->
  idempotence_content entry user_id = Ok content ->
  idm_payload_hash row = payload_hash (JDict content) ->
  validate entry accounts periods entries = Ok errs ->
  errs <> [] ->
  exists r,
    post env now entry user_id accounts periods entries series (Some key) c = (c, Ok r) /\
    success r = false /\ error_details r = errs /\
    entry_id r = None /\ protocol r = None /\
    r <> success_result (idm_entry_id row) (idm_protocol row).
Proof.
  intros _ _ _ Hv Hne.
  exists (failure_result errs (map message errs)).
  split; [now apply post_validation_failure|].
  repeat split; try reflexivity. discriminate.
Qed.

Lemma replay_gated_by_validation_witness :
  let c := conn_january_closed in
  success (match snd (post_db no_faults sample_now sales_invoice "tester" (Some "gen")
                        (Some "IDEM-1") (fresh_conn sample_db)) with
           | Ok r => r
           | Raise _ => failure_result [] []
           end) = true /\
  exists r,
    post_db no_faults sample_later sales_invoice "tester" (Some "gen") (Some "IDEM-1") c
    = (c, Ok r) /\
    success r = false /\
    map code (error_details r) = [PERIOD_CLOSED].
Proof.
  cbv zeta. split; [vm_compute; reflexivity|].
  destruct (replay_gated_by_validation no_faults sample_later sales_invoice "tester"
              (AccountsRepoDB no_faults conn_january_closed)
              (PeriodsRepoDB no_faults conn_january_closed)
              (EntriesRepoDB no_faults conn_january_closed)
              (Some "gen") "IDEM-1" conn_january_closed
              (mkIdemRow "IDEM-1"
                 "c94f31d64e6564d9657a088a9f303004d07a11f37b5506315b4bbc1960eba94f"
                 1 "2025/GEN/000001")
              (match idempotence_content sales_invoice "tester" with
               | Ok x => x | Raise _ => [] end)
              [mkLedgerError PERIOD_CLOSED "Periodo chiuso per data 2025-01-15"])
    as [r [Hp [Hs [Hd _]]]].
  - vm_compute. reflexivity.
  - vm_compute. reflexivity.
  - vm_compute. reflexivity.
  - vm_compute. reflexivity.
  - discriminate.
  - exists r. split; [exact Hp|]. split; [exact Hs|]. rewrite Hd. reflexivity.
Defined.

(** C2. [post] lets an exception of the validator through: the line amount
    [Decimal("NaN")] makes [validate_no_negative] raise InvalidOperation on
    [l.dare < 0], the call is outside the [try], and [post] raises instead of
    returning an EntryResult - whatever the repositories, the storage and the
    connection. *)
Theorem post_raises_on_nan_amount (env : Env) now user_id accounts periods entries
    series key (c : Conn) :
  post env now nan_entry user_id accounts periods entries series key c
  = (c, Raise InvalidOperation).
Proof.
  unfold post, validate.
  replace (validate_balanced nan_entry)
    with (Ok [mkLedgerError UNBALANCED "Entry non bilanciata: Dare=NaN, Avere=100.00"])
    by (vm_compute; reflexivity).
  replace (validate_no_negative nan_entry)
    with (@Raise (list LedgerError) InvalidOperation)
    by (vm_compute; reflexivity).
  reflexivity.
Qed.

(** What the [except] clause builds: kind DB_ERROR, or IDEMPOTENCE_CONFLICT
    when the text holds the marker; the message is type name, colon, text. *)
Lemma exception_result_shape (e : PyExn) :
  let r := exception_result e in
  let msg := exn_type e ++ ": " ++ exn_text e in
  success r = false /\ errors r = [msg] /\
  error_details r =
    [mkLedgerError (if str_contains "Idempotence conflict" msg
                    then IDEMPOTENCE_CONFLICT else DB_ERROR) msg].
Proof. cbv zeta. unfold exception_result, failure_result. cbn. auto. Qed.

(** Past the validator nothing escapes: [post] returns a result, and when
    the transaction raised [e] the result is [exception_result e]. *)
Lemma post_total_after_validation (env : Env) now entry user_id accounts periods entries
    series key (c : Conn) :
  validate entry accounts periods entries = Ok [] ->
  exists c' r,
    post env now entry user_id accounts periods entries series key c = (c', Ok r) /\
    (forall e, transaction env (post_body env now entry user_id series key) c
               = (c', Raise e) -> r = exception_result e).
Proof.
  intros Hv. unfold post. rewrite Hv.
  destruct (transaction env _ c) as [c' [r|e]] eqn:E.
  - exists c', r. split; [reflexivity|]. intros e [=].
  - exists c', (exception_result e). split; [reflexivity|]. now intros e' [= <-].
Qed.

(** ** Periods *)

(** C3. A date inside a period whose status is 'finalized' is not rejected:
    the query of [is_open_by_date] only looks for [status='closed'], so
    [validate] reports nothing for the 2024-06-15 entry although the year
    2024 is finalized, and the entry is posted. *)
Theorem finalized_period_not_rejected :
  let c := fresh_conn finalized_db in
  date_re_match (date entry_2024) = true /\
  (exists p, In p (tbl_periods finalized_db) /\
             per_status p = "finalized" /\
             text_between (date entry_2024) (per_start_date p) (per_end_date p) = true) /\
  validate entry_2024 (AccountsRepoDB no_faults c) (PeriodsRepoDB no_faults c)
           (EntriesRepoDB no_faults c) = Ok [] /\
  exists c', post_db no_faults sample_now entry_2024 "tester" None None c
             = (c', Ok (success_result 1 "2024/GEN/000001")).
Proof.
  cbv zeta. split; [reflexivity|]. split.
  - eexists. split; [left; reflexivity|]. split; reflexivity.
  - split; [vm_compute; reflexivity|]. eexists. vm_compute. reflexivity.
Qed.

(** A date counts as open exactly when no row with status 'closed' covers it. *)
Lemma is_open_iff_no_closed_period (env : Env) (c : Conn) (iso_date : string) :
  stmt_fault env SRepoPeriod = None ->
  (is_open_by_date (PeriodsRepoDB env c) iso_date = Ok true <->
   forall p x, In p (tbl_periods (db c)) -> per_status p = "closed" ->
               sqlite_date iso_date = Some x ->
               text_between x (per_start_date p) (per_end_date p) = false) /\
  (is_open_by_date (PeriodsRepoDB env c) iso_date = Ok true \/
   is_open_by_date (PeriodsRepoDB env c) iso_date = Ok false).
Proof.
  intros Hf. cbn [is_open_by_date PeriodsRepoDB]. unfold repo_query. rewrite Hf.
  split; [|destruct (closed_hit (db c) iso_date); auto].
  unfold closed_hit. split.
  - intros [= H]. apply negb_true_iff in H.
    intros p x Hp Hs Hx.
    destruct (text_between x (per_start_date p) (per_end_date p)) eqn:E; [|reflexivity].
    assert (existsb (fun p => (per_status p =? "closed")%string &&
                              match sqlite_date iso_date with
                              | Some x => text_between x (per_start_date p) (per_end_date p)
                              | None => false
                              end) (tbl_periods (db c)) = true); [|congruence].
    apply existsb_exists. exists p. split; [assumption|].
    rewrite Hs, Hx, E. reflexivity.
  - intros H. f_equal. apply negb_true_iff.
    destruct (existsb _ (tbl_periods (db c))) eqn:E; [|reflexivity].
    apply existsb_exists in E. destruct E as [p [Hp Hc]].
    apply andb_true_iff in Hc. destruct Hc as [Hs Hb].
    apply String.eqb_eq in Hs.
    destruct (sqlite_date iso_date) as [x|]; [|discriminate].
    rewrite (H p x Hp Hs eq_refl) in Hb. discriminate.
Qed.

(** A date inside a period whose status is 'closed' is rejected. *)
Lemma closed_period_rejected (env : Env) (c : Conn) entry accounts entries
    (p : PeriodRow) (x : string) (errs : list LedgerError) :
  date_re_match (date entry) = true ->
  In p (tbl_periods (db c)) ->
  per_status p = "closed" ->
  sqlite_date (date entry) = Some x ->
  text_between x (per_start_date p) (per_end_date p) = true ->
  validate entry accounts (PeriodsRepoDB env c) entries = Ok errs ->
  In PERIOD_CLOSED (map code errs).
Proof.
  intros Hre Hp Hs Hx Hb Hv.
  destruct (validate_ok_inv _ _ _ _ _ Hv)
    as [e1 [e2 [e3 [e4 [e5 [e6 [_ [_ [_ [H4 [_ [_ ->]]]]]]]]]]]].
  unfold validate_period_open in H4. rewrite Hre in H4. cbn [negb] in H4.
  cbn [is_open_by_date PeriodsRepoDB] in H4. unfold repo_query in H4.
  destruct (stmt_fault env SRepoPeriod); [discriminate|]. cbn [bindR] in H4.
  assert (Hhit : closed_hit (db c) (date entry) = true).
  { unfold closed_hit. apply existsb_exists. exists p. split; [assumption|].
    rewrite Hs, Hx, Hb. reflexivity. }
  rewrite Hhit in H4. cbn [negb] in H4. injection H4 as <-.
  rewrite !map_app, !in_app_iff. cbn [map In code]. tauto.
Qed.

(** ** Closures *)

(** C5. With a monthly row of the year that is not 'closed', [finalize_year]
    does not return a failure result: building it evaluates
    [ErrorCode.PERIOD_OPEN], which is not a member of the enumeration, and
    the call raises AttributeError; the connection is left as it was. *)
Theorem finalize_year_raises_on_open_month (env : Env) now (year user_id descrizione : string)
    (c : Conn) (p : PeriodRow) :
  stmt_fault env SFinalizeSelect = None ->
  In p (tbl_periods (db c)) ->
  per_year p = year ->
  per_month p <> None ->
  per_status p <> "closed" ->
  finalize_year env now year user_id descrizione c
  = (c, Raise (mkExn "AttributeError" "PERIOD_OPEN")).
Proof.
  intros Hf Hp Hy Hm Hs.
  unfold finalize_year, bindM, query, exec. rewrite Hf.
  assert (Hex : existsb (fun r => negb (per_status r =? "closed")%string)
                  (filter (fun q => (per_year q =? year)%string &&
                                    match per_month q with Some _ => true | None => false end)
                          (tbl_periods (db c))) = true).
  { apply existsb_exists. exists p. split.
    - apply filter_In. split; [assumption|].
      rewrite Hy, String.eqb_refl. destruct (per_month p); [reflexivity|congruence].
    - apply negb_true_iff, String.eqb_neq, Hs. }
  cbn [db saved tx_log]. rewrite Hex. destruct c; reflexivity.
Qed.

Lemma finalize_year_raises_on_open_month_witness :
  finalize_year no_faults sample_now "2025" "tester" "Finalizzazione anno"
                (fresh_conn months_db)
  = (fresh_conn months_db, Raise (mkExn "AttributeError" "PERIOD_OPEN")).
Proof.
  apply (finalize_year_raises_on_open_month no_faults sample_now "2025" "tester"
           "Finalizzazione anno" (fresh_conn months_db)
           (mkPeriodRow "2025" (Some "03") "2025-03-01" "2025-03-31" "open")).
  - reflexivity.
  - right. right. left. reflexivity.
  - reflexivity.
  - discriminate.
  - discriminate.
Defined.


(** Without storage faults [log_action] succeeds. *)
Lemma log_action_no_faults now action user_id payload entry_id (c : Conn) :
  exists c', log_action no_faults now action user_id payload entry_id c = (c', Ok tt).
Proof.
  unfold log_action, bindM, query, exec, conn_commit, retM.
  cbn [stmt_fault no_faults].
  destruct (truthy_int entry_id); [destruct entry_id as [eid|]|];
    cbn [db saved tx_log]; destruct (saved c); eexists; reflexivity.
Qed.

(** The other half of C5 holds: with every monthly row of the year closed
    (and no storage fault) [finalize_year] succeeds, the annual row of the
    year becomes 'finalized', and no entry and no line is written. *)
Lemma finalize_year_when_months_closed (now year user_id descrizione : string) (c : Conn) :
  saved c = None ->
  (forall p, In p (tbl_periods (db c)) -> per_year p = year -> per_month p <> None ->
             per_status p = "closed") ->
  exists c',
    finalize_year no_faults now year user_id descrizione c
    = (c', Ok (mkEntryResult true None None [] [])) /\
    tbl_periods (db c')
    = map (fun p => if (per_year p =? year)%string &&
                       match per_month p with Some _ => false | None => true end
                    then mkPeriodRow (per_year p) (per_month p)
                           (per_start_date p) (per_end_date p) "finalized"
                    else p)
          (tbl_periods (db c)) /\
    tbl_entries (db c') = tbl_entries (db c) /\
    tbl_entry_lines (db c') = tbl_entry_lines (db c).
Proof.
  intros Hs Hall. destruct c as [d s l]. cbn [db saved tx_log] in *. subst s.
  unfold finalize_year, bindM at 1, query, exec at 1.
  cbn [stmt_fault no_faults db saved tx_log].
  assert (Hex : existsb (fun r => negb (per_status r =? "closed")%string)
                  (filter (fun q => (per_year q =? year)%string &&
                                    match per_month q with Some _ => true | None => false end)
                          (tbl_periods d)) = false).
  { apply not_true_is_false. intros H. apply existsb_exists in H.
    destruct H as [p [Hp Hn]]. apply filter_In in Hp. destruct Hp as [Hp Hc].
    apply andb_true_iff in Hc. destruct Hc as [Hy Hm]. apply String.eqb_eq in Hy.
    rewrite (Hall p Hp Hy) in Hn; [discriminate|].
    destruct (per_month p); discriminate. }
  rewrite Hex.
  unfold bindM, transaction, exec, conn_commit, retM.
  cbn [begin_loop max_retries begin_fault stmt_fault no_faults db saved tx_log].
  match goal with
  | |- context [log_action no_faults ?n ?a ?u ?p ?e ?cc] =>
      destruct (log_action_no_faults n a u p e cc) as [c' Hl];
      pose proof (log_action_ok_db _ _ _ _ _ _ _ _ Hl) as [Hdb _]
  end.
  rewrite Hl. exists c'. split; [reflexivity|]. rewrite Hdb.
  cbn [db]. destruct d; repeat split.
Qed.

(** ** Successful postings *)

Lemma conn_commit_ok (env : Env) (tag : Stmt) (c c' : Conn) :
  conn_commit env tag c = (c', Ok tt) -> db c' = db c /\ saved c' = None.
Proof.
  unfold conn_commit. destruct (saved c) eqn:Es.
  - destruct (stmt_fault env tag); [discriminate|]. intros [= <-]. auto.
  - intros [= <-]. auto.
Qed.

Lemma transaction_ok {A : Type} (env : Env) (body : M A) (c c' : Conn) (a : A) :
  transaction env body c = (c', Ok a) ->
  exists c1 c2,
    begin_loop env max_retries 0 c = (c1, Ok tt) /\
    body c1 = (c2, Ok a) /\
    conn_commit env STxCommit c2 = (c', Ok tt).
Proof.
  unfold transaction.
  destruct (begin_loop env max_retries 0 c) as [c1 [[]|e]]; [|discriminate].
  destruct (body c1) as [c2 [x|e]] eqn:Eb; [|discriminate].
  destruct (conn_commit env STxCommit c2) as [c3 [[]|e]] eqn:Ec; [|discriminate].
  intros [= <- <-]. exists c1, c2. auto.
Qed.

Lemma post_success_inv (env : Env) now entry user_id accounts periods entries
    series key (c c' : Conn) (r : EntryResult) :
  post env now entry user_id accounts periods entries series key c = (c', Ok r) ->
  success r = true ->
  validate entry accounts periods entries = Ok [] /\
  transaction env (post_body env now entry user_id series key) c = (c', Ok r).
Proof.
  unfold post. destruct (validate entry accounts periods entries) as [[|e es]|e].
  - destruct (transaction env _ c) as [c1 [r1|e1]].
    + intros [= <- <-] _. auto.
    + intros [= <- <-]. discriminate.
  - intros [= <- <-]. discriminate.
  - discriminate.
Qed.

(** A posting that is not a replay runs steps 4 to 9. *)
Lemma post_body_fresh (env : Env) now entry user_id series key (c c' : Conn)
    (r : EntryResult) :
  post_body env now entry user_id series key c = (c', Ok r) ->
  truthy_str key = false \/
    (exists k, key = Some k /\ find_idempotence k (tbl_idempotence (db c)) = None) ->
  post_fresh env now entry user_id (str_take 4 (date entry))
             (effective_series series entry) key c = (c', Ok r).
Proof.
  unfold post_body. intros H Hk.
  destruct (truthy_str key) eqn:Et; [|exact H].
  destruct key as [k|]; [|exact H].
  destruct Hk as [|[k' [[= <-] Hfind]]]; [discriminate|].
  apply bindM_ok in H. destruct H as [c1 [content [H1 H]]].
  apply liftR_ok in H1. destruct H1 as [_ ->].
  apply bindM_ok in H. destruct H as [c2 [existing [H2 H]]].
  apply query_ok in H2. destruct H2 as [_ [-> ->]].
  rewrite Hfind in H. exact H.
Qed.

Lemma effective_series_spec (series : option string) (entry : EntryDTO) :
  effective_series series entry = spec_series series entry.
Proof.
  unfold effective_series, spec_series, or_str, truthy_str.
  destruct series as [[|a s]|]; destruct (protocol_series entry) as [[|b t]|]; reflexivity.
Qed.

(** C8, as amended. A successful posting that is not the replay of a stored
    key returns exactly year/SERIES/counter, where year is the first four
    characters of the date, SERIES the upper case of the caller-supplied
    series, else of [entry.protocol_series], else GEN, and counter the value
    of the (year, SERIES) counter after its increment, formatted with [06d];
    the counter row and the entry row hold the same values. *)
Theorem protocol_format (env : Env) now entry user_id accounts periods entries
    series key (c c' : Conn) (r : EntryResult) :
  post env now entry user_id accounts periods entries series key c = (c', Ok r) ->
  success r = true ->
  truthy_str key = false \/
    (exists k, key = Some k /\ find_idempotence k (tbl_idempotence (db c)) = None) ->
  let year := str_take 4 (date entry) in
  let SERIES := spec_series series entry in
  let counter := next_counter year SERIES (tbl_protocol_counters (db c)) in
  let proto := year ++ "/" ++ SERIES ++ "/" ++ format_06d counter in
  protocol r = Some proto /\
  (exists crow, find_counter year SERIES (tbl_protocol_counters (db c')) = Some crow
                /\ ctr_counter crow = counter) /\
  (exists erow, In erow (tbl_entries (db c')) /\ Some (ent_id erow) = entry_id r
                /\ ent_protocol erow = proto /\ ent_protocol_series erow = SERIES
                /\ ent_protocol_no erow = counter).
Proof.
  intros Hp Hs Hk. cbv zeta.
  apply post_success_inv in Hp; [|exact Hs]. destruct Hp as [_ Ht].
  apply transaction_ok in Ht. destruct Ht as [c1 [c2 [Hb [Hbody Hc]]]].
  apply begin_loop_ok in Hb. destruct Hb as [_ ->].
  apply post_body_fresh in Hbody; [|exact Hk].
  apply post_fresh_ok in Hbody. cbv zeta in Hbody. cbn [db] in Hbody.
  destruct Hbody as [-> [_ [[erow [He [Hid [Hpr [Hse Hno]]]]] [[crow [Hf Hcn]] _]]]].
  apply conn_commit_ok in Hc. destruct Hc as [Hdb _]. rewrite Hdb.
  rewrite <- effective_series_spec.
  split; [reflexivity|]. split.
  - exists crow. auto.
  - exists erow. rewrite He. split; [apply in_or_app; right; now left|].
    cbn [entry_id success_result]. rewrite Hid. auto.
Qed.

Lemma protocol_format_witness :
  exists c',
    post_db no_faults sample_now sales_invoice_adj "tester" None None
            (fresh_conn sample_db)
    = (c', Ok (success_result 1 "2025/ADJ/000001")) /\
    spec_series None sales_invoice_adj = "ADJ" /\
    next_counter "2025" "ADJ" (tbl_protocol_counters sample_db) = 1 /\
    protocol (success_result 1 "2025/ADJ/000001")
    = Some ("2025" ++ "/" ++ "ADJ" ++ "/" ++ format_06d 1).
Proof.
  eexists. split; [vm_compute; reflexivity|]. split; [reflexivity|].
  split; [reflexivity|].
  refine (proj1 (protocol_format no_faults sample_now sales_invoice_adj "tester"
                   (AccountsRepoDB no_faults (fresh_conn sample_db))
                   (PeriodsRepoDB no_faults (fresh_conn sample_db))
                   (EntriesRepoDB no_faults (fresh_conn sample_db))
                   None None (fresh_conn sample_db) _ _ _ _ _)).
  - vm_compute. reflexivity.
  - reflexivity.
  - left. reflexivity.
Defined.

(** C8, as stated, fails for a replay: a second posting with the stored key
    and the same content but series [close] succeeds and returns the stored
    protocol of series GEN, not one of series CLOSE. *)
Lemma protocol_of_replay_keeps_first_series :
  exists c' r,
    post_db no_faults sample_later sales_invoice_adj "tester" (Some "close")
            (Some "IDEM-1") conn_after_invoice = (c', Ok r) /\
    success r = true /\
    protocol r = Some "2025/GEN/000001" /\
    str_take 4 (date sales_invoice_adj) = "2025" /\
    spec_series (Some "close") sales_invoice_adj = "CLOSE" /\
    forall n, protocol r <> Some ("2025" ++ "/" ++ "CLOSE" ++ "/" ++ format_06d n).
Proof.
  eexists. eexists. split; [vm_compute; reflexivity|].
  repeat split. cbn [protocol success_result append]. discriminate.
Qed.

(** ** Idempotence *)




Lemma same_content_idempotence (e1 e2 : EntryDTO) (user_id : string) :
  same_content e1 e2 -> idempotence_content e2 user_id = idempotence_content e1 user_id.
Proof.
  intros [H1 [H2 [H3 [H4 [H5 [H6 [H7 [H8 [H9 [H10 H11]]]]]]]]]].
  unfold idempotence_content, entry_content.
  rewrite H1, H2, H3, H4, H5, H6, H7, H8, H9, H10, H11. reflexivity.
Qed.



(** ** Atomicity *)

(** C1. When the INSERT INTO idempotence fails, the posting is not rolled
    back: [log_action] has already committed on the shared connection, so
    the caller gets a DB_ERROR failure while the entry row, its three lines,
    the protocol counter and the audit row are committed and the idempotence
    row is missing. *)
Theorem post_partial_commit_on_idempotence_failure :
  exists c',
    post_db idempotence_insert_fails sample_now sales_invoice "tester" (Some "gen")
            (Some "IDEM-1") (fresh_conn sample_db)
    = (c', Ok (failure_result
                 [mkLedgerError DB_ERROR "OperationalError: database or disk is full"]
                 ["OperationalError: database or disk is full"])) /\
    tx_log c' = [EvBegin; EvCommit] /\
    map ent_id (tbl_entries (committed c')) = [1] /\
    map ent_protocol (tbl_entries (committed c')) = ["2025/GEN/000001"] /\
    map ln_entry_id (tbl_entry_lines (committed c')) = [1; 1; 1] /\
    map ctr_counter (tbl_protocol_counters (committed c')) = [1] /\
    map aud_entry_id (tbl_audit_log (committed c')) = [Some 1] /\
    tbl_idempotence (committed c') = [].
Proof.
  eexists. split; [vm_compute; reflexivity|]. vm_compute. repeat split.
Qed.

(** ** The audit chain, end to end *)

(** Where the chain does verify.  Starting from an audit log in rowid order
    whose chains verify (an empty log is one), after any sequence of
    successful [log_action] calls - for any entry ids, with payloads of the
    [json] type, whose dictionaries have string keys at every level -
    [verify_chain] returns True for every entry id other than 0.  The entry
    id 0 and the dictionaries with integer keys are the two cases in which
    it does not, shown after this. *)
Theorem verify_chain_after_log_actions (env : Env) (calls : list AuditCall)
    (c c' : Conn) (entry_id : Z) :
  audit_inv (tbl_audit_log (db c)) ->
  Forall (fun k => json_wf (JDict (ac_payload k)) = true) calls ->
  log_actions env calls c = (c', Ok tt) ->
  stmt_fault env SSelectAuditChain = None ->
  entry_id <> 0 ->
  verify_chain env entry_id c' = Ok true.
Proof.
  intros Hinv Hwf Hrun Hf Hne.
  apply verify_chain_of_inv; [|assumption|assumption].
  pose proof (log_actions_inv env calls c Hinv Hwf) as H.
  rewrite Hrun in H. exact H.
Qed.

Lemma verify_chain_after_log_actions_witness :
  exists c',
    log_actions no_faults sample_calls (fresh_conn empty_db) = (c', Ok tt) /\
    map aud_entry_id (tbl_audit_log (db c')) = [Some 1; Some 2; Some 1] /\
    verify_chain no_faults 1 c' = Ok true.
Proof.
  eexists. split; [vm_compute; reflexivity|]. split; [vm_compute; reflexivity|].
  eapply (verify_chain_after_log_actions no_faults sample_calls (fresh_conn empty_db)).
  - apply audit_inv_empty.
  - repeat constructor.
  - vm_compute. reflexivity.
  - reflexivity.
  - discriminate.
Defined.

(** ** The audit log on Python values *)

Lemma py_dumps_of_json (v : json) : py_dumps (py_of_json v) = json_dumps v.
Proof.
  induction v as [| b | z | s | l IH | items IH] using json_nested_ind;
    try reflexivity.
  - cbn [py_of_json py_dumps json_dumps]. rewrite map_map.
    f_equal. f_equal. f_equal.
    induction IH as [|x r Hx _ IHr]; [reflexivity|].
    cbn [map]. rewrite Hx, IHr. reflexivity.
  - cbn [py_of_json py_dumps json_dumps]. rewrite map_map. cbn [fst snd].
    f_equal. f_equal. f_equal. f_equal. f_equal.
    induction IH as [|x r Hx _ IHr]; [reflexivity|].
    cbn [map]. rewrite Hx, IHr. reflexivity.
Qed.

Lemma dict_set_map {A B : Type} (f : A -> B) (k : string) (v : A)
    (items : list (string * A)) :
  dict_set k (f v) (map (fun kv => (fst kv, f (snd kv))) items)
  = map (fun kv => (fst kv, f (snd kv))) (dict_set k v items).
Proof.
  induction items as [|[k' v'] r IH]; [reflexivity|].
  cbn [map dict_set fst snd]. destruct (k' =? k)%string; [reflexivity|].
  rewrite IH. reflexivity.
Qed.

(** On a payload of [json] values [log_action_py] is [log_action]. *)
Lemma log_action_py_of_json (env : Env) now action user_id
    (payload : list (string * json)) (entry_id : option Z) (c : Conn) :
  log_action_py env now action user_id
    (map (fun kv => (fst kv, py_of_json (snd kv))) payload) entry_id c
  = log_action env now action user_id payload entry_id c.
Proof.
  unfold log_action_py, log_action, payload_hash.
  change (PStr now) with (py_of_json (JStr now)).
  rewrite (dict_set_map py_of_json).
  change (PDict (map (fun kv => (fst kv, py_of_json (snd kv)))
                     (dict_set "timestamp" (JStr now) payload)))
    with (py_of_json (JDict (dict_set "timestamp" (JStr now) payload))).
  rewrite py_dumps_of_json. reflexivity.
Qed.

(** C6. [verify_chain] returns False after successful [log_action] calls,
    on a log that was empty, in two ways.  For the entry id 0: [log_action]
    tests [if entry_id:], which is false for 0, so the second row written
    for the entry 0 gets no [prev_hash] and [verify_chain(0)], which does
    select the rows with [entry_id = 0], finds the chain broken.  For a
    payload that holds a dictionary with the integer keys 1, 2 and 10:
    [_payload_hash] is taken on the text that lists the keys as numbers
    ("1", "2", "10"), [verify_chain] hashes the text of the payload it read
    back, whose keys are strings and sort as "1", "10", "2", and the stored
    [curr_hash] is not the one it computes. *)
Theorem verify_chain_false_after_log_actions :
  (exists c',
     log_actions no_faults zero_calls (fresh_conn empty_db) = (c', Ok tt) /\
     map aud_entry_id (tbl_audit_log (db c')) = [Some 0; Some 0] /\
     map aud_prev_hash (tbl_audit_log (db c')) = [None; None] /\
     verify_chain no_faults 0 c' = Ok false) /\
  (exists c' row,
     log_action_py no_faults sample_now "POST" "tester" numbered_payload (Some 1)
                   (fresh_conn empty_db) = (c', Ok tt) /\
     tbl_audit_log (db c') = [row] /\
     aud_entry_id row = Some 1 /\ aud_prev_hash row = None /\
     aud_payload row
     = py_dumps (PDict (dict_set "timestamp" (PStr sample_now) numbered_payload)) /\
     aud_curr_hash row = Sha256.hexdigest (aud_payload row) /\
     json_loads (aud_payload row) = Ok numbered_payload_read /\
     payload_hash numbered_payload_read <> aud_curr_hash row /\
     verify_chain no_faults 1 c' = Ok false).
Proof.
  split.
  - eexists. split; [vm_compute; reflexivity|].
    repeat split; vm_compute; reflexivity.
  - eexists. eexists. split; [vm_compute; reflexivity|].
    split; [reflexivity|].
    split; [reflexivity|]. split; [reflexivity|].
    split; [vm_compute; reflexivity|]. split; [vm_compute; reflexivity|].
    split; [vm_compute; reflexivity|].
    split; [vm_compute; discriminate|vm_compute; reflexivity].
Qed.

(* ================================================================== *)
(** * Further properties of the code *)

(** ** Computations that raise *)

Lemma bindM_raise {A B : Type} (m : M A) (k : A -> M B) (c c' : Conn) (e : PyExn) :
  bindM m k c = (c', Raise e) ->
  m c = (c', Raise e) \/ exists c1 a, m c = (c1, Ok a) /\ k a c1 = (c', Raise e).
Proof.
  unfold bindM. destruct (m c) as [c1 [a|e1]].
  - intros H. right. now exists c1, a.
  - intros [= <- <-]. now left.
Qed.

(** Statements, queries and pure steps leave the transaction state alone. *)
Lemma exec_saved {A : Type} (env : Env) (tag : Stmt) (f : DB -> Res (DB * A))
    (c c' : Conn) (r : Res A) :
  exec env tag f c = (c', r) -> saved c' = saved c.
Proof.
  unfold exec. destruct (stmt_fault env tag); [intros [= <- _]; reflexivity|].
  destruct (f (db c)) as [[d' x]|e]; intros [= <- _]; reflexivity.
Qed.

Lemma exec_raise {A : Type} (env : Env) (tag : Stmt) (f : DB -> Res (DB * A))
    (c c' : Conn) (e : PyExn) :
  exec env tag f c = (c', Raise e) -> c' = c.
Proof.
  unfold exec. destruct (stmt_fault env tag); [intros [= <- _]; reflexivity|].
  destruct (f (db c)) as [[d' x]|e']; [discriminate|]. intros [= <- _]. reflexivity.
Qed.

Lemma liftR_saved {A : Type} (r0 : Res A) (c c' : Conn) (r : Res A) :
  liftR r0 c = (c', r) -> saved c' = saved c.
Proof. unfold liftR. intros [= <- _]. reflexivity. Qed.

Lemma retM_saved {A : Type} (x : A) (c c' : Conn) (r : Res A) :
  retM x c = (c', r) -> saved c' = saved c.
Proof. unfold retM. intros [= <- _]. reflexivity. Qed.

Lemma raiseM_saved {A : Type} (e : PyExn) (c c' : Conn) (r : Res A) :
  @raiseM A e c = (c', r) -> saved c' = saved c.
Proof. unfold raiseM. intros [= <- _]. reflexivity. Qed.

Lemma bindM_saved {A B : Type} (m : M A) (k : A -> M B) :
  (forall c c' r, m c = (c', r) -> saved c' = saved c) ->
  (forall a c c' r, k a c = (c', r) -> saved c' = saved c) ->
  forall c c' r, bindM m k c = (c', r) -> saved c' = saved c.
Proof.
  intros Hm Hk c c' r. unfold bindM.
  destruct (m c) as [c1 [a|e]] eqn:E.
  - intros H. rewrite (Hk _ _ _ _ H). exact (Hm _ _ _ E).
  - intros [= <- _]. exact (Hm _ _ _ E).
Qed.

Lemma bindM_raise_saved {A B : Type} (m : M A) (k : A -> M B) :
  (forall c c' r, m c = (c', r) -> saved c' = saved c) ->
  (forall a c c' e, k a c = (c', Raise e) -> saved c' = saved c) ->
  forall c c' e, bindM m k c = (c', Raise e) -> saved c' = saved c.
Proof.
  intros Hm Hk c c' e H. apply bindM_raise in H.
  destruct H as [H|[c1 [a [H1 H2]]]].
  - exact (Hm _ _ _ H).
  - rewrite (Hk _ _ _ _ H2). exact (Hm _ _ _ H1).
Qed.

Lemma next_protocol_saved (env : Env) (year series : string) (c c' : Conn)
    (r : Res (Z * string)) :
  _next_protocol env year series c = (c', r) -> saved c' = saved c.
Proof.
  revert c c' r. unfold _next_protocol.
  apply bindM_saved; [intros *; apply exec_saved|intros _].
  apply bindM_saved; [intros *; apply exec_saved|intros _].
  apply bindM_saved; [intros *; apply exec_saved|intros [row|]].
  - intros *; apply retM_saved.
  - intros *; apply raiseM_saved.
Qed.

Lemma insert_lines_saved (env : Env) (entry_id : Z) (ls : list LineDTO) (i : nat)
    (c c' : Conn) (r : Res unit) :
  insert_lines env entry_id i ls c = (c', r) -> saved c' = saved c.
Proof.
  revert i c c' r. induction ls as [|l ls IH]; intros i; cbn [insert_lines].
  - intros *; apply retM_saved.
  - apply bindM_saved; [intros *; apply liftR_saved|intros d].
    apply bindM_saved; [intros *; apply liftR_saved|intros a].
    apply bindM_saved; [intros *; apply exec_saved|intros _].
    apply IH.
Qed.

(** [log_action] that raises has not committed. *)
Lemma log_action_raise (env : Env) now action user_id payload entry_id
    (c c' : Conn) (e : PyExn) :
  log_action env now action user_id payload entry_id c = (c', Raise e) ->
  saved c' = saved c.
Proof.
  unfold log_action, bindM, query, exec, conn_commit, retM.
  destruct (truthy_int entry_id); [destruct entry_id as [eid|]|];
    destruct (stmt_fault env SSelectAuditLast);
    destruct (stmt_fault env SInsertAudit);
    destruct (stmt_fault env SAuditCommit);
    destruct (saved c) eqn:Es;
    cbn; rewrite ?Es; intros [= <- _]; cbn; auto.
Qed.

(** Without an idempotence key, steps 4 to 9 that raise have not committed. *)
Lemma post_fresh_raise (env : Env) now entry user_id (year series : string)
    (key : option string) (c c' : Conn) (e : PyExn) :
  truthy_str key = false ->
  post_fresh env now entry user_id year series key c = (c', Raise e) ->
  saved c' = saved c.
Proof.
  intros Hk. revert c c' e. unfold post_fresh.
  apply bindM_raise_saved; [intros *; apply next_protocol_saved|intros np].
  apply bindM_raise_saved; [intros *; apply liftR_saved|intros ta].
  apply bindM_raise_saved; [intros *; apply liftR_saved|intros vr].
  apply bindM_raise_saved; [intros *; apply liftR_saved|intros va].
  apply bindM_raise_saved; [intros *; apply exec_saved|intros eid].
  apply bindM_raise_saved; [intros *; apply insert_lines_saved|intros _].
  apply bindM_raise_saved.
  { destruct (truthy_int (reversal_of entry)); [destruct (reversal_of entry)|];
      intros *; first [apply exec_saved|apply retM_saved]. }
  intros _.
  apply bindM_raise_saved; [intros *; apply liftR_saved|intros payload].
  intros c c' e H. apply bindM_raise in H. destruct H as [H|[c1 [[] [_ H]]]].
  - exact (log_action_raise _ _ _ _ _ _ _ _ _ H).
  - rewrite Hk in H. unfold bindM, retM in H. discriminate.
Qed.

(** X1. Without an idempotence key a posting is all or nothing: when [post]
    does not return a success (it returns a failure, or the validator
    raises), the database is exactly as before and the connection is in the
    transaction state it was in. *)
Theorem post_without_key_is_atomic (env : Env) now entry user_id accounts periods
    entries series key (c c' : Conn) (res : Res EntryResult) :
  truthy_str key = false ->
  post env now entry user_id accounts periods entries series key c = (c', res) ->
  (forall r, res = Ok r -> success r = false) ->
  db c' = db c /\ saved c' = saved c.
Proof.
  intros Hk Hp Hfail. unfold post in Hp.
  destruct (validate entry accounts periods entries) as [[|err errs]|ev];
    try (injection Hp as <- _; auto; fail).
  unfold transaction in Hp.
  destruct (begin_loop env max_retries 0 c) as [c1 [[]|eb]] eqn:Eb.
  2: { apply begin_loop_raise in Eb. subst c1. injection Hp as <- _. auto. }
  apply begin_loop_ok in Eb. destruct Eb as [Hs ->].
  assert (Hbody : post_body env now entry user_id series key
                  = post_fresh env now entry user_id (str_take 4 (date entry))
                      (effective_series series entry) key).
  { unfold post_body. rewrite Hk. reflexivity. }
  rewrite Hbody in Hp.
  destruct (post_fresh env now entry user_id (str_take 4 (date entry))
              (effective_series series entry) key
              {| db := db c; saved := Some (db c); tx_log := tx_log c ++ [EvBegin] |})
    as [c2 [r|e]] eqn:Ef.
  - pose proof (post_fresh_ok _ _ _ _ _ _ _ _ _ _ Ef) as Hok. cbv zeta in Hok.
    destruct Hok as [-> [Hsaved _]].
    unfold conn_commit in Hp. rewrite Hsaved in Hp. injection Hp as <- <-.
    specialize (Hfail _ eq_refl). discriminate.
  - apply post_fresh_raise in Ef; [|exact Hk]. cbn [saved] in Ef.
    unfold conn_rollback in Hp. rewrite Ef in Hp. injection Hp as <- _.
    cbn [db saved]. auto.
Qed.

Lemma post_without_key_is_atomic_witness :
  let c := fresh_conn sample_db in
  exists c' r,
    post_db line_insert_fails sample_now sales_invoice "tester" (Some "gen") None c
    = (c', Ok r) /\
    map code (error_details r) = [DB_ERROR] /\
    db c' = db c /\ saved c' = saved c.
Proof.
  cbv zeta.
  destruct (post_db line_insert_fails sample_now sales_invoice "tester" (Some "gen") None
              (fresh_conn sample_db)) as [c' res] eqn:E.
  assert (Hres : res = Ok (failure_result
                             [mkLedgerError DB_ERROR "OperationalError: disk I/O error"]
                             ["OperationalError: disk I/O error"])).
  { apply (f_equal snd) in E. cbn [snd] in E. rewrite <- E. vm_compute. reflexivity. }
  subst res. exists c'. eexists. split; [reflexivity|]. split; [reflexivity|].
  unfold post_db in E.
  refine (post_without_key_is_atomic _ _ _ _ _ _ _ _ None _ _ _ eq_refl E _).
  intros r [= <-]. reflexivity.
Defined.

(** ** What a successful posting writes *)

Lemma find_counter_bump_other (year series y s : string) (rows : list CounterRow) :
  (y =? year)%string && (s =? series)%string = false ->
  find_counter y s
    (map (fun r => if (ctr_year r =? year)%string && (ctr_series r =? series)%string
                   then mkCounterRow (ctr_year r) (ctr_series r) (ctr_counter r + 1)
                   else r) rows)
  = find_counter y s rows.
Proof.
  intros Hne. unfold find_counter. induction rows as [|r rows IH]; cbn [find map];
    [reflexivity|].
  destruct ((ctr_year r =? year)%string && (ctr_series r =? series)%string) eqn:E.
  - cbn [ctr_year ctr_series].
    apply andb_true_iff in E. destruct E as [E1 E2].
    apply String.eqb_eq in E1, E2. rewrite E1, E2.
    rewrite (String.eqb_sym year y), (String.eqb_sym series s), Hne. exact IH.
  - destruct ((ctr_year r =? y)%string && (ctr_series r =? s)%string); [reflexivity|exact IH].
Qed.

Lemma find_counter_snoc_other (year series y s : string) (rows : list CounterRow) (z : Z) :
  (y =? year)%string && (s =? series)%string = false ->
  find_counter y s (rows ++ [mkCounterRow year series z]) = find_counter y s rows.
Proof.
  intros Hne. unfold find_counter. induction rows as [|r rows IH]; cbn [find app].
  - cbn [ctr_year ctr_series].
    rewrite (String.eqb_sym year y), (String.eqb_sym series s), Hne. reflexivity.
  - destruct ((ctr_year r =? y)%string && (ctr_series r =? s)%string); [reflexivity|exact IH].
Qed.

(** [_next_protocol] leaves the counters of the other (year, series) alone. *)
Lemma next_protocol_other (env : Env) (year series : string) (c c' : Conn) (n : Z)
    (p : string) :
  _next_protocol env year series c = (c', Ok (n, p)) ->
  (forall y s, (y =? year)%string && (s =? series)%string = false ->
     find_counter y s (tbl_protocol_counters (db c'))
     = find_counter y s (tbl_protocol_counters (db c))) /\
  exists ctrs, c' = mkConn (set_protocol_counters (db c) ctrs) (saved c) (tx_log c).
Proof.
  unfold _next_protocol. intros H.
  apply bindM_ok in H. destruct H as [c1 [[] [H1 H]]].
  apply bindM_ok in H. destruct H as [c2 [[] [H2 H]]].
  apply bindM_ok in H. destruct H as [c3 [row [H3 H]]].
  apply exec_ok in H1. destruct H1 as [_ [d1 [[= <-] ->]]].
  apply exec_ok in H2. destruct H2 as [_ [d2 [[= <-] ->]]].
  apply query_ok in H3. destruct H3 as [_ [-> ->]].
  cbn [db saved tx_log] in H.
  assert (Hc : c' = {| db := set_protocol_counters
                         match find_counter year series (tbl_protocol_counters (db c)) with
                         | Some _ => db c
                         | None => set_protocol_counters (db c)
                                     (tbl_protocol_counters (db c)
                                      ++ [mkCounterRow year series 0])
                         end
                         (map (fun r => if (ctr_year r =? year)%string
                                           && (ctr_series r =? series)%string
                                        then mkCounterRow (ctr_year r) (ctr_series r)
                                               (ctr_counter r + 1)
                                        else r)
                              (tbl_protocol_counters
                                 match find_counter year series
                                         (tbl_protocol_counters (db c)) with
                                 | Some _ => db c
                                 | None => set_protocol_counters (db c)
                                             (tbl_protocol_counters (db c)
                                              ++ [mkCounterRow year series 0])
                                 end));
                      saved := saved c; tx_log := tx_log c |}).
  { match type of H with
    | (match ?X with _ => _ end) _ = _ => destruct X
    end; [apply retM_ok in H; destruct H as [_ ->]; reflexivity|discriminate]. }
  subst c'. cbn [db]. split.
  - intros y s Hne.
    destruct (find_counter year series (tbl_protocol_counters (db c)));
      cbn [tbl_protocol_counters set_protocol_counters];
      rewrite find_counter_bump_other by exact Hne; [reflexivity|].
    apply find_counter_snoc_other, Hne.
  - destruct c as [d sv lg]. cbn [db saved tx_log].
    destruct (find_counter year series (tbl_protocol_counters d));
      destruct d; cbn; eexists; reflexivity.
Qed.

(** The rows written by the loop of step 6. *)
Lemma insert_lines_rows (env : Env) (entry_id : Z) (ls : list LineDTO) (i : nat)
    (c c' : Conn) :
  insert_lines env entry_id i ls c = (c', Ok tt) ->
  exists rows,
    c' = mkConn (set_entry_lines (db c) (tbl_entry_lines (db c) ++ rows)) (saved c) (tx_log c)
    /\ Forall2 (fun l row =>
                  ln_entry_id row = entry_id /\ ln_account_code row = account_id l /\
                  cents (Some (dare l)) = Ok (ln_dare_cents row) /\
                  cents (Some (avere l)) = Ok (ln_avere_cents row)) ls rows.
Proof.
  revert i c. induction ls as [|l ls IH]; intros i c H; cbn [insert_lines] in H.
  - apply retM_ok in H. destruct H as [_ ->]. exists []. rewrite List.app_nil_r.
    split; [destruct c as [[] ? ?]; reflexivity|constructor].
  - apply bindM_ok in H. destruct H as [c1 [d [H1 H]]].
    apply bindM_ok in H. destruct H as [c2 [a [H2 H]]].
    apply bindM_ok in H. destruct H as [c3 [[] [H3 H]]].
    apply liftR_ok in H1. destruct H1 as [Hd ->].
    apply liftR_ok in H2. destruct H2 as [Ha ->].
    apply exec_ok in H3. destruct H3 as [_ [d3 [[= <-] ->]]].
    apply IH in H. destruct H as [rows [-> Hrows]].
    cbn [db saved tx_log tbl_entry_lines set_entry_lines].
    exists (mkLineRow entry_id (account_id l) d a :: rows).
    rewrite <- List.app_assoc. cbn [app]. split; [reflexivity|].
    constructor; [cbn; auto|exact Hrows].
Qed.

(** Every table after steps 4 to 9. *)
Lemma post_fresh_tables (env : Env) now entry user_id (year series : string)
    (key : option string) (c c' : Conn) (r : EntryResult) :
  post_fresh env now entry user_id year series key c = (c', Ok r) ->
  let n := next_counter year series (tbl_protocol_counters (db c)) in
  let proto := year ++ "/" ++ series ++ "/" ++ format_06d n in
  let id := next_id (map ent_id (tbl_entries (db c))) in
  r = success_result id proto /\
  tbl_accounts (db c') = tbl_accounts (db c) /\
  tbl_periods (db c') = tbl_periods (db c) /\
  (exists ta vr va,
     q2_opt (taxable_amount entry) = Ok ta /\ q2_opt (vat_rate entry) = Ok vr /\
     q2_opt (vat_amount entry) = Ok va /\
     tbl_entries (db c')
     = (tbl_entries (db c)
        ++ [mkEntryRow id (date entry) year proto series n (documento entry)
              (document_date entry) (cliente_fornitore entry) (descrizione entry)
              user_id (reversal_of entry) (or_str (client_reference_id entry) key)
              ta vr va None])%list) /\
  (exists rows,
     tbl_entry_lines (db c') = (tbl_entry_lines (db c) ++ rows)%list /\
     Forall2 (fun l row =>
                ln_entry_id row = id /\ ln_account_code row = account_id l /\
                cents (Some (dare l)) = Ok (ln_dare_cents row) /\
                cents (Some (avere l)) = Ok (ln_avere_cents row)) (lines entry) rows) /\
  tbl_entry_reversals (db c')
  = (tbl_entry_reversals (db c)
     ++ match reversal_of entry with
        | Some orig => if orig =? 0 then [] else [mkReversalRow id orig]
        | None => []
        end)%list /\
  (forall y s, (y =? year)%string && (s =? series)%string = false ->
     find_counter y s (tbl_protocol_counters (db c'))
     = find_counter y s (tbl_protocol_counters (db c))) /\
  (exists payload,
     canonical_payload entry user_id (Some proto) = Ok payload /\
     tbl_audit_log (db c')
     = (tbl_audit_log (db c)
        ++ [new_audit_row (tbl_audit_log (db c)) now "POST" user_id payload (Some id)])%list).
Proof.
  intros H. pose proof (post_fresh_ok _ _ _ _ _ _ _ _ _ _ H) as Hok. cbv zeta in Hok.
  destruct Hok as [Hr _]. cbv zeta. split; [exact Hr|]. clear Hr.
  unfold post_fresh in H.
  apply bindM_ok in H. destruct H as [c1 [[n p] [H1 H]]].
  pose proof (next_protocol_ok _ _ _ _ _ _ _ H1) as [Hn [Hp _]].
  apply next_protocol_other in H1. destruct H1 as [Hother [ctrs ->]].
  cbn [db] in Hother.
  cbn [fst snd] in H.
  apply bindM_ok in H. destruct H as [c2 [ta [H2 H]]].
  apply liftR_ok in H2. destruct H2 as [Hta ->].
  apply bindM_ok in H. destruct H as [c3 [vr [H3 H]]].
  apply liftR_ok in H3. destruct H3 as [Hvr ->].
  apply bindM_ok in H. destruct H as [c4 [va [H4 H]]].
  apply liftR_ok in H4. destruct H4 as [Hva ->].
  apply bindM_ok in H. destruct H as [c5 [eid [H5 H]]].
  apply exec_ok in H5. destruct H5 as [_ [d5 [[= <- <-] ->]]].
  cbn [db saved tx_log tbl_entries set_protocol_counters] in H.
  apply bindM_ok in H. destruct H as [c6 [[] [H6 H]]].
  apply insert_lines_rows in H6. destruct H6 as [lrows [-> Hrows]].
  cbn [db saved tx_log] in H.
  apply bindM_ok in H. destruct H as [c7 [[] [H7 H]]].
  assert (Hc7 :
            c7 = mkConn (set_entry_reversals
                           (set_entry_lines
                              (set_entries (set_protocol_counters (db c) ctrs)
                                 (tbl_entries (db c) ++
                                  [mkEntryRow (next_id (map ent_id (tbl_entries (db c))))
                                     (date entry) year p series n (documento entry)
                                     (document_date entry) (cliente_fornitore entry)
                                     (descrizione entry) user_id (reversal_of entry)
                                     (or_str (client_reference_id entry) key)
                                     ta vr va None]))
                              (tbl_entry_lines (db c) ++ lrows))
                           (tbl_entry_reversals (db c)
                            ++ match reversal_of entry with
                               | Some orig =>
                                   if orig =? 0 then []
                                   else [mkReversalRow
                                           (next_id (map ent_id (tbl_entries (db c)))) orig]
                               | None => []
                               end))
                        (saved c) (tx_log c)).
  { unfold truthy_int in H7. destruct (reversal_of entry) as [orig|].
    - destruct (orig =? 0); cbn [negb] in H7.
      + apply retM_ok in H7. destruct H7 as [_ ->]. rewrite List.app_nil_r.
        destruct (db c); reflexivity.
      + apply exec_ok in H7. destruct H7 as [_ [d7 [[= <-] ->]]]. reflexivity.
    - apply retM_ok in H7. destruct H7 as [_ ->]. rewrite List.app_nil_r.
      destruct (db c); reflexivity. }
  subst c7. clear H7.
  apply bindM_ok in H. destruct H as [c8 [payload [H8 H]]].
  apply liftR_ok in H8. destruct H8 as [Hpayload ->].
  apply bindM_ok in H. destruct H as [c9 [[] [H9 H]]].
  apply log_action_ok_db in H9. destruct H9 as [Hdb9 _].
  cbn [db] in Hdb9.
  apply bindM_ok in H. destruct H as [c10 [[] [H10 H]]].
  apply retM_ok in H. destruct H as [_ ->].
  assert (Hdb10 : exists idem, db c10 = set_idempotence (db c9) idem).
  { destruct (truthy_str key); [destruct key as [k|]|].
    - apply bindM_ok in H10. destruct H10 as [c11 [content [H11 H10]]].
      apply liftR_ok in H11. destruct H11 as [_ ->].
      apply exec_ok in H10. destruct H10 as [_ [d10 [Hins ->]]].
      destruct (find_idempotence k (tbl_idempotence (db c9))); [discriminate|].
      injection Hins as <-. eexists. reflexivity.
    - apply retM_ok in H10. destruct H10 as [_ ->].
      exists (tbl_idempotence (db c9)). destruct (db c9); reflexivity.
    - apply retM_ok in H10. destruct H10 as [_ ->].
      exists (tbl_idempotence (db c9)). destruct (db c9); reflexivity. }
  destruct Hdb10 as [idem ->]. rewrite Hdb9. subst n p.
  cbn [tbl_accounts tbl_periods tbl_entries tbl_entry_lines tbl_entry_reversals
       tbl_protocol_counters tbl_audit_log set_idempotence set_audit_log
       set_entry_reversals set_entry_lines set_entries set_protocol_counters].
  split; [reflexivity|]. split; [reflexivity|]. split.
  { exists ta, vr, va. auto. }
  split.
  { exists lrows. auto. }
  split; [reflexivity|]. split.
  { intros y s Hne. exact (Hother y s Hne). }
  exists payload. auto.
Qed.

(** A successful posting that is not a replay, through [post]. *)
Lemma post_fresh_of_post (env : Env) now entry user_id accounts periods entries
    series key (c c' : Conn) (r : EntryResult) :
  post env now entry user_id accounts periods entries series key c = (c', Ok r) ->
  success r = true ->
  truthy_str key = false \/
    (exists k, key = Some k /\ find_idempotence k (tbl_idempotence (db c)) = None) ->
  validate entry accounts periods entries = Ok [] /\
  saved c = None /\
  exists c2,
    post_fresh env now entry user_id (str_take 4 (date entry))
               (effective_series series entry) key
               (mkConn (db c) (Some (db c)) (tx_log c ++ [EvBegin])) = (c2, Ok r) /\
    db c' = db c2.
Proof.
  intros Hp Hs Hk.
  apply post_success_inv in Hp; [|exact Hs]. destruct Hp as [Hv Ht].
  apply transaction_ok in Ht. destruct Ht as [c1 [c2 [Hb [Hbody Hc]]]].
  apply begin_loop_ok in Hb. destruct Hb as [Hsaved ->].
  apply post_body_fresh in Hbody; [|exact Hk].
  apply conn_commit_ok in Hc. destruct Hc as [Hdb _].
  split; [exact Hv|]. split; [exact Hsaved|]. exists c2. auto.
Qed.

(** A successful posting either ran steps 4 to 9 or replayed a stored key. *)
Lemma post_success_cases (env : Env) now entry user_id accounts periods entries
    series key (c c' : Conn) (r : EntryResult) :
  post env now entry user_id accounts periods entries series key c = (c', Ok r) ->
  success r = true ->
  validate entry accounts periods entries = Ok [] /\
  saved c = None /\
  ((exists c2,
      post_fresh env now entry user_id (str_take 4 (date entry))
                 (effective_series series entry) key
                 (mkConn (db c) (Some (db c)) (tx_log c ++ [EvBegin])) = (c2, Ok r) /\
      db c' = db c2) \/
   (db c' = db c /\
    exists k row,
      key = Some k /\ find_idempotence k (tbl_idempotence (db c)) = Some row /\
      r = success_result (idm_entry_id row) (idm_protocol row))).
Proof.
  intros Hp Hs.
  apply post_success_inv in Hp; [|exact Hs]. destruct Hp as [Hv Ht].
  apply transaction_ok in Ht. destruct Ht as [c1 [c2 [Hb [Hbody Hc]]]].
  apply begin_loop_ok in Hb. destruct Hb as [Hsaved ->].
  apply conn_commit_ok in Hc. destruct Hc as [Hdb _].
  split; [exact Hv|]. split; [exact Hsaved|].
  unfold post_body in Hbody.
  destruct (truthy_str key) eqn:Ek; [destruct key as [k|]|];
    try (left; exists c2; auto; fail).
  apply bindM_ok in Hbody. destruct Hbody as [c3 [content [H1 H]]].
  apply liftR_ok in H1. destruct H1 as [_ ->].
  apply bindM_ok in H. destruct H as [c4 [existing [H2 H]]].
  apply query_ok in H2. destruct H2 as [_ [-> ->]]. cbn [db] in H.
  destruct (find_idempotence k (tbl_idempotence (db c))) as [row|] eqn:Ef.
  - right. destruct (idm_payload_hash row =? payload_hash (JDict content))%string.
    + apply retM_ok in H. destruct H as [-> ->]. cbn [db] in Hdb.
      split; [exact Hdb|]. exists k, row. auto.
    + apply retM_ok in H. destruct H as [-> _]. discriminate.
  - left. exists c2. auto.
Qed.

(** ** Protocol numbers are never handed out twice *)

Lemma protocol_inv_no_entries (d : DB) : tbl_entries d = [] -> protocol_inv d.
Proof.
  intros H. unfold protocol_inv. rewrite H. split; [constructor|intros e []].
Qed.

(** X2. A successful posting keeps the protocols distinct: in a database
    where no two entries share (year, series, number) and no number exceeds
    the counter of its (year, series), the same holds after a successful
    [post]; the entry it inserts gets a number no entry of that year and
    series has. *)
Theorem post_keeps_protocols_distinct (env : Env) now entry user_id accounts periods
    entries series key (c c' : Conn) (r : EntryResult) :
  protocol_inv (db c) ->
  post env now entry user_id accounts periods entries series key c = (c', Ok r) ->
  success r = true ->
  protocol_inv (db c').
Proof.
  intros [Hnd Hctr] Hp Hs.
  destruct (post_success_cases _ _ _ _ _ _ _ _ _ _ _ _ Hp Hs)
    as [_ [_ [[c2 [Hf Hdb]]|[Hdb _]]]].
  2: { unfold protocol_inv. rewrite Hdb. auto. }
  pose proof (post_fresh_ok _ _ _ _ _ _ _ _ _ _ Hf) as Hok.
  apply post_fresh_tables in Hf. cbv zeta in Hf, Hok. cbn [db] in Hf, Hok.
  destruct Hok as [_ [_ [_ [[crow [Hfind Hcrow]] _]]]].
  destruct Hf as [_ [_ [_ [[ta [vr [va [_ [_ [_ He]]]]]] [_ [_ [Hother _]]]]]]].
  unfold protocol_inv. rewrite Hdb, He.
  set (year := str_take 4 (date entry)) in *.
  set (ser := effective_series series entry) in *.
  set (n := next_counter year ser (tbl_protocol_counters (db c))) in *.
  assert (Hold : forall e, In e (tbl_entries (db c)) ->
                   ent_year e = year -> ent_protocol_series e = ser ->
                   ent_protocol_no e < n).
  { intros e Hin Hy Hse. destruct (Hctr e Hin) as [cr [Hcr Hle]].
    rewrite Hy, Hse in Hcr. unfold n, next_counter. rewrite Hcr. lia. }
  split.
  - rewrite map_app. cbn [map protocol_key ent_year ent_protocol_series ent_protocol_no].
    apply NoDup_app; [exact Hnd|repeat constructor; intros []|].
    intros k Hk. cbn [In]. intros [<-|[]].
    apply in_map_iff in Hk. destruct Hk as [e [Hke Hin]].
    unfold protocol_key in Hke. injection Hke as Hy Hse Hno.
    specialize (Hold e Hin Hy Hse). lia.
  - intros e Hin. apply in_app_or in Hin. destruct Hin as [Hin|[<-|[]]].
    + destruct (Hctr e Hin) as [cr [Hcr Hle]].
      destruct ((ent_year e =? year)%string && (ent_protocol_series e =? ser)%string) eqn:E.
      * apply andb_true_iff in E. destruct E as [E1 E2].
        apply String.eqb_eq in E1, E2. rewrite E1, E2.
        exists crow. split; [exact Hfind|]. rewrite Hcrow.
        specialize (Hold e Hin E1 E2). lia.
      * exists cr. rewrite (Hother _ _ E). auto.
    + cbn [ent_year ent_protocol_series ent_protocol_no].
      exists crow. split; [exact Hfind|]. rewrite Hcrow. lia.
Qed.

Lemma post_keeps_protocols_distinct_witness :
  protocol_inv (db (fresh_conn sample_db)) /\ protocol_inv (db conn_after_invoice).
Proof.
  assert (H0 : protocol_inv (db (fresh_conn sample_db)))
    by (apply protocol_inv_no_entries; reflexivity).
  split; [exact H0|].
  refine (post_keeps_protocols_distinct no_faults sample_now sales_invoice "tester"
            (AccountsRepoDB no_faults (fresh_conn sample_db))
            (PeriodsRepoDB no_faults (fresh_conn sample_db))
            (EntriesRepoDB no_faults (fresh_conn sample_db))
            (Some "gen") (Some "IDEM-1") (fresh_conn sample_db) conn_after_invoice
            (success_result 1 "2025/GEN/000001") H0 _ eq_refl).
  vm_compute. reflexivity.
Defined.

(** ** An entry is reversed at most once *)

(** X3. Once a reversal of entry [x] has been posted, the validator rejects
    every further entry that names [x] in [reversal_of] with
    ALREADY_REVERSED. *)
Theorem second_reversal_is_rejected (env : Env) now entry user_id series key
    (c c' : Conn) (r : EntryResult) (x : Z)
    (env2 : Env) (entry2 : EntryDTO) (accounts2 : AccountRepo) (periods2 : PeriodRepo)
    (errs : list LedgerError) :
  post_db env now entry user_id series key c = (c', Ok r) ->
  success r = true ->
  truthy_str key = false \/
    (exists k, key = Some k /\ find_idempotence k (tbl_idempotence (db c)) = None) ->
  reversal_of entry = Some x ->
  x <> 0 ->
  reversal_of entry2 = Some x ->
  validate entry2 accounts2 periods2 (EntriesRepoDB env2 c') = Ok errs ->
  In ALREADY_REVERSED (map code errs).
Proof.
  intros Hp Hs Hk Hrev Hx Hrev2 Hv2. unfold post_db in Hp.
  destruct (post_fresh_of_post _ _ _ _ _ _ _ _ _ _ _ _ Hp Hs Hk)
    as [Hv [_ [c2 [Hf Hdb]]]].
  apply post_fresh_tables in Hf. cbv zeta in Hf. cbn [db] in Hf.
  destruct Hf as [_ [_ [_ [[ta [vr [va [_ [_ [_ He]]]]]] _]]]].
  assert (Hx0 : (x =? 0) = false) by (apply Z.eqb_neq, Hx).
  (* the first validation: [x] exists *)
  destruct (validate_ok_inv _ _ _ _ _ Hv)
    as [e1 [e2 [e3 [e4 [e5 [e6 [_ [_ [_ [_ [H5 [_ Happ]]]]]]]]]]]].
  assert (Hexists : existsb (fun e => ent_id e =? x) (tbl_entries (db c)) = true).
  { unfold validate_not_already_reversed in H5. rewrite Hrev, Hx0 in H5.
    cbn [ent_exists has_reversal_for EntriesRepoDB] in H5. unfold repo_query in H5.
    destruct (stmt_fault env SRepoEntry); [discriminate|]. cbn [bindR] in H5.
    destruct (existsb (fun e => ent_id e =? x) (tbl_entries (db c))); [reflexivity|].
    cbn [negb] in H5. injection H5 as <-.
    symmetry in Happ. apply app_eq_nil in Happ. destruct Happ as [_ Happ].
    apply app_eq_nil in Happ. destruct Happ as [_ Happ].
    apply app_eq_nil in Happ. destruct Happ as [_ Happ].
    apply app_eq_nil in Happ. destruct Happ as [_ Happ].
    apply app_eq_nil in Happ. destruct Happ as [Happ _]. discriminate. }
  (* the second validation *)
  destruct (validate_ok_inv _ _ _ _ _ Hv2)
    as [f1 [f2 [f3 [f4 [f5 [f6 [_ [_ [_ [_ [G5 [_ ->]]]]]]]]]]]].
  unfold validate_not_already_reversed in G5. rewrite Hrev2, Hx0 in G5.
  cbn [ent_exists has_reversal_for EntriesRepoDB] in G5. unfold repo_query in G5.
  destruct (stmt_fault env2 SRepoEntry); [discriminate|]. cbn [bindR] in G5.
  rewrite Hdb, He in G5. rewrite !existsb_app in G5. rewrite Hexists in G5.
  cbn [orb negb] in G5.
  destruct (stmt_fault env2 SRepoReversal); [discriminate|]. cbn [bindR] in G5.
  cbn [existsb ent_reversal_of] in G5. rewrite Hrev in G5. cbn [opt_Z_eqb] in G5.
  rewrite Z.eqb_refl, orb_true_r in G5. cbn [orb] in G5. injection G5 as <-.
  rewrite !map_app, !in_app_iff. cbn [map In code]. tauto.
Qed.

Lemma second_reversal_is_rejected_witness :
  exists c' errs,
    post_db no_faults sample_later reversal_of_1 "tester" None None conn_after_invoice
    = (c', Ok (success_result 2 "2025/GEN/000002")) /\
    validate reversal_of_1_again (AccountsRepoDB no_faults c') (PeriodsRepoDB no_faults c')
             (EntriesRepoDB no_faults c') = Ok errs /\
    In ALREADY_REVERSED (map code errs).
Proof.
  destruct (post_db no_faults sample_later reversal_of_1 "tester" None None
              conn_after_invoice) as [c' res] eqn:E.
  assert (Hres : res = Ok (success_result 2 "2025/GEN/000002")).
  { apply (f_equal snd) in E. cbn [snd] in E. rewrite <- E. vm_compute. reflexivity. }
  subst res.
  assert (Hc : c' = fst (post_db no_faults sample_later reversal_of_1 "tester" None None
                           conn_after_invoice)) by (rewrite E; reflexivity).
  assert (Hv : validate reversal_of_1_again (AccountsRepoDB no_faults c')
                 (PeriodsRepoDB no_faults c') (EntriesRepoDB no_faults c')
               = Ok [mkLedgerError ALREADY_REVERSED "L'entry 1 è già stata stornata"]).
  { rewrite Hc. vm_compute. reflexivity. }
  exists c'. eexists. split; [reflexivity|]. split; [exact Hv|].
  refine (second_reversal_is_rejected no_faults sample_later reversal_of_1 "tester"
            None None conn_after_invoice c' _ 1 no_faults reversal_of_1_again
            _ _ _ E eq_refl (or_introl eq_refl) eq_refl _ eq_refl Hv).
  discriminate.
Defined.

(** ** Lines accepted by the validator *)

Lemma foldR_collect_nil {B E : Type} (f : B -> Res (list E)) (ls : list B) (acc : list E) :
  foldR (fun errs l => bindR (f l) (fun es => Ok (errs ++ es)%list)) ls acc = Ok [] ->
  acc = [] /\ Forall (fun l => f l = Ok []) ls.
Proof.
  revert acc. induction ls as [|l ls IH]; intros acc; cbn [foldR].
  - intros [= ->]. split; [reflexivity|constructor].
  - destruct (f l) as [es|e] eqn:Efl; cbn [bindR]; [|discriminate].
    intros H. apply IH in H. destruct H as [Happ Hall].
    apply app_eq_nil in Happ. destruct Happ as [-> ->].
    split; [reflexivity|]. constructor; assumption.
Qed.

(** X4. On every line of an entry the validator accepts, exactly one of
    [dare] and [avere] is greater than zero and the other one equals zero
    (no NaN, no negative amount, not both sides, not an empty line). *)
Theorem validated_lines_are_one_sided (entry : EntryDTO) accounts periods entries :
  validate entry accounts periods entries = Ok [] ->
  Forall (fun l =>
            (dec_compare (dare l) dec_zero = Some Gt /\
             dec_compare (avere l) dec_zero = Some Eq) \/
            (dec_compare (dare l) dec_zero = Some Eq /\
             dec_compare (avere l) dec_zero = Some Gt))
         (lines entry).
Proof.
  intros Hv.
  destruct (validate_ok_inv _ _ _ _ _ Hv)
    as [e1 [e2 [e3 [e4 [e5 [e6 [_ [H2 [_ [_ [_ [_ Happ]]]]]]]]]]]].
  symmetry in Happ. apply app_eq_nil in Happ. destruct Happ as [_ Happ].
  apply app_eq_nil in Happ. destruct Happ as [-> _].
  unfold validate_no_negative in H2.
  apply (foldR_collect_nil line_sign_errors) in H2. destruct H2 as [_ Hall].
  eapply Forall_impl; [|exact Hall].
  intros l Hl. unfold line_sign_errors, dec_lt, dec_gt, dec_eq in Hl.
  destruct (dec_compare (dare l) dec_zero) as [[]|];
    destruct (dec_compare (avere l) dec_zero) as [[]|];
    cbn in Hl; try discriminate; auto.
Qed.

Lemma validated_lines_are_one_sided_witness :
  let c := fresh_conn sample_db in
  Forall (fun l =>
            (dec_compare (dare l) dec_zero = Some Gt /\
             dec_compare (avere l) dec_zero = Some Eq) \/
            (dec_compare (dare l) dec_zero = Some Eq /\
             dec_compare (avere l) dec_zero = Some Gt))
         (lines sales_invoice).
Proof.
  cbv zeta.
  apply (validated_lines_are_one_sided sales_invoice
           (AccountsRepoDB no_faults (fresh_conn sample_db))
           (PeriodsRepoDB no_faults (fresh_conn sample_db))
           (EntriesRepoDB no_faults (fresh_conn sample_db))).
  vm_compute. reflexivity.
Defined.

(** ** BEGIN IMMEDIATE and its retries *)

Lemma begin_loop_busy (env : Env) (c : Conn) :
  saved c = None ->
  forall (k remaining attempt : nat),
    (k <= remaining)%nat ->
    (forall i, (attempt <= i < attempt + k)%nat ->
               exists e, begin_fault env i = Some e /\ is_busy e = true) ->
    (begin_fault env (attempt + k) = None ->
     begin_loop env remaining attempt c
     = (mkConn (db c) (Some (db c)) (tx_log c ++ [EvBegin]), Ok tt)) /\
    (forall e, begin_fault env (attempt + k) = Some e ->
               is_busy e = false \/ k = remaining ->
               begin_loop env remaining attempt c = (c, Raise e)).
Proof.
  intros Hs. induction k as [|k IH]; intros remaining attempt Hle Hbusy.
  - rewrite Nat.add_0_r. split.
    + intros Hnone. destruct remaining; cbn [begin_loop]; rewrite Hs, Hnone; reflexivity.
    + intros e He Hwhy. destruct remaining; cbn [begin_loop]; rewrite Hs, He.
      * destruct (is_busy e); reflexivity.
      * destruct Hwhy as [->|]; [reflexivity|discriminate].
  - destruct remaining as [|r]; [lia|].
    destruct (Hbusy attempt ltac:(lia)) as [e0 [He0 Hb0]].
    assert (Hstep : begin_loop env (S r) attempt c = begin_loop env r (S attempt) c).
    { cbn [begin_loop]. rewrite Hs, He0, Hb0. reflexivity. }
    rewrite Hstep. replace (attempt + S k)%nat with (S attempt + k)%nat by lia.
    destruct (IH r (S attempt) ltac:(lia)) as [IH1 IH2].
    { intros i Hi. apply Hbusy. lia. }
    split; [exact IH1|].
    intros e He Hwhy. apply IH2; [exact He|]. destruct Hwhy; [auto|right; lia].
Qed.

(** X5. [DBManager.transaction] retries BEGIN IMMEDIATE while the database
    is locked or busy, at most [_max_retries] = 5 times: if the first [k]
    attempts ([k <= 5]) find it busy and the next one goes through, the
    transaction is open; an error that is not a busy one is raised at once;
    and the error of the sixth busy attempt is raised.  In both failures the
    connection is left as it was. *)
Theorem begin_immediate_retries (env : Env) (c : Conn) (k : nat) :
  saved c = None ->
  (k <= max_retries)%nat ->
  (forall i, (i < k)%nat -> exists e, begin_fault env i = Some e /\ is_busy e = true) ->
  (begin_fault env k = None ->
   begin_loop env max_retries 0 c
   = (mkConn (db c) (Some (db c)) (tx_log c ++ [EvBegin]), Ok tt)) /\
  (forall e, begin_fault env k = Some e ->
             is_busy e = false \/ k = max_retries ->
             begin_loop env max_retries 0 c = (c, Raise e)).
Proof.
  intros Hs Hk Hbusy.
  apply (begin_loop_busy env c Hs k max_retries 0%nat Hk).
  intros i Hi. apply Hbusy. lia.
Qed.

Lemma begin_immediate_retries_witness :
  let c := fresh_conn sample_db in
  begin_loop busy_twice max_retries 0 c
  = (mkConn (db c) (Some (db c)) (tx_log c ++ [EvBegin]), Ok tt).
Proof.
  cbv zeta.
  refine (proj1 (begin_immediate_retries busy_twice (fresh_conn sample_db) 2 eq_refl _ _)
                eq_refl).
  - unfold max_retries. lia.
  - intros i Hi.
    assert (Hi' : i = 0%nat \/ i = 1%nat) by lia.
    destruct Hi' as [-> | ->]; eexists; split; reflexivity.
Defined.

(** ** Dates that are no calendar dates *)

Lemma closed_hit_no_date (d : DB) (iso_date : string) :
  sqlite_date iso_date = None -> closed_hit d iso_date = false.
Proof.
  intros H. unfold closed_hit. rewrite H.
  induction (tbl_periods d) as [|p ps IH]; cbn [existsb]; [reflexivity|].
  rewrite IH, andb_false_r. reflexivity.
Qed.

(** X6. A date of the right shape that SQLite's [date()] does not accept
    (month outside 01..12 or day outside 01..31) is never found in a closed
    period: [validate_period_open] reports nothing, whatever the periods
    table holds. *)
Theorem impossible_date_is_never_closed (env : Env) (c : Conn) (entry : EntryDTO) :
  date_re_match (date entry) = true ->
  sqlite_date (date entry) = None ->
  stmt_fault env SRepoPeriod = None ->
  validate_period_open entry (PeriodsRepoDB env c) = Ok [].
Proof.
  intros Hre Hd Hf. unfold validate_period_open. rewrite Hre. cbn [negb].
  cbn [is_open_by_date PeriodsRepoDB]. unfold repo_query. rewrite Hf.
  rewrite (closed_hit_no_date _ _ Hd). reflexivity.
Qed.

Lemma impossible_date_is_never_closed_witness :
  let c := fresh_conn closed_year_db in
  validate_period_open entry_day_32 (PeriodsRepoDB no_faults c) = Ok [] /\
  validate_period_open entry_2024 (PeriodsRepoDB no_faults c) = Ok [] /\
  validate_period_open sales_invoice (PeriodsRepoDB no_faults c)
  = Ok [mkLedgerError PERIOD_CLOSED "Periodo chiuso per data 2025-01-15"] /\
  exists c', post_db no_faults sample_now entry_day_32 "tester" None None c
             = (c', Ok (success_result 1 "2025/GEN/000001")).
Proof.
  cbv zeta. split.
  - apply (impossible_date_is_never_closed no_faults (fresh_conn closed_year_db)
             entry_day_32); reflexivity.
  - split; [reflexivity|]. split; [reflexivity|].
    eexists. vm_compute. reflexivity.
Defined.

(** ** Finalizing a year *)

(** X7. With every monthly row of the year closed, no transaction open and
    no storage fault, [finalize_year] succeeds with no entry id and no
    protocol: the annual row(s) of the year become 'finalized', every other
    period row stays as it was, no entry and no line is written, one
    FINALIZE_YEAR row is appended to the audit log, and everything is
    committed. *)
Theorem finalize_year_marks_the_year (now year user_id descrizione : string) (c : Conn) :
  saved c = None ->
  (forall p, In p (tbl_periods (db c)) -> per_year p = year -> per_month p <> None ->
             per_status p = "closed") ->
  exists c',
    finalize_year no_faults now year user_id descrizione c
    = (c', Ok (mkEntryResult true None None [] [])) /\
    saved c' = None /\
    tbl_periods (db c')
    = map (fun p => if (per_year p =? year)%string &&
                       match per_month p with Some _ => false | None => true end
                    then mkPeriodRow (per_year p) (per_month p)
                           (per_start_date p) (per_end_date p) "finalized"
                    else p)
          (tbl_periods (db c)) /\
    tbl_entries (db c') = tbl_entries (db c) /\
    tbl_entry_lines (db c') = tbl_entry_lines (db c) /\
    tbl_audit_log (db c')
    = (tbl_audit_log (db c)
       ++ [new_audit_row (tbl_audit_log (db c)) now "FINALIZE_YEAR" user_id
             [("year", JStr year); ("descrizione", JStr descrizione)] None])%list.
Proof.
  intros Hs Hall. destruct c as [d s l]. cbn [db saved tx_log] in *. subst s.
  unfold finalize_year, bindM at 1, query, exec at 1.
  cbn [stmt_fault no_faults db saved tx_log].
  assert (Hex : existsb (fun r => negb (per_status r =? "closed")%string)
                  (filter (fun q => (per_year q =? year)%string &&
                                    match per_month q with Some _ => true | None => false end)
                          (tbl_periods d)) = false).
  { apply not_true_is_false. intros H. apply existsb_exists in H.
    destruct H as [p [Hp Hn]]. apply filter_In in Hp. destruct Hp as [Hp Hc].
    apply andb_true_iff in Hc. destruct Hc as [Hy Hm]. apply String.eqb_eq in Hy.
    rewrite (Hall p Hp Hy) in Hn; [discriminate|].
    destruct (per_month p); discriminate. }
  rewrite Hex.
  unfold bindM, transaction, exec, conn_commit, retM.
  cbn [begin_loop max_retries begin_fault stmt_fault no_faults db saved tx_log].
  match goal with
  | |- context [log_action no_faults ?n ?a ?u ?p ?e ?cc] =>
      destruct (log_action_no_faults n a u p e cc) as [c' Hl];
      pose proof (log_action_ok_db _ _ _ _ _ _ _ _ Hl) as [Hdb Hsv]
  end.
  rewrite Hl. exists c'. split; [reflexivity|]. split; [exact Hsv|]. rewrite Hdb.
  cbn [db]. destruct d; repeat split.
Qed.

Lemma finalize_year_marks_the_year_witness :
  exists c',
    finalize_year no_faults sample_now "2025" "tester" "Finalizzazione anno"
                  (fresh_conn months_closed_db)
    = (c', Ok (mkEntryResult true None None [] [])) /\
    map per_status (tbl_periods (db c')) = ["finalized"; "closed"; "open"] /\
    tbl_entries (db c') = [] /\
    map aud_action (tbl_audit_log (db c')) = ["FINALIZE_YEAR"].
Proof.
  destruct (finalize_year_marks_the_year sample_now "2025" "tester"
              "Finalizzazione anno" (fresh_conn months_closed_db) eq_refl)
    as [c' [Hf [_ [Hp [He [_ Ha]]]]]].
  - intros p [<-|[<-|[<-|[]]]] Hy Hm; try reflexivity; try discriminate.
  - exists c'. split; [exact Hf|]. split; [rewrite Hp; reflexivity|].
    split; [rewrite He; reflexivity|]. rewrite Ha. reflexivity.
Defined.

(** ** Decimal arithmetic on amounts in cents *)

Lemma usize_nb_digits (d : Decimal.uint) :
  DecimalPos.Unsigned.usize d = N.of_nat (Decimal.nb_digits d).
Proof.
  induction d; cbn [DecimalPos.Unsigned.usize Decimal.nb_digits];
    rewrite ?IHd, ?Nat2N.inj_succ; reflexivity.
Qed.

Lemma of_uint_lower (u : Decimal.uint) :
  Decimal.unorm u = u -> u <> Decimal.Nil -> u <> Decimal.D0 Decimal.Nil ->
  (10 ^ N.of_nat (Decimal.nb_digits u - 1) <= N.of_uint u)%N.
Proof.
  intros Hn Hnil Hz.
  destruct u as [|l|l|l|l|l|l|l|l|l|l]; [congruence| |..];
    try (cbn [Decimal.nb_digits]; rewrite Nat.sub_succ, Nat.sub_0_r;
         unfold N.of_uint; cbn [Pos.of_uint];
         rewrite DecimalPos.Unsigned.of_uint_acc_rev, usize_nb_digits;
         generalize (DecimalPos.Unsigned.of_lu (Decimal.rev l));
         generalize (10 ^ N.of_nat (Decimal.nb_digits l))%N; intros; lia).
  exfalso. unfold Decimal.unorm in Hn. cbn [Decimal.nzhead] in Hn.
  pose proof (DecimalFacts.nb_digits_nzhead l) as Hle.
  destruct (Decimal.nzhead l) eqn:E.
  - injection Hn as <-. congruence.
  - rewrite Hn in Hle. cbn [Decimal.nb_digits] in Hle. lia.
  - discriminate.
  - discriminate.
  - discriminate.
  - discriminate.
  - discriminate.
  - discriminate.
  - discriminate.
  - discriminate.
  - discriminate.
Qed.

(** A coefficient below [10^k] has at most [k] digits. *)
Lemma ndigits_small (c : N) (k : Z) :
  (0 < c)%N -> 0 <= k -> Z.of_N c < 10 ^ k -> ndigits c <= k.
Proof.
  intros Hc Hk Hlt. unfold ndigits.
  set (u := N.to_uint c).
  assert (Hof : N.of_uint u = c) by apply DecimalN.Unsigned.of_to.
  assert (Hnorm : Decimal.unorm u = u).
  { unfold u at 2. rewrite <- (DecimalN.Unsigned.of_to c) at 1.
    rewrite DecimalN.Unsigned.to_of. reflexivity. }
  assert (Hnil : u <> Decimal.Nil).
  { intros E. rewrite E in Hof. cbn in Hof. lia. }
  assert (Hz : u <> Decimal.D0 Decimal.Nil).
  { intros E. rewrite E in Hof. cbn in Hof. lia. }
  pose proof (of_uint_lower u Hnorm Hnil Hz) as Hlow. rewrite Hof in Hlow.
  destruct (Z_le_gt_dec (Z.of_nat (Decimal.nb_digits u)) k) as [|Hgt]; [assumption|].
  exfalso.
  assert (H1 : 10 ^ k <= 10 ^ Z.of_nat (Decimal.nb_digits u - 1)).
  { apply Z.pow_le_mono_r; lia. }
  assert (H2 : Z.of_N (10 ^ N.of_nat (Decimal.nb_digits u - 1))
               = 10 ^ Z.of_nat (Decimal.nb_digits u - 1)).
  { rewrite N2Z.inj_pow, nat_N_Z. reflexivity. }
  apply N2Z.inj_le in Hlow. rewrite H2 in Hlow. lia.
Qed.

Lemma signed_zero (s : bool) : signed s 0 = 0.
Proof. destruct s; reflexivity. Qed.

Lemma signed_abs (v : Z) : signed (v <? 0) (Z.to_N (Z.abs v)) = v.
Proof.
  unfold signed. destruct (Z.ltb_spec v 0); rewrite Z2N.id by lia; lia.
Qed.

Lemma signed_bound (s : bool) (c : N) : Z.abs (signed s c) = Z.of_N c.
Proof. unfold signed. destruct s; lia. Qed.

(** [_fix] does nothing to a coefficient of at most 28 digits. *)
Lemma dec_fix_small (neg : bool) (v e : Z) :
  0 < v -> v < 10 ^ 28 -> dec_fix neg v e = DFin neg (Z.to_N v) e.
Proof.
  intros Hv Hlt. unfold dec_fix.
  assert (H : ndigits (Z.to_N v) <= prec).
  { apply ndigits_small; [lia|unfold prec; lia|]. rewrite Z2N.id by lia. exact Hlt. }
  cbv zeta. apply Z.leb_le in H. rewrite H. reflexivity.
Qed.

(** Sums of amounts in cents are exact below 10^28. *)
Lemma dec_add_cents (s1 s2 : bool) (c1 c2 : N) :
  Z.abs (signed s1 c1 + signed s2 c2) < 10 ^ 28 ->
  exists s3 c3,
    dec_add (DFin s1 c1 (-2)) (DFin s2 c2 (-2)) = Ok (DFin s3 c3 (-2)) /\
    signed s3 c3 = signed s1 c1 + signed s2 c2.
Proof.
  intros Hb. unfold dec_add. cbv zeta.
  replace (Z.min (-2) (-2)) with (-2) by reflexivity.
  replace (-2 - -2) with 0 by reflexivity. rewrite Z.pow_0_r, !Z.mul_1_r.
  set (v := signed s1 c1 + signed s2 c2) in *.
  destruct (Z.eqb_spec v 0) as [E|E].
  - exists (s1 && s2)%bool, 0%N. split; [reflexivity|]. rewrite signed_zero. lia.
  - rewrite dec_fix_small by lia.
    exists (v <? 0), (Z.to_N (Z.abs v)). split; [reflexivity|]. apply signed_abs.
Qed.

(** [q2] returns a NaN or an amount in cents. *)
Lemma q2_shape (d q : Decimal) :
  q2 (Some d) = Ok q -> q = DNaN \/ exists s c, q = DFin s c (-2).
Proof.
  unfold q2, quantize2.
  destruct (if dec_bool d then d else dec_zero) as [s c e| |].
  - destruct (c =? 0)%N; [intros [= <-]; right; eauto|].
    destruct (e + ndigits c - 1 + 2 + 1 >? prec); [discriminate|].
    cbv zeta.
    match goal with |- context [ndigits ?x >? prec] => destruct (ndigits x >? prec) end;
      [discriminate|].
    intros [= <-]. right. eauto.
  - discriminate.
  - intros [= <-]. now left.
Qed.

(** [cents] of a small amount is the coefficient of its [q2], signed. *)
Lemma cents_exact (d : Decimal) (z : Z) :
  cents (Some d) = Ok z -> small_amount d ->
  exists s c, q2 (Some d) = Ok (DFin s c (-2)) /\ z = signed s c /\ Z.of_N c < 10 ^ 18.
Proof.
  unfold cents. intros H Hsmall.
  destruct (q2 (Some d)) as [q|] eqn:Eq; [|discriminate]. cbn [bindR] in H.
  destruct (q2_shape _ _ Eq) as [->|[s [c ->]]]; [discriminate|].
  pose proof (Hsmall _ _ _ Eq) as Hc.
  exists s, c. split; [reflexivity|]. split; [|exact Hc].
  unfold dec_mul, dec_of_int in H.
  replace (Z.abs_N 100) with 100%N in H by reflexivity.
  replace (100 <? 0) with false in H by reflexivity.
  rewrite xorb_false_r in H.
  destruct (N.eqb_spec (c * 100) 0) as [E|E].
  - cbn [bindR dec_to_int] in H. replace (-2 + 0 >=? 0) with false in H by reflexivity.
    injection H as <-. assert (c = 0%N) by lia. subst c.
    cbn. rewrite !signed_zero. reflexivity.
  - rewrite dec_fix_small in H by lia.
    cbn [bindR dec_to_int] in H. replace (-2 + 0 >=? 0) with false in H by reflexivity.
    injection H as <-. f_equal.
    rewrite Z2N.id by lia. replace (- (-2 + 0)) with 2 by reflexivity.
    rewrite N2Z.inj_mul. replace (Z.of_N 100) with (10 ^ 2) by reflexivity.
    rewrite Z.div_mul by lia. apply N2Z.id.
Qed.

(** The two running totals of [validate_balanced]. *)
Lemma balanced_totals (ls : list LineDTO) (rows : list LineRow) :
  Forall2 (fun l row =>
             (exists s c, q2 (Some (dare l)) = Ok (DFin s c (-2)) /\
                          ln_dare_cents row = signed s c /\ Z.of_N c < 10 ^ 18) /\
             (exists s c, q2 (Some (avere l)) = Ok (DFin s c (-2)) /\
                          ln_avere_cents row = signed s c /\ Z.of_N c < 10 ^ 18))
          ls rows ->
  forall sd cd sa ca td ta,
    Z.abs (signed sd cd) + 10 ^ 18 * Z.of_nat (List.length ls) < 10 ^ 28 ->
    Z.abs (signed sa ca) + 10 ^ 18 * Z.of_nat (List.length ls) < 10 ^ 28 ->
    foldR (fun (acc : Decimal * Decimal) (l : LineDTO) =>
             bindR (q2 (Some (dare l))) (fun qd =>
             bindR (dec_add (fst acc) qd) (fun td =>
             bindR (q2 (Some (avere l))) (fun qa =>
             bindR (dec_add (snd acc) qa) (fun ta => Ok (td, ta))))))
          ls (DFin sd cd (-2), DFin sa ca (-2)) = Ok (td, ta) ->
    exists sd' cd' sa' ca',
      td = DFin sd' cd' (-2) /\ ta = DFin sa' ca' (-2) /\
      signed sd' cd' = signed sd cd + sumZ (map ln_dare_cents rows) /\
      signed sa' ca' = signed sa ca + sumZ (map ln_avere_cents rows).
Proof.
  induction 1 as [|l row ls rows [Hd Ha] _ IH]; intros sd cd sa ca td ta Bd Ba Hf.
  - cbn [foldR] in Hf. injection Hf as <- <-.
    exists sd, cd, sa, ca. cbn. repeat split; lia.
  - cbn [foldR] in Hf. cbn [List.length] in Bd, Ba.
    destruct Hd as [s1 [c1 [Hq1 [Hz1 Hb1]]]]. destruct Ha as [s2 [c2 [Hq2 [Hz2 Hb2]]]].
    rewrite Hq1 in Hf. cbn [bindR fst snd] in Hf.
    pose proof (signed_bound s1 c1) as A1. pose proof (signed_bound s2 c2) as A2.
    destruct (dec_add_cents sd s1 cd c1) as [s3 [c3 [Hadd1 Hv1]]]; [lia|].
    rewrite Hadd1 in Hf. cbn [bindR] in Hf. rewrite Hq2 in Hf. cbn [bindR] in Hf.
    destruct (dec_add_cents sa s2 ca c2) as [s4 [c4 [Hadd2 Hv2]]]; [lia|].
    rewrite Hadd2 in Hf. cbn [bindR] in Hf.
    apply IH in Hf; [|lia|lia].
    destruct Hf as [sd' [cd' [sa' [ca' [-> [-> [H1 H2]]]]]]].
    exists sd', cd', sa', ca'. cbn [map sumZ fold_right] in *.
    unfold sumZ in *. repeat split; lia.
Qed.

(** X8. The lines a successful posting stores balance: for amounts that,
    rounded to cents, stay below 10^18 cents, and at most 10^9 lines, the
    line rows inserted for the new entry carry its id, are as many as the
    lines of the entry, and the sum of their [dare_cents] equals the sum of
    their [avere_cents]. *)
Theorem posted_lines_balance (env : Env) now entry user_id accounts periods entries
    series key (c c' : Conn) (r : EntryResult) :
  post env now entry user_id accounts periods entries series key c = (c', Ok r) ->
  success r = true ->
  truthy_str key = false \/
    (exists k, key = Some k /\ find_idempotence k (tbl_idempotence (db c)) = None) ->
  Forall (fun l => small_amount (dare l) /\ small_amount (avere l)) (lines entry) ->
  Z.of_nat (List.length (lines entry)) <= 10 ^ 9 ->
  exists rows,
    tbl_entry_lines (db c') = (tbl_entry_lines (db c) ++ rows)%list /\
    Forall (fun row => Some (ln_entry_id row) = entry_id r) rows /\
    List.length rows = List.length (lines entry) /\
    sumZ (map ln_dare_cents rows) = sumZ (map ln_avere_cents rows).
Proof.
  intros Hp Hs Hk Hsmall Hlen.
  destruct (post_fresh_of_post _ _ _ _ _ _ _ _ _ _ _ _ Hp Hs Hk)
    as [Hv [_ [c2 [Hf Hdb]]]].
  apply post_fresh_tables in Hf. cbv zeta in Hf. cbn [db] in Hf.
  destruct Hf as [-> [_ [_ [_ [[rows [Hrows Hall]] _]]]]].
  exists rows. rewrite Hdb. split; [exact Hrows|]. split.
  { clear - Hall. induction Hall as [|l row ls rs [Hid _] _ IH]; constructor.
    - cbn [entry_id success_result]. now rewrite Hid.
    - exact IH. }
  split; [symmetry; exact (Forall2_length Hall)|].
  assert (Hall' :
    Forall2 (fun l row =>
               (exists s c, q2 (Some (dare l)) = Ok (DFin s c (-2)) /\
                            ln_dare_cents row = signed s c /\ Z.of_N c < 10 ^ 18) /\
               (exists s c, q2 (Some (avere l)) = Ok (DFin s c (-2)) /\
                            ln_avere_cents row = signed s c /\ Z.of_N c < 10 ^ 18))
            (lines entry) rows).
  { clear - Hall Hsmall. induction Hall as [|l row ls rs [_ [_ [Hd Ha]]] _ IH].
    - constructor.
    - inversion Hsmall as [|? ? [Sd Sa] Hrest]; subst. constructor; [|exact (IH Hrest)].
      split; [exact (cents_exact _ _ Hd Sd)|exact (cents_exact _ _ Ha Sa)]. }
  destruct (validate_ok_inv _ _ _ _ _ Hv)
    as [e1 [e2 [e3 [e4 [e5 [e6 [H1 [_ [_ [_ [_ [_ Happ]]]]]]]]]]]].
  symmetry in Happ. apply app_eq_nil in Happ. destruct Happ as [-> _].
  unfold validate_balanced in H1.
  match type of H1 with
  | bindR ?F _ = _ => destruct F as [[td ta]|] eqn:Efold; [|discriminate]
  end.
  cbn [bindR fst snd] in H1. cbv zeta in H1.
  destruct (dec_ne td ta) eqn:Ene; [discriminate|].
  assert (B : 10 ^ 18 * Z.of_nat (List.length (lines entry)) < 10 ^ 28).
  { apply Z.le_lt_trans with (10 ^ 18 * 10 ^ 9); [|reflexivity].
    apply Z.mul_le_mono_nonneg_l; [lia|exact Hlen]. }
  destruct (balanced_totals _ _ Hall' false 0%N false 0%N td ta) as
    [sd' [cd' [sa' [ca' [-> [-> [Hd Ha]]]]]]];
    [rewrite signed_zero; cbn [Z.abs]; lia|rewrite signed_zero; cbn [Z.abs]; lia
    |exact Efold|].
  rewrite signed_zero in Hd, Ha. cbn [Z.add] in Hd, Ha.
  unfold dec_ne, dec_eq, dec_compare in Ene.
  replace (Z.min (-2) (-2)) with (-2) in Ene by reflexivity.
  replace (-2 - -2) with 0 in Ene by reflexivity.
  rewrite Z.pow_0_r, !Z.mul_1_r in Ene.
  destruct (Z.compare_spec (signed sd' cd') (signed sa' ca')); [|discriminate|discriminate].
  lia.
Qed.

Lemma posted_lines_balance_witness :
  exists c' rows,
    post_db no_faults sample_now sales_invoice "tester" (Some "gen") None
            (fresh_conn sample_db)
    = (c', Ok (success_result 1 "2025/GEN/000001")) /\
    tbl_entry_lines (db c') = rows /\
    map ln_dare_cents rows = [12200; 0; 0] /\
    map ln_avere_cents rows = [0; 10000; 2200] /\
    sumZ (map ln_dare_cents rows) = sumZ (map ln_avere_cents rows).
Proof.
  destruct (post_db no_faults sample_now sales_invoice "tester" (Some "gen") None
              (fresh_conn sample_db)) as [c' res] eqn:E.
  assert (Hres : res = Ok (success_result 1 "2025/GEN/000001")).
  { apply (f_equal snd) in E. cbn [snd] in E. rewrite <- E. vm_compute. reflexivity. }
  subst res.
  assert (Hc : c' = fst (post_db no_faults sample_now sales_invoice "tester" (Some "gen")
                           None (fresh_conn sample_db))) by (rewrite E; reflexivity).
  unfold post_db in E.
  destruct (posted_lines_balance _ _ _ _ _ _ _ _ _ _ _ _ E eq_refl (or_introl eq_refl))
    as [rows [Hrows [_ [_ Hsum]]]].
  - repeat constructor; intros s c e H; vm_compute in H; injection H as _ <- _;
      reflexivity.
  - cbn. lia.
  - cbn [db fresh_conn tbl_entry_lines sample_db app] in Hrows.
    exists c', rows. split; [reflexivity|]. split; [exact Hrows|].
    rewrite <- Hrows, Hc. split; [vm_compute; reflexivity|].
    split; [vm_compute; reflexivity|]. vm_compute. reflexivity.
Defined.

(** ** The adapter and the kernel *)

(** X9. [PosterAdapter.post_entry] never raises: it returns the result of
    the engine, and where the engine raises (the validator runs outside the
    engine's [try]) a failure with the single error DB_ERROR whose message
    is the text of the exception. *)
Theorem post_entry_never_raises (env : Env) now entry user_id (series : string) key
    (c : Conn) :
  exists c' r,
    post_entry env now entry user_id series key c = (c', Ok r) /\
    (post_db env now entry user_id (Some series) key c = (c', Ok r) \/
     exists e,
       post_db env now entry user_id (Some series) key c = (c, Raise e) /\
       c' = c /\
       r = failure_result [mkLedgerError DB_ERROR (exn_text e)] [exn_text e]).
Proof.
  unfold post_entry.
  destruct (post_db env now entry user_id (Some series) key c) as [c' [r|e]] eqn:E.
  - exists c', r. auto.
  - assert (c' = c).
    { unfold post_db, post in E.
      destruct (validate _ _ _ _) as [[|err errs]|ev]; try discriminate.
      - destruct (transaction _ _ c) as [c2 [r2|e2]]; discriminate.
      - now injection E as <- _. }
    subst c'. eexists. eexists. split; [reflexivity|]. right. exists e. auto.
Qed.

(** X10. [AccountingKernel.process_entry] is [PostingEngine.post] with the
    DB-backed repositories: the kernel's own call of the validator changes
    neither the result nor the database. *)
Theorem process_entry_is_post (env : Env) now entry user_id (series : string) key
    (c : Conn) :
  process_entry env now entry user_id series key c
  = post_db env now entry user_id (Some series) key c.
Proof.
  unfold process_entry, post_db, post.
  destruct (validate entry (AccountsRepoDB env c) (PeriodsRepoDB env c)
              (EntriesRepoDB env c)) as [[|err errs]|e]; reflexivity.
Qed.

(** ** The fields of an entry the engine reads *)

Lemma same_content_validate (e1 e2 : EntryDTO) accounts periods entries :
  same_content e1 e2 ->
  validate e1 accounts periods entries = validate e2 accounts periods entries.
Proof.
  intros [H1 [H2 [H3 [H4 [H5 [H6 [H7 [H8 [H9 [H10 H11]]]]]]]]]].
  unfold validate, validate_balanced, validate_no_negative, validate_accounts_exist,
    validate_period_open, validate_not_already_reversed, validate_vat_consistency.
  rewrite H1, H3, H7, H9, H10, H11. reflexivity.
Qed.

Lemma same_content_canonical (e1 e2 : EntryDTO) user_id protocol :
  same_content e1 e2 ->
  canonical_payload e1 user_id protocol = canonical_payload e2 user_id protocol.
Proof.
  intros [H1 [H2 [H3 [H4 [H5 [H6 [H7 [H8 [H9 [H10 H11]]]]]]]]]].
  unfold canonical_payload, entry_content.
  rewrite H1, H2, H3, H4, H5, H6, H7, H8, H9, H10, H11. reflexivity.
Qed.

Lemma same_content_post_fresh (env : Env) now (e1 e2 : EntryDTO) user_id year series key :
  same_content e1 e2 ->
  post_fresh env now e1 user_id year series key
  = post_fresh env now e2 user_id year series key.
Proof.
  unfold same_content.
  destruct e1 as [a1 a2 a3 a4 a5 a6 a7 a8 a9 a10 a11 a12 a13 a14 a15].
  destruct e2 as [b1 b2 b3 b4 b5 b6 b7 b8 b9 b10 b11 b12 b13 b14 b15].
  cbn [date descrizione lines documento document_date cliente_fornitore reversal_of
       client_reference_id taxable_amount vat_rate vat_amount].
  intros [H1 [H2 [H3 [H4 [H5 [H6 [H7 [H8 [H9 [H10 H11]]]]]]]]]]. subst.
  unfold post_fresh, canonical_payload, idempotence_content, entry_content.
  cbn [date descrizione lines documento document_date cliente_fornitore reversal_of
       client_reference_id taxable_amount vat_rate vat_amount].
  reflexivity.
Qed.

Lemma same_content_post (env : Env) now (e1 e2 : EntryDTO) user_id accounts periods
    entries series key :
  same_content e1 e2 ->
  effective_series series e1 = effective_series series e2 ->
  post env now e1 user_id accounts periods entries series key
  = post env now e2 user_id accounts periods entries series key.
Proof.
  intros Hs He. unfold post.
  rewrite (same_content_validate e1 e2) by exact Hs.
  assert (Hb : post_body env now e1 user_id series key
               = post_body env now e2 user_id series key).
  { unfold post_body. rewrite He.
    rewrite (same_content_post_fresh env now e1 e2) by exact Hs.
    rewrite (same_content_idempotence e2 e1 user_id)
      by (unfold same_content in *; intuition congruence).
    destruct Hs as [H1 _]. rewrite H1. reflexivity. }
  rewrite Hb. reflexivity.
Qed.

(** X11. Through the adapter the fields [protocol_series], [period],
    [idempotence_key] and [correlation_id] of an entry have no effect: with
    a non-empty series argument (the default is "GEN", which also wins over
    [entry.protocol_series]), two entries with the same content give the
    same result and the same database. *)
Theorem post_entry_reads_content_only (env : Env) now (e1 e2 : EntryDTO) user_id
    (series : string) key (c : Conn) :
  same_content e1 e2 ->
  series <> EmptyString ->
  post_entry env now e1 user_id series key c = post_entry env now e2 user_id series key c.
Proof.
  intros Hs Hne.
  assert (He : effective_series (Some series) e1 = effective_series (Some series) e2).
  { unfold effective_series, or_str, truthy_str.
    destruct (String.eqb_spec series EmptyString); [contradiction|reflexivity]. }
  unfold post_entry, post_db.
  rewrite (same_content_post env now e1 e2) by assumption. reflexivity.
Qed.

Lemma post_entry_reads_content_only_witness :
  let c := fresh_conn sample_db in
  post_entry no_faults sample_now sales_invoice_tagged "tester" "GEN" None c
  = post_entry no_faults sample_now sales_invoice "tester" "GEN" None c /\
  exists c', post_entry no_faults sample_now sales_invoice_tagged "tester" "GEN" None c
             = (c', Ok (success_result 1 "2025/GEN/000001")).
Proof.
  cbv zeta. split.
  - apply post_entry_reads_content_only; [|discriminate].
    unfold same_content. cbn. repeat split.
  - eexists. vm_compute. reflexivity.
Defined.

(** ** The content hash and the order of the keys *)

Lemma string_leb_trans (a b c : string) :
  String.leb a b = true -> String.leb b c = true -> String.leb a c = true.
Proof.
  unfold String.leb. revert b c.
  induction a as [|x a IH]; intros [|y b] [|z c]; cbn [String.compare];
    try reflexivity; try discriminate.
  unfold Ascii.compare.
  destruct (N.compare_spec (N_of_ascii x) (N_of_ascii y)) as [Exy|Exy|Exy];
    destruct (N.compare_spec (N_of_ascii y) (N_of_ascii z)) as [Eyz|Eyz|Eyz];
    try discriminate; intros H1 H2.
  - rewrite Exy, Eyz, N.compare_refl. exact (IH b c H1 H2).
  - rewrite Exy. apply N.compare_lt_iff in Eyz. rewrite Eyz. reflexivity.
  - rewrite <- Eyz. apply N.compare_lt_iff in Exy. rewrite Exy. reflexivity.
  - assert (E : (N_of_ascii x < N_of_ascii z)%N) by lia.
    apply N.compare_lt_iff in E. rewrite E. reflexivity.
Qed.

Section SortedItems.
Context {A : Type}.
Implicit Types (l : list (string * A)) (x : string * A).

Lemma sorted_keys_tail x l : sorted_keys (x :: l) = true -> sorted_keys l = true.
Proof.
  destruct l as [|y r]; [reflexivity|]. cbn [sorted_keys].
  intros H. apply andb_true_iff in H. tauto.
Qed.

Lemma sorted_keys_head x l :
  sorted_keys (x :: l) = true -> forall y, In y l -> String.leb (fst x) (fst y) = true.
Proof.
  revert x. induction l as [|z r IH]; intros x Hs y Hy; [destruct Hy|].
  cbn [sorted_keys] in Hs. apply andb_true_iff in Hs. destruct Hs as [Hxz Hr].
  destruct Hy as [<-|Hy]; [exact Hxz|].
  eapply string_leb_trans; [exact Hxz|]. exact (IH z Hr y Hy).
Qed.

(** Two lists in key order with the same items, each key once, are equal. *)
Lemma sorted_keys_unique l1 l2 :
  sorted_keys l1 = true -> sorted_keys l2 = true ->
  Permutation l1 l2 -> NoDup (map fst l1) -> l1 = l2.
Proof.
  revert l2. induction l1 as [|x r1 IH]; intros l2 S1 S2 P N.
  - apply Permutation_nil in P. now subst.
  - destruct l2 as [|y r2]; [apply Permutation_sym, Permutation_nil in P; discriminate|].
    assert (Hx : In x (y :: r2)) by (eapply Permutation_in; [exact P|now left]).
    assert (Hy : In y (x :: r1))
      by (eapply Permutation_in; [apply Permutation_sym; exact P|now left]).
    assert (Hxy : String.leb (fst x) (fst y) = true).
    { destruct Hy as [<-|Hy].
      - destruct (String.leb_total (fst x) (fst x)); assumption.
      - exact (sorted_keys_head x r1 S1 y Hy). }
    assert (Hyx : String.leb (fst y) (fst x) = true).
    { destruct Hx as [<-|Hx].
      - destruct (String.leb_total (fst y) (fst y)); assumption.
      - exact (sorted_keys_head y r2 S2 x Hx). }
    pose proof (String.leb_antisym _ _ Hxy Hyx) as Hk.
    assert (E : x = y).
    { destruct Hy as [->|Hy]; [reflexivity|]. exfalso.
      inversion N as [|? ? Hnin _]; subst. apply Hnin. rewrite Hk.
      apply in_map. exact Hy. }
    subst y. f_equal. apply IH.
    + exact (sorted_keys_tail x r1 S1).
    + exact (sorted_keys_tail x r2 S2).
    + exact (Permutation_cons_inv P).
    + now inversion N.
Qed.

Lemma sort_items_permuted l1 l2 :
  Permutation l1 l2 -> NoDup (map fst l1) -> sort_items l1 = sort_items l2.
Proof.
  intros P N. apply sorted_keys_unique.
  - apply sort_items_sorted.
  - apply sort_items_sorted.
  - eapply Permutation_trans; [apply sort_items_perm|].
    eapply Permutation_trans; [exact P|]. apply Permutation_sym, sort_items_perm.
  - eapply Permutation_NoDup; [|exact N].
    apply Permutation_map, Permutation_sym, sort_items_perm.
Qed.
End SortedItems.

(** X12. [payload_hash] does not depend on the order in which the keys of
    the dictionary were inserted: two dictionaries with the same items (each
    key once) have the same canonical text and the same hash. *)
Theorem payload_hash_ignores_key_order (items1 items2 : list (string * json)) :
  Permutation items1 items2 ->
  NoDup (map fst items1) ->
  json_dumps (JDict items1) = json_dumps (JDict items2) /\
  payload_hash (JDict items1) = payload_hash (JDict items2).
Proof.
  intros P N.
  assert (E : json_dumps (JDict items1) = json_dumps (JDict items2)).
  { cbn [json_dumps].
    rewrite (sort_items_permuted
               (map (fun kv => (fst kv, json_dumps (snd kv))) items1)
               (map (fun kv => (fst kv, json_dumps (snd kv))) items2)).
    - reflexivity.
    - apply Permutation_map. exact P.
    - rewrite map_map. cbn [fst]. exact N. }
  split; [exact E|]. unfold payload_hash. rewrite E. reflexivity.
Qed.

Lemma payload_hash_ignores_key_order_witness :
  payload_hash (JDict [("user", JStr "tester"); ("entry", JInt 1)])
  = payload_hash (JDict [("entry", JInt 1); ("user", JStr "tester")]).
Proof.
  apply payload_hash_ignores_key_order.
  - apply perm_swap.
  - repeat constructor; cbn; intuition discriminate.
Defined.

(** ** The entries the service builds *)

(** An amount that [q2] rounds to more than zero is a positive number of
    cents with at most 28 digits. *)
Lemma q2_positive (d q : Decimal) :
  q2 (Some d) = Ok q -> dec_compare q dec_zero = Some Gt ->
  exists c, q = DFin false c (-2) /\ (0 < c)%N /\ ndigits c <= prec.
Proof.
  unfold q2, quantize2.
  destruct (if dec_bool d then d else dec_zero) as [s c e|s|].
  - destruct (c =? 0)%N.
    { intros [= <-]. destruct s; cbn; discriminate. }
    destruct (e + ndigits c - 1 + 2 + 1 >? prec); [discriminate|].
    cbv zeta.
    match goal with |- context [ndigits ?x >? prec] =>
      destruct (Z.gtb_spec (ndigits x) prec) as [|Hd]; [discriminate|];
      set (c' := x) in *
    end.
    intros [= <-]. unfold dec_compare, dec_zero.
    replace (Z.min (-2) 0) with (-2) by reflexivity.
    replace (-2 - -2) with 0 by reflexivity. cbn [signed Z.of_N Z.mul].
    rewrite Z.pow_0_r, Z.mul_1_r. intros [= Hc].
    apply Z.compare_gt_iff in Hc.
    destruct s; cbn [signed] in Hc; [lia|].
    exists c'. repeat split; [lia|exact Hd].
  - discriminate.
  - intros [= <-]. discriminate.
Qed.

(** [q2] leaves a positive number of cents as it is. *)
Lemma q2_cents_id (c : N) :
  (0 < c)%N -> ndigits c <= prec -> q2 (Some (DFin false c (-2))) = Ok (DFin false c (-2)).
Proof.
  intros Hc Hd. unfold q2, quantize2. cbn [dec_bool].
  destruct (N.eqb_spec c 0) as [|_]; [lia|]. cbn [negb].
  destruct (N.eqb_spec c 0) as [|_]; [lia|].
  replace (-2 + ndigits c - 1 + 2 + 1) with (ndigits c) by lia.
  destruct (Z.gtb_spec (ndigits c) prec) as [|_]; [lia|].
  cbv zeta. replace (-2 >=? -2) with true by reflexivity.
  replace (-2 + 2) with 0 by reflexivity. rewrite Z.pow_0_r, Z.mul_1_r, N2Z.id.
  destruct (Z.gtb_spec (ndigits c) prec) as [|_]; [lia|]. reflexivity.
Qed.

Lemma dec_add_zero2_l (c : N) :
  (0 < c)%N -> ndigits c <= prec ->
  dec_add dec_zero2 (DFin false c (-2)) = Ok (DFin false c (-2)).
Proof.
  intros Hc Hd. unfold dec_add, dec_zero2. cbv zeta.
  replace (Z.min (-2) (-2)) with (-2) by reflexivity.
  replace (-2 - -2) with 0 by reflexivity. cbn [signed Z.of_N].
  rewrite Z.pow_0_r, !Z.mul_1_r, Z.add_0_l.
  destruct (Z.eqb_spec (Z.of_N c) 0) as [|_]; [lia|].
  unfold dec_fix. rewrite Z.abs_eq, N2Z.id by lia. cbv zeta.
  destruct (Z.leb_spec (ndigits c) prec) as [_|]; [|lia].
  destruct (Z.ltb_spec (Z.of_N c) 0); [lia|reflexivity].
Qed.

Lemma dec_add_zero2_r (c : N) :
  (0 < c)%N -> ndigits c <= prec ->
  dec_add (DFin false c (-2)) dec_zero2 = Ok (DFin false c (-2)).
Proof.
  intros Hc Hd. unfold dec_add, dec_zero2. cbv zeta.
  replace (Z.min (-2) (-2)) with (-2) by reflexivity.
  replace (-2 - -2) with 0 by reflexivity. cbn [signed Z.of_N].
  rewrite Z.pow_0_r, !Z.mul_1_r, Z.add_0_r.
  destruct (Z.eqb_spec (Z.of_N c) 0) as [|_]; [lia|].
  unfold dec_fix. rewrite Z.abs_eq, N2Z.id by lia. cbv zeta.
  destruct (Z.leb_spec (ndigits c) prec) as [_|]; [|lia].
  destruct (Z.ltb_spec (Z.of_N c) 0); [lia|reflexivity].
Qed.

Lemma dec_compare_cents_zero (c : N) :
  (0 < c)%N -> dec_compare (DFin false c (-2)) dec_zero = Some Gt.
Proof.
  intros Hc. unfold dec_compare, dec_zero.
  replace (Z.min (-2) 0) with (-2) by reflexivity.
  replace (-2 - -2) with 0 by reflexivity. cbn [signed Z.of_N Z.mul].
  rewrite Z.pow_0_r, Z.mul_1_r. f_equal. apply Z.compare_gt_iff. lia.
Qed.

Lemma dec_compare_refl_fin (s : bool) (c : N) (e : Z) :
  dec_compare (DFin s c e) (DFin s c e) = Some Eq.
Proof. unfold dec_compare. cbv zeta. now rewrite Z.compare_refl. Qed.

(** A line with a positive amount on one side passes the three tests. *)
Lemma line_dare_sign (a : string) (c : N) :
  (0 < c)%N -> line_sign_errors (line_dare a (DFin false c (-2))) = Ok [].
Proof.
  intros Hc. unfold line_sign_errors, line_dare, dec_lt, dec_gt, dec_eq.
  cbn [dare avere]. rewrite (dec_compare_cents_zero c Hc).
  replace (dec_compare dec_zero dec_zero) with (Some Eq) by reflexivity.
  reflexivity.
Qed.

Lemma line_avere_sign (a : string) (c : N) :
  (0 < c)%N -> line_sign_errors (line_avere a (DFin false c (-2))) = Ok [].
Proof.
  intros Hc. unfold line_sign_errors, line_avere, dec_lt, dec_gt, dec_eq.
  cbn [dare avere]. rewrite (dec_compare_cents_zero c Hc).
  replace (dec_compare dec_zero dec_zero) with (Some Eq) by reflexivity.
  reflexivity.
Qed.

Lemma q2_dec_zero : q2 (Some dec_zero) = Ok dec_zero2.
Proof. reflexivity. Qed.

(** Two lines with the same positive amount, one on each side: the
    balance rule and the sign rules have nothing to report. *)
Lemma two_line_balanced (date0 descr a1 a2 : string) (c : N) (cf : option string) :
  (0 < c)%N -> ndigits c <= prec ->
  let amt := DFin false c (-2) in
  let entry := mkEntryDTO date0 descr [line_dare a1 amt; line_avere a2 amt]
                 None None cf None None None None None None None None None in
  validate_balanced entry = Ok [] /\ validate_no_negative entry = Ok [].
Proof.
  intros Hc Hd. cbv zeta. split.
  - unfold validate_balanced, line_dare, line_avere.
    cbn [lines foldR dare avere bindR fst snd].
    rewrite (q2_cents_id c Hc Hd). cbn [bindR].
    rewrite (dec_add_zero2_l c Hc Hd). cbn [bindR].
    rewrite q2_dec_zero. cbn [bindR].
    replace (dec_add dec_zero2 dec_zero2) with (Ok dec_zero2) by reflexivity.
    cbn [bindR fst snd].
    rewrite (dec_add_zero2_r c Hc Hd). cbn [bindR].
    rewrite (dec_add_zero2_l c Hc Hd). cbn [bindR fst snd].
    unfold dec_ne, dec_eq. rewrite dec_compare_refl_fin. reflexivity.
  - unfold validate_no_negative. cbn [lines foldR].
    rewrite (line_dare_sign a1 c Hc). cbn [bindR app].
    rewrite (line_avere_sign a2 c Hc). reflexivity.
Qed.

Lemma validate_amount_rules_pass (entry : EntryDTO) accounts periods entries :
  validate_balanced entry = Ok [] ->
  validate_no_negative entry = Ok [] ->
  validate_not_already_reversed entry entries = Ok [] ->
  validate_vat_consistency entry = Ok [] ->
  validate entry accounts periods entries
  = accounts_and_period_errors entry accounts periods.
Proof.
  intros H1 H2 H5 H6. unfold validate, accounts_and_period_errors.
  rewrite H1, H2, H5, H6. cbn [bindR app].
  destruct (validate_accounts_exist entry accounts) as [e3|]; [|reflexivity].
  cbn [bindR].
  destruct (validate_period_open entry periods) as [e4|]; [|reflexivity].
  cbn [bindR]. now rewrite List.app_nil_r.
Qed.

(** X13. A cash receipt, a cash payment and a bank fee built by the service
    for an amount that rounds to more than zero cents pass the balance rule,
    the sign rules, the reversal rule and the VAT rule: whatever the
    repositories, [validate] returns for them exactly the errors of the
    accounts rule followed by those of the period rule. *)
Theorem cash_entries_pass_amount_rules (acc : AccountMap)
    (date0 who descrizione0 : string) (amount amt : Decimal) (bank : option string)
    accounts periods entries (entry : EntryDTO) :
  q2 (Some amount) = Ok amt ->
  dec_compare amt dec_zero = Some Gt ->
  In (Ok entry) [build_cash_receipt acc date0 who descrizione0 amount bank;
                 build_cash_payment acc date0 who descrizione0 amount bank;
                 build_bank_fee acc date0 descrizione0 amount bank] ->
  validate entry accounts periods entries
  = accounts_and_period_errors entry accounts periods.
Proof.
  intros Hq Hpos Hin.
  destruct (q2_positive _ _ Hq Hpos) as [c [-> [Hc Hd]]].
  unfold build_cash_receipt, build_cash_payment, build_bank_fee in Hin.
  rewrite Hq in Hin. cbn [bindR] in Hin.
  destruct Hin as [[= <-]|[[= <-]|[[= <-]|[]]]];
    (apply validate_amount_rules_pass;
     [eapply two_line_balanced; eassumption
     |eapply two_line_balanced; eassumption
     |reflexivity|reflexivity]).
Qed.

Lemma cash_entries_pass_amount_rules_witness :
  exists entry,
    build_cash_receipt default_account_map "2025-03-10" "CLI-001" "Incasso"
      (DFin false 12345 (-3)) None = Ok entry /\
    map (fun l => (account_id l, dare l, avere l)) (lines entry)
    = [("1432", DFin false 1235 (-2), dec_zero);
       ("1410", dec_zero, DFin false 1235 (-2))] /\
    validate entry (AccountsRepoDB no_faults (fresh_conn service_db))
      (PeriodsRepoDB no_faults (fresh_conn service_db))
      (EntriesRepoDB no_faults (fresh_conn service_db)) = Ok [].
Proof.
  eexists. split; [reflexivity|]. split; [reflexivity|].
  rewrite (cash_entries_pass_amount_rules default_account_map "2025-03-10" "CLI-001"
             "Incasso" (DFin false 12345 (-3)) (DFin false 1235 (-2)) None).
  - reflexivity.
  - reflexivity.
  - reflexivity.
  - left. reflexivity.
Defined.

(** ** Invoices *)

Lemma ndigits_zero : ndigits 0 = 1.
Proof. reflexivity. Qed.

Lemma ndigits_bound (c : N) (k : Z) :
  1 <= k -> Z.of_N c < 10 ^ k -> ndigits c <= k.
Proof.
  intros Hk Hc. destruct (N.eq_dec c 0) as [->|Hne].
  - rewrite ndigits_zero. exact Hk.
  - apply ndigits_small; lia.
Qed.

Lemma dec_add_pos_cents (a b : N) :
  (0 < a + b)%N -> Z.of_N (a + b) < 10 ^ 28 ->
  dec_add (DFin false a (-2)) (DFin false b (-2)) = Ok (DFin false (a + b) (-2)).
Proof.
  intros Hp Hb. unfold dec_add. cbv zeta.
  replace (Z.min (-2) (-2)) with (-2) by reflexivity.
  replace (-2 - -2) with 0 by reflexivity. cbn [signed].
  rewrite Z.pow_0_r, !Z.mul_1_r.
  destruct (Z.eqb_spec (Z.of_N a + Z.of_N b) 0) as [|_]; [lia|].
  rewrite dec_fix_small by lia.
  destruct (Z.ltb_spec (Z.of_N a + Z.of_N b) 0); [lia|].
  f_equal. f_equal. lia.
Qed.

Lemma dec_mul_cents (a b : N) :
  (0 < a * b)%N -> Z.of_N (a * b) < 10 ^ 28 ->
  dec_mul (DFin false a (-2)) (DFin false b (-2)) = Ok (DFin false (a * b) (-4)).
Proof.
  intros Hp Hb. unfold dec_mul. cbv zeta.
  destruct (N.eqb_spec (a * b) 0) as [|_]; [lia|].
  rewrite dec_fix_small by lia. rewrite N2Z.id. reflexivity.
Qed.

(** Rounding a product of two amounts in cents to cents, half up. *)
Lemma q2_hundredths (p : N) :
  (0 < p)%N -> Z.of_N p < 10 ^ 24 ->
  q2 (Some (DFin false p (-4))) = Ok (DFin false ((p + 50) / 100) (-2)).
Proof.
  intros Hp Hb. unfold q2, quantize2. cbn [dec_bool].
  destruct (N.eqb_spec p 0) as [|_]; [lia|]. cbn [negb].
  destruct (N.eqb_spec p 0) as [|_]; [lia|].
  assert (Hd : ndigits p <= 24) by (apply ndigits_bound; lia).
  destruct (Z.gtb_spec (-4 + ndigits p - 1 + 2 + 1) prec) as [H|_];
    [unfold prec in H; lia|].
  cbv zeta. replace (-4 >=? -2) with false by reflexivity.
  replace (- -4 - 3) with 1 by reflexivity. replace (- -4 - 2) with 2 by reflexivity.
  replace (5 * 10 ^ 1) with (Z.of_N 50) by reflexivity.
  replace (10 ^ 2) with (Z.of_N 100) by reflexivity.
  rewrite <- N2Z.inj_add, <- N2Z.inj_div, N2Z.id.
  assert (Hq : (Z.of_N ((p + 50) / 100)) < 10 ^ 24).
  { rewrite N2Z.inj_div, N2Z.inj_add.
    apply Z.div_lt_upper_bound; [reflexivity|]. cbn [Z.of_N]. lia. }
  destruct (Z.gtb_spec (ndigits ((p + 50) / 100)) prec) as [H|_]; [|reflexivity].
  assert (ndigits ((p + 50) / 100) <= 24) by (apply ndigits_bound; lia).
  unfold prec in H. lia.
Qed.

Section Invoice.
Variables (n r : N).
Hypothesis (Hn : (n < 10 ^ 18)%N) (Hr : (r < 10 ^ 6)%N) (Hvat : (50 <= n * r)%N).

Let vat : N := ((n * r + 50) / 100)%N.
Let total : N := (n + vat)%N.

Local Lemma invoice_bounds :
  (0 < n)%N /\ (0 < r)%N /\ (0 < vat)%N /\ (0 < total)%N /\
  Z.of_N (n * r) < 10 ^ 24 /\ Z.of_N total < 10 ^ 28 /\
  ndigits n <= prec /\ ndigits r <= prec /\ ndigits vat <= prec /\ ndigits total <= prec.
Proof.
  assert (H0 : (0 < n)%N) by (destruct (N.eq_dec n 0) as [E|]; [rewrite E in Hvat|]; lia).
  assert (H1 : (0 < r)%N)
    by (destruct (N.eq_dec r 0) as [E|]; [rewrite E, N.mul_0_r in Hvat|]; lia).
  assert (H2 : Z.of_N (n * r) < 10 ^ 24).
  { rewrite N2Z.inj_mul.
    replace (10 ^ 24) with (10 ^ 18 * 10 ^ 6) by reflexivity.
    apply Z.mul_lt_mono_nonneg; lia. }
  assert (H3 : (1 <= vat)%N).
  { unfold vat. apply N.div_le_lower_bound; lia. }
  assert (H4 : Z.of_N vat < 10 ^ 24).
  { unfold vat. rewrite N2Z.inj_div, N2Z.inj_add.
    apply Z.div_lt_upper_bound; [reflexivity|]. cbn [Z.of_N]. lia. }
  assert (H5 : Z.of_N total < 10 ^ 25) by (unfold total; lia).
  unfold prec. repeat split; try lia; apply ndigits_bound; lia.
Qed.

Lemma sales_invoice_built (acc : AccountMap) (date0 who : string)
    (doc_no doc_date : option string) (descr : string) (net_amount rate_in : Decimal) :
  q2 (Some net_amount) = Ok (DFin false n (-2)) ->
  q2 (Some rate_in) = Ok (DFin false r (-2)) ->
  build_sales_invoice acc date0 who doc_no doc_date descr net_amount rate_in
  = Ok (mkEntryDTO date0 descr
          [line_dare (crediti_clienti acc) (DFin false total (-2));
           line_avere (vendite_prestazioni acc) (DFin false n (-2));
           line_avere (iva_a_debito acc) (DFin false vat (-2))]
          doc_no doc_date (Some who) None None
          (Some (DFin false n (-2))) (Some (DFin false r (-2)))
          (Some (DFin false vat (-2))) None None None None).
Proof.
  intros Hqn Hqr.
  destruct invoice_bounds as [H0 [H1 [H2 [H3 [H4 [H5 [D1 [D2 [D3 D4]]]]]]]]].
  unfold build_sales_invoice. rewrite Hqn, Hqr. cbn [bindR].
  rewrite dec_mul_cents by lia. cbn [bindR].
  rewrite q2_hundredths by lia. cbn [bindR]. fold vat.
  rewrite dec_add_pos_cents by (fold total; lia). cbn [bindR]. fold total.
  rewrite (q2_cents_id total H3 D4). reflexivity.
Qed.

Lemma purchase_invoice_built (acc : AccountMap) (date0 who : string)
    (doc_no doc_date : option string) (descr : string) (net_amount rate_in : Decimal)
    (expense : option string) :
  q2 (Some net_amount) = Ok (DFin false n (-2)) ->
  q2 (Some rate_in) = Ok (DFin false r (-2)) ->
  build_purchase_invoice acc date0 who doc_no doc_date descr net_amount rate_in expense
  = Ok (mkEntryDTO date0 descr
          [line_dare (str_or expense (costi_servizi acc)) (DFin false n (-2));
           line_dare (iva_a_credito acc) (DFin false vat (-2));
           line_avere (debiti_fornitori acc) (DFin false total (-2))]
          doc_no doc_date (Some who) None None
          (Some (DFin false n (-2))) (Some (DFin false r (-2)))
          (Some (DFin false vat (-2))) None None None None).
Proof.
  intros Hqn Hqr.
  destruct invoice_bounds as [H0 [H1 [H2 [H3 [H4 [H5 [D1 [D2 [D3 D4]]]]]]]]].
  unfold build_purchase_invoice. rewrite Hqn, Hqr. cbn [bindR].
  rewrite dec_mul_cents by lia. cbn [bindR].
  rewrite q2_hundredths by lia. cbn [bindR]. fold vat.
  rewrite dec_add_pos_cents by (fold total; lia). cbn [bindR]. fold total.
  rewrite (q2_cents_id total H3 D4). reflexivity.
Qed.

(** The VAT rule on an entry carrying [n], [r] and the VAT computed. *)
Lemma invoice_vat_consistent (e : EntryDTO) :
  taxable_amount e = Some (DFin false n (-2)) ->
  vat_rate e = Some (DFin false r (-2)) ->
  vat_amount e = Some (DFin false vat (-2)) ->
  validate_vat_consistency e = Ok [].
Proof.
  intros E1 E2 E3.
  destruct invoice_bounds as [H0 [H1 [H2 [H3 [H4 [H5 [D1 [D2 [D3 D4]]]]]]]]].
  unfold validate_vat_consistency. rewrite E1, E2, E3.
  rewrite (q2_cents_id n H0 D1). cbn [bindR].
  rewrite (q2_cents_id r H1 D2). cbn [bindR].
  rewrite dec_mul_cents by lia. cbn [bindR].
  rewrite q2_hundredths by lia. cbn [bindR]. fold vat.
  rewrite (q2_cents_id vat H2 D3). cbn [bindR].
  unfold dec_ne, dec_eq. rewrite dec_compare_refl_fin. reflexivity.
Qed.

Lemma sales_lines_balanced (e : EntryDTO) (a1 a2 a3 : string) :
  lines e = [line_dare a1 (DFin false total (-2));
             line_avere a2 (DFin false n (-2));
             line_avere a3 (DFin false vat (-2))] ->
  validate_balanced e = Ok [] /\ validate_no_negative e = Ok [].
Proof.
  intros El.
  destruct invoice_bounds as [H0 [H1 [H2 [H3 [H4 [H5 [D1 [D2 [D3 D4]]]]]]]]].
  split.
  - unfold validate_balanced. rewrite El. unfold line_dare, line_avere.
    cbn [foldR dare avere bindR fst snd].
    rewrite (q2_cents_id total H3 D4). cbn [bindR].
    rewrite (dec_add_zero2_l total H3 D4). cbn [bindR].
    rewrite q2_dec_zero. cbn [bindR].
    replace (dec_add dec_zero2 dec_zero2) with (Ok dec_zero2) by reflexivity.
    cbn [bindR fst snd].
    rewrite (dec_add_zero2_r total H3 D4). cbn [bindR].
    rewrite (q2_cents_id n H0 D1). cbn [bindR].
    rewrite (dec_add_zero2_l n H0 D1). cbn [bindR fst snd].
    rewrite (dec_add_zero2_r total H3 D4). cbn [bindR].
    rewrite (q2_cents_id vat H2 D3). cbn [bindR].
    rewrite dec_add_pos_cents by (fold total; lia). cbn [bindR fst snd]. fold total.
    unfold dec_ne, dec_eq. rewrite dec_compare_refl_fin. reflexivity.
  - unfold validate_no_negative. rewrite El. cbn [foldR].
    rewrite (line_dare_sign a1 total H3). cbn [bindR app].
    rewrite (line_avere_sign a2 n H0). cbn [bindR app].
    rewrite (line_avere_sign a3 vat H2). reflexivity.
Qed.

Lemma purchase_lines_balanced (e : EntryDTO) (a1 a2 a3 : string) :
  lines e = [line_dare a1 (DFin false n (-2));
             line_dare a2 (DFin false vat (-2));
             line_avere a3 (DFin false total (-2))] ->
  validate_balanced e = Ok [] /\ validate_no_negative e = Ok [].
Proof.
  intros El.
  destruct invoice_bounds as [H0 [H1 [H2 [H3 [H4 [H5 [D1 [D2 [D3 D4]]]]]]]]].
  split.
  - unfold validate_balanced. rewrite El. unfold line_dare, line_avere.
    cbn [foldR dare avere bindR fst snd].
    rewrite (q2_cents_id n H0 D1). cbn [bindR].
    rewrite (dec_add_zero2_l n H0 D1). cbn [bindR].
    rewrite q2_dec_zero. cbn [bindR].
    replace (dec_add dec_zero2 dec_zero2) with (Ok dec_zero2) by reflexivity.
    cbn [bindR fst snd].
    rewrite (q2_cents_id vat H2 D3). cbn [bindR].
    rewrite dec_add_pos_cents by (fold total; lia). cbn [bindR]. fold total.
    replace (dec_add dec_zero2 dec_zero2) with (Ok dec_zero2) by reflexivity.
    cbn [bindR fst snd].
    rewrite (dec_add_zero2_r total H3 D4). cbn [bindR].
    rewrite (q2_cents_id total H3 D4). cbn [bindR].
    rewrite (dec_add_zero2_l total H3 D4). cbn [bindR fst snd].
    unfold dec_ne, dec_eq. rewrite dec_compare_refl_fin. reflexivity.
  - unfold validate_no_negative. rewrite El. cbn [foldR].
    rewrite (line_dare_sign a1 n H0). cbn [bindR app].
    rewrite (line_dare_sign a2 vat H2). cbn [bindR app].
    rewrite (line_avere_sign a3 total H3). reflexivity.
Qed.
End Invoice.

(** X14. What the invoice builders compute.  For a net amount of [n] cents
    (below 10^18) and a rate of [r] hundredths (below 10^6) whose product is
    at least half a cent, the VAT is [n * r / 10000] rounded half up to
    cents and the total is net plus VAT; the sales invoice debits the total
    to the customer and credits net and VAT, the purchase invoice debits net
    and VAT and credits the total to the supplier; and both entries pass the
    balance rule, the sign rules, the reversal rule and the VAT rule, so
    that [validate] can only report their accounts or their date. *)
Theorem invoice_entries_pass_amount_rules (acc : AccountMap) (date0 who : string)
    (doc_no doc_date : option string) (descr : string) (net_amount rate_in : Decimal)
    (expense : option string) (n r : N) accounts periods entries :
  q2 (Some net_amount) = Ok (DFin false n (-2)) ->
  q2 (Some rate_in) = Ok (DFin false r (-2)) ->
  (n < 10 ^ 18)%N -> (r < 10 ^ 6)%N -> (50 <= n * r)%N ->
  let vat := DFin false ((n * r + 50) / 100) (-2) in
  let total := DFin false (n + (n * r + 50) / 100) (-2) in
  exists es ep,
    build_sales_invoice acc date0 who doc_no doc_date descr net_amount rate_in = Ok es /\
    lines es = [line_dare (crediti_clienti acc) total;
                line_avere (vendite_prestazioni acc) (DFin false n (-2));
                line_avere (iva_a_debito acc) vat] /\
    validate es accounts periods entries = accounts_and_period_errors es accounts periods /\
    build_purchase_invoice acc date0 who doc_no doc_date descr net_amount rate_in expense
    = Ok ep /\
    lines ep = [line_dare (str_or expense (costi_servizi acc)) (DFin false n (-2));
                line_dare (iva_a_credito acc) vat;
                line_avere (debiti_fornitori acc) total] /\
    validate ep accounts periods entries = accounts_and_period_errors ep accounts periods.
Proof.
  intros Hqn Hqr Hn Hr Hv. cbv zeta.
  eexists. eexists.
  split; [exact (sales_invoice_built n r Hn Hr Hv acc date0 who doc_no doc_date descr
                   net_amount rate_in Hqn Hqr)|].
  split; [reflexivity|].
  split.
  { apply validate_amount_rules_pass.
    - eapply (sales_lines_balanced n r Hn Hr Hv). reflexivity.
    - eapply (sales_lines_balanced n r Hn Hr Hv). reflexivity.
    - reflexivity.
    - apply (invoice_vat_consistent n r Hn Hr Hv); reflexivity. }
  split; [exact (purchase_invoice_built n r Hn Hr Hv acc date0 who doc_no doc_date descr
                   net_amount rate_in expense Hqn Hqr)|].
  split; [reflexivity|].
  apply validate_amount_rules_pass.
  - eapply (purchase_lines_balanced n r Hn Hr Hv). reflexivity.
  - eapply (purchase_lines_balanced n r Hn Hr Hv). reflexivity.
  - reflexivity.
  - apply (invoice_vat_consistent n r Hn Hr Hv); reflexivity.
Qed.

Lemma invoice_entries_pass_amount_rules_witness :
  exists es,
    build_sales_invoice default_account_map "2025-06-01" "CLI-001" (Some "FA-7")
      (Some "2025-06-01") "Fattura" (DFin false 9995 (-2)) (DFin false 22 (-2)) = Ok es /\
    map (fun l => (account_id l, dare l, avere l)) (lines es)
    = [("1410", DFin false 12194 (-2), dec_zero);
       ("4100", dec_zero, DFin false 9995 (-2));
       ("2321", dec_zero, DFin false 2199 (-2))] /\
    validate es (AccountsRepoDB no_faults (fresh_conn service_db))
      (PeriodsRepoDB no_faults (fresh_conn service_db))
      (EntriesRepoDB no_faults (fresh_conn service_db)) = Ok [].
Proof.
  assert (Hn : (9995 < 10 ^ 18)%N) by reflexivity.
  assert (Hr : (22 < 10 ^ 6)%N) by reflexivity.
  assert (Hv : (50 <= 9995 * 22)%N) by (vm_compute; discriminate).
  destruct (invoice_entries_pass_amount_rules default_account_map "2025-06-01" "CLI-001"
              (Some "FA-7") (Some "2025-06-01") "Fattura"
              (DFin false 9995 (-2)) (DFin false 22 (-2)) None 9995 22
              (AccountsRepoDB no_faults (fresh_conn service_db))
              (PeriodsRepoDB no_faults (fresh_conn service_db))
              (EntriesRepoDB no_faults (fresh_conn service_db))
              eq_refl eq_refl Hn Hr Hv)
    as [es [ep [Hb [Hl [Hval _]]]]].
  exists es. split; [exact Hb|]. split.
  - rewrite Hl. reflexivity.
  - rewrite Hval. unfold accounts_and_period_errors, validate_accounts_exist.
    rewrite Hl.
    assert (Hd : date es = "2025-06-01").
    { apply (f_equal (fun x => match x with Ok e => date e | Raise _ => EmptyString end))
        in Hb. cbn in Hb. symmetry. exact Hb. }
    unfold validate_period_open. rewrite Hd. reflexivity.
Defined.

(** ** Invoices without VAT *)

(** A product of less than half a cent rounds to zero cents. *)
Lemma q2_tiny_product (sn sr : bool) (n r : N) :
  (n * r < 50)%N ->
  exists prod s0,
    dec_mul (DFin sn n (-2)) (DFin sr r (-2)) = Ok prod /\
    q2 (Some prod) = Ok (DFin s0 0 (-2)).
Proof.
  intros Hp. unfold dec_mul. cbv zeta.
  destruct (N.eqb_spec (n * r) 0) as [E|E].
  - eexists. exists false. split; [reflexivity|]. reflexivity.
  - rewrite dec_fix_small by lia. rewrite N2Z.id.
    eexists. exists (xorb sn sr). split; [reflexivity|].
    unfold q2, quantize2. cbn [dec_bool].
    destruct (N.eqb_spec (n * r) 0) as [|_]; [contradiction|]. cbn [negb].
    destruct (N.eqb_spec (n * r) 0) as [|_]; [contradiction|].
    assert (Hd : ndigits (n * r) <= 2) by (apply ndigits_bound; lia).
    destruct (Z.gtb_spec (-2 + -2 + ndigits (n * r) - 1 + 2 + 1) prec) as [H|_];
      [unfold prec in H; lia|].
    cbv zeta. replace (-2 + -2 >=? -2) with false by reflexivity.
    replace (- (-2 + -2) - 3) with 1 by reflexivity.
    replace (- (-2 + -2) - 2) with 2 by reflexivity.
    replace ((Z.of_N (n * r) + 5 * 10 ^ 1) / 10 ^ 2) with 0.
    + reflexivity.
    + symmetry. apply Z.div_small. replace (10 ^ 2) with 100 by reflexivity.
      replace (5 * 10 ^ 1) with 50 by reflexivity. lia.
Qed.

(** The sign rules keep what they found on every line. *)
Lemma no_negative_collects (ls : list LineDTO) (acc0 res : list LedgerError) :
  foldR (fun errs l => bindR (line_sign_errors l) (fun es => Ok (errs ++ es)%list))
        ls acc0 = Ok res ->
  incl acc0 res /\
  forall l, In l ls -> exists es, line_sign_errors l = Ok es /\ incl es res.
Proof.
  revert acc0. induction ls as [|x ls IH]; intros acc0; cbn [foldR].
  - intros [= <-]. split; [apply incl_refl|intros l []].
  - destruct (line_sign_errors x) as [es|] eqn:Ex; [|discriminate]. cbn [bindR].
    intros H. apply IH in H. destruct H as [Hacc Hall]. split.
    + intros e He. apply Hacc, in_or_app. now left.
    + intros l [<-|Hl]; [|exact (Hall l Hl)].
      exists es. split; [exact Ex|]. intros e He. apply Hacc, in_or_app. now right.
Qed.

(** A line whose only amount is zero cents is reported as empty. *)
Lemma empty_line_reported (entry : EntryDTO) (l : LineDTO) (s0 : bool) (e2 : list LedgerError) :
  In l (lines entry) ->
  (dare l = dec_zero /\ avere l = DFin s0 0 (-2)) \/
  (dare l = DFin s0 0 (-2) /\ avere l = dec_zero) ->
  validate_no_negative entry = Ok e2 ->
  In EMPTY_LINES (map code e2).
Proof.
  intros Hin Hz Hv. unfold validate_no_negative in Hv.
  apply no_negative_collects in Hv. destruct Hv as [_ Hall].
  destruct (Hall l Hin) as [es [Hes Hincl]].
  assert (Hc : map code es = [EMPTY_LINES]).
  { unfold line_sign_errors in Hes.
    destruct Hz as [[Hd Ha]|[Hd Ha]]; rewrite Hd, Ha in Hes;
      destruct s0; cbn in Hes; injection Hes as <-; reflexivity. }
  destruct es as [|e [|e' es]]; try discriminate. injection Hc as Hc.
  rewrite <- Hc. apply in_map, Hincl. now left.
Qed.

Lemma post_entry_with_empty_line (env : Env) now (entry : EntryDTO) user_id series key
    (l : LineDTO) (s0 : bool) (c c' : Conn) (res : Res EntryResult) :
  In l (lines entry) ->
  (dare l = dec_zero /\ avere l = DFin s0 0 (-2)) \/
  (dare l = DFin s0 0 (-2) /\ avere l = dec_zero) ->
  post_entry env now entry user_id series key c = (c', res) ->
  c' = c /\
  exists x, res = Ok x /\ success x = false /\
            (In EMPTY_LINES (map code (error_details x)) \/
             map code (error_details x) = [DB_ERROR]).
Proof.
  intros Hin Hz. unfold post_entry, post_db, post.
  destruct (validate entry (AccountsRepoDB env c) (PeriodsRepoDB env c)
              (EntriesRepoDB env c)) as [errs|ev] eqn:Ev.
  - destruct (validate_ok_inv _ _ _ _ _ Ev) as [e1 [e2 [e3 [e4 [e5 [e6 [_ [H2 [_ [_ [_ [_ ->]]]]]]]]]]]].
    pose proof (empty_line_reported entry l s0 e2 Hin Hz H2) as He.
    assert (Hall : In EMPTY_LINES (map code (e1 ++ e2 ++ e3 ++ e4 ++ e5 ++ e6))).
    { rewrite !map_app. apply in_or_app. right. apply in_or_app. now left. }
    destruct (e1 ++ e2 ++ e3 ++ e4 ++ e5 ++ e6)%list as [|err errs] eqn:El;
      [destruct Hall|].
    intros [= <- <-]. split; [reflexivity|]. eexists. split; [reflexivity|].
    split; [reflexivity|]. left. exact Hall.
  - intros [= <- <-]. split; [reflexivity|]. eexists. split; [reflexivity|].
    split; [reflexivity|]. right. reflexivity.
Qed.

(** X15. An invoice whose VAT rounds to zero cents (a rate of zero, as for
    an exempt operation, or a net amount so small that net times rate is
    below half a cent) is never posted by [post_sales_invoice] and
    [post_purchase_invoice]: the builder still adds the VAT line, with
    amount 0.00, and the validator reports it as EMPTY_LINES.  The call
    leaves the connection as it was, and returns a failure that carries
    EMPTY_LINES (or the single error DB_ERROR if a repository query
    failed); if the builder itself raises, nothing is returned. *)
Theorem invoice_without_vat_is_never_posted (env : Env) now (acc : AccountMap)
    (date0 who : string) (doc_no doc_date : option string) (descr : string)
    (net_amount rate_in : Decimal) (user_id : string) (expense : option string)
    (series : string) (key : option string)
    (sn sr : bool) (n r : N) (m : M EntryResult) (c c' : Conn) (res : Res EntryResult) :
  q2 (Some net_amount) = Ok (DFin sn n (-2)) ->
  q2 (Some rate_in) = Ok (DFin sr r (-2)) ->
  (n * r < 50)%N ->
  In m [post_sales_invoice env now acc date0 who doc_no doc_date descr net_amount rate_in
          user_id series key;
        post_purchase_invoice env now acc date0 who doc_no doc_date descr net_amount
          rate_in user_id expense series key] ->
  m c = (c', res) ->
  c' = c /\
  forall x, res = Ok x ->
    success x = false /\
    (In EMPTY_LINES (map code (error_details x)) \/
     map code (error_details x) = [DB_ERROR]).
Proof.
  intros Hqn Hqr Hp Hm Hrun.
  destruct (q2_tiny_product sn sr n r Hp) as [prod [s0 [Hmul Hq]]].
  assert (Hgoal : forall entry (l : LineDTO) dk k,
            In l (lines entry) ->
            (dare l = dec_zero /\ avere l = DFin s0 0 (-2)) \/
            (dare l = DFin s0 0 (-2) /\ avere l = dec_zero) ->
            post_built env now (Ok entry) user_id series k dk c = (c', res) ->
            c' = c /\
            forall x, res = Ok x ->
              success x = false /\
              (In EMPTY_LINES (map code (error_details x)) \/
               map code (error_details x) = [DB_ERROR])).
  { intros entry l dk k Hin Hz Hpost. unfold post_built in Hpost. cbv zeta in Hpost.
    destruct (post_entry_with_empty_line _ _ _ _ _ _ l s0 _ _ _ Hin Hz Hpost)
      as [-> [x [-> [Hs Hc]]]].
    split; [reflexivity|]. intros x' [= <-]. auto. }
  destruct Hm as [<-|[<-|[]]].
  - unfold post_sales_invoice in Hrun.
    destruct (build_sales_invoice acc date0 who doc_no doc_date descr net_amount rate_in)
      as [entry|e] eqn:Eb.
    2: { unfold post_built in Hrun. injection Hrun as <- <-.
         split; [reflexivity|]. intros x [=]. }
    unfold build_sales_invoice in Eb. rewrite Hqn, Hqr in Eb. cbn [bindR] in Eb.
    rewrite Hmul in Eb. cbn [bindR] in Eb. rewrite Hq in Eb. cbn [bindR] in Eb.
    destruct (dec_add (DFin sn n (-2)) (DFin s0 0 (-2))) as [sum|]; [|discriminate].
    cbn [bindR] in Eb. destruct (q2 (Some sum)) as [total|]; [|discriminate].
    cbn [bindR] in Eb. injection Eb as <-.
    eapply (Hgoal _ (line_avere (iva_a_debito acc) (DFin s0 0 (-2)))); [| |exact Hrun].
    + cbn [lines]. right. right. left. reflexivity.
    + left. split; reflexivity.
  - unfold post_purchase_invoice in Hrun.
    destruct (build_purchase_invoice acc date0 who doc_no doc_date descr net_amount
                rate_in expense) as [entry|e] eqn:Eb.
    2: { unfold post_built in Hrun. injection Hrun as <- <-.
         split; [reflexivity|]. intros x [=]. }
    unfold build_purchase_invoice in Eb. rewrite Hqn, Hqr in Eb. cbn [bindR] in Eb.
    rewrite Hmul in Eb. cbn [bindR] in Eb. rewrite Hq in Eb. cbn [bindR] in Eb.
    destruct (dec_add (DFin sn n (-2)) (DFin s0 0 (-2))) as [sum|]; [|discriminate].
    cbn [bindR] in Eb. destruct (q2 (Some sum)) as [total|]; [|discriminate].
    cbn [bindR] in Eb. injection Eb as <-.
    eapply (Hgoal _ (line_dare (iva_a_credito acc) (DFin s0 0 (-2)))); [| |exact Hrun].
    + cbn [lines]. right. left. reflexivity.
    + right. split; reflexivity.
Qed.

Lemma invoice_without_vat_is_never_posted_witness :
  let c := fresh_conn service_db in
  exists x,
    post_sales_invoice no_faults sample_now default_account_map "2025-06-01" "CLI-002"
      (Some "FA-8") (Some "2025-06-01") "Fattura esente"
      (DFin false 50000 (-2)) dec_zero "tester" "GEN" None c = (c, Ok x) /\
    success x = false /\
    map code (error_details x) = [EMPTY_LINES].
Proof.
  cbv zeta.
  destruct (post_sales_invoice no_faults sample_now default_account_map "2025-06-01"
              "CLI-002" (Some "FA-8") (Some "2025-06-01") "Fattura esente"
              (DFin false 50000 (-2)) dec_zero "tester" "GEN" None
              (fresh_conn service_db)) as [c' res] eqn:E.
  assert (Hp : (50000 * 0 < 50)%N) by reflexivity.
  destruct (invoice_without_vat_is_never_posted no_faults sample_now default_account_map
              "2025-06-01" "CLI-002" (Some "FA-8") (Some "2025-06-01") "Fattura esente"
              (DFin false 50000 (-2)) dec_zero "tester" None "GEN" None
              false false 50000 0 _ _ c' res eq_refl eq_refl Hp (or_introl eq_refl) E)
    as [-> Hres].
  apply (f_equal snd) in E. cbn [snd] in E. subst res.
  eexists. split; [vm_compute; reflexivity|]. split; reflexivity.
Defined.

(** ** The default idempotence key *)

(** With a key that has a stored row, [post] writes nothing: it returns the
    stored result, or a failure. *)
Lemma post_stored_key (env : Env) now entry user_id accounts periods entries series
    (key : string) (row : IdemRow) (c c' : Conn) (res : Res EntryResult) :
  key <> EmptyString ->
  find_idempotence key (tbl_idempotence (db c)) = Some row ->
  post env now entry user_id accounts periods entries series (Some key) c = (c', res) ->
  db c' = db c /\
  forall r, res = Ok r ->
    r = success_result (idm_entry_id row) (idm_protocol row) \/ success r = false.
Proof.
  intros Hk Hrow. unfold post.
  destruct (validate entry accounts periods entries) as [[|err errs]|ev].
  2: { intros [= <- <-]. split; [reflexivity|]. intros r [= <-]. now right. }
  2: { intros [= <- <-]. split; [reflexivity|]. intros r [=]. }
  unfold transaction.
  destruct (begin_loop env max_retries 0 c) as [c1 [[]|eb]] eqn:Eb.
  2: { apply begin_loop_raise in Eb. subst c1. intros [= <- <-].
       split; [reflexivity|]. intros r [= <-]. now right. }
  apply begin_loop_ok in Eb. destruct Eb as [Hs ->].
  unfold post_body, truthy_str.
  destruct (String.eqb_spec key EmptyString) as [|_]; [contradiction|]. cbn [negb].
  unfold bindM, liftR, query, exec.
  destruct (idempotence_content entry user_id) as [content|ec].
  2: { cbn [conn_rollback saved db]. intros [= <- <-].
       split; [reflexivity|]. intros r [= <-]. now right. }
  destruct (stmt_fault env SSelectIdempotence) as [es|].
  { cbn [conn_rollback saved db]. intros [= <- <-].
    split; [reflexivity|]. intros r [= <-]. now right. }
  cbn [db saved tx_log]. rewrite Hrow. unfold conn_commit, retM.
  destruct (idm_payload_hash row =? payload_hash (JDict content))%string;
    cbn [saved db tx_log];
    (destruct (stmt_fault env STxCommit) as [ecm|];
     [cbn [conn_rollback saved db]; intros [= <- <-];
      split; [reflexivity|]; intros r [= <-]; now right
     |intros [= <- <-]; split; [reflexivity|]; intros r [= <-]]).
  - now left.
  - now right.
Qed.

(** After a successful [post] under a key, the key has a row that holds the
    result. *)
Lemma post_stores_key (env : Env) now entry user_id accounts periods entries series
    (key : string) (c c' : Conn) (r : EntryResult) :
  key <> EmptyString ->
  post env now entry user_id accounts periods entries series (Some key) c = (c', Ok r) ->
  success r = true ->
  exists row,
    find_idempotence key (tbl_idempotence (db c')) = Some row /\
    r = success_result (idm_entry_id row) (idm_protocol row).
Proof.
  intros Hk Hp Hs.
  destruct (post_success_cases _ _ _ _ _ _ _ _ _ _ _ _ Hp Hs)
    as [_ [_ [[c2 [Hf Hdb]]|[Hdb [k [row [[= <-] [Hrow Hr]]]]]]]].
  - apply post_fresh_ok in Hf. cbv zeta in Hf. cbn [db] in Hf.
    destruct Hf as [Hr [_ [_ [_ [_ Hidem]]]]].
    destruct (Hidem key eq_refl Hk) as [content [_ [Hnone Htbl]]].
    eexists. rewrite Hdb, Htbl. split.
    + apply find_idempotence_snoc. exact Hnone.
    + exact Hr.
  - exists row. rewrite Hdb. auto.
Qed.

Lemma default_key_nonempty (prefix date0 : string) (doc_no : option string) (descr : string) :
  prefix <> EmptyString -> _default_idempotence_key prefix date0 doc_no descr <> EmptyString.
Proof.
  intros Hp. unfold _default_idempotence_key.
  destruct prefix as [|a p]; [contradiction|]. discriminate.
Qed.

Lemma str_or_none (b : string) : b <> EmptyString -> str_or None b = b.
Proof. intros _. unfold str_or, or_str. cbn [truthy_str]. reflexivity. Qed.

(** X16. The default idempotence key of a cash receipt is made of its date
    and its description only.  Once [post_cash_receipt] has succeeded
    without an explicit key, no further call without a key for the same
    date and description records anything, whatever its amount, customer,
    bank account, user or series: the database stays as it is, and the call
    returns the result of the first receipt again (when the content hashes
    are equal) or a failure. *)
Theorem default_key_hides_later_receipts
    (env1 : Env) now1 (acc1 : AccountMap) (date0 who1 descr : string) (amount1 : Decimal)
    (user1 : string) (bank1 : option string) (series1 : string)
    (c0 c1 : Conn) (r1 : EntryResult)
    (env2 : Env) now2 (acc2 : AccountMap) (who2 : string) (amount2 : Decimal)
    (user2 : string) (bank2 : option string) (series2 : string)
    (c2 : Conn) (res2 : Res EntryResult) :
  post_cash_receipt env1 now1 acc1 date0 who1 descr amount1 user1 bank1 series1 None c0
  = (c1, Ok r1) ->
  success r1 = true ->
  post_cash_receipt env2 now2 acc2 date0 who2 descr amount2 user2 bank2 series2 None c1
  = (c2, res2) ->
  db c2 = db c1 /\
  forall r2, res2 = Ok r2 -> r2 = r1 \/ success r2 = false.
Proof.
  intros H1 Hs H2.
  set (key := _default_idempotence_key "RECEIPT" date0 None descr) in *.
  assert (Hk : key <> EmptyString) by (apply default_key_nonempty; discriminate).
  unfold post_cash_receipt, post_built in H1, H2. cbv zeta in H1, H2.
  fold key in H1, H2. rewrite (str_or_none key Hk) in H1, H2.
  destruct (build_cash_receipt acc1 date0 who1 descr amount1 bank1) as [entry1|e1];
    [|discriminate].
  assert (Hrow : exists row,
             find_idempotence key (tbl_idempotence (db c1)) = Some row /\
             r1 = success_result (idm_entry_id row) (idm_protocol row)).
  { unfold post_entry, post_db in H1.
    destruct (post env1 now1 entry1 user1 (AccountsRepoDB env1 c0) (PeriodsRepoDB env1 c0)
                (EntriesRepoDB env1 c0) (Some series1) (Some key) c0)
      as [c1' [x|ex]] eqn:Ep.
    - injection H1 as -> ->. exact (post_stores_key _ _ _ _ _ _ _ _ _ _ _ _ Hk Ep Hs).
    - injection H1 as _ <-. discriminate. }
  destruct Hrow as [row [Hrow ->]].
  destruct (build_cash_receipt acc2 date0 who2 descr amount2 bank2) as [entry2|e2].
  2: { injection H2 as <- <-. split; [reflexivity|]. intros r2 [=]. }
  unfold post_entry, post_db in H2.
  destruct (post env2 now2 entry2 user2 (AccountsRepoDB env2 c1) (PeriodsRepoDB env2 c1)
              (EntriesRepoDB env2 c1) (Some series2) (Some key) c1)
    as [c2' [x|ex]] eqn:Ep.
  - injection H2 as <- <-.
    destruct (post_stored_key _ _ _ _ _ _ _ _ _ _ _ _ _ Hk Hrow Ep) as [Hdb Hres].
    split; [exact Hdb|]. intros r2 [= <-]. apply Hres. reflexivity.
  - injection H2 as <- <-.
    destruct (post_stored_key _ _ _ _ _ _ _ _ _ _ _ _ _ Hk Hrow Ep) as [Hdb _].
    split; [exact Hdb|]. intros r2 [= <-]. now right.
Qed.

Lemma default_key_hides_later_receipts_witness :
  exists c1 c2 r2,
    post_cash_receipt no_faults sample_now default_account_map "2025-03-10" "CLI-001"
      "Incasso" (dec2 5000) "tester" None "GEN" None (fresh_conn service_db)
    = (c1, Ok (success_result 1 "2025/GEN/000001")) /\
    post_cash_receipt no_faults sample_later default_account_map "2025-03-10" "CLI-002"
      "Incasso" (dec2 7500) "tester" None "GEN" None c1
    = (c2, Ok r2) /\
    db c2 = db c1 /\ success r2 = false /\
    map code (error_details r2) = [IDEMPOTENCE_CONFLICT].
Proof.
  destruct (post_cash_receipt no_faults sample_now default_account_map "2025-03-10"
              "CLI-001" "Incasso" (dec2 5000) "tester" None "GEN" None
              (fresh_conn service_db)) as [c1 res1] eqn:E1.
  assert (Hr1 : res1 = Ok (success_result 1 "2025/GEN/000001")).
  { apply (f_equal snd) in E1. cbn [snd] in E1. rewrite <- E1. vm_compute. reflexivity. }
  subst res1.
  destruct (post_cash_receipt no_faults sample_later default_account_map "2025-03-10"
              "CLI-002" "Incasso" (dec2 7500) "tester" None "GEN" None c1)
    as [c2 res2] eqn:E2.
  destruct (default_key_hides_later_receipts _ _ _ _ _ _ _ _ _ _ _ _ _ _ _ _ _ _ _ _ _ _ _
              E1 eq_refl E2) as [Hdb _].
  assert (Hc1 : c1 = fst (post_cash_receipt no_faults sample_now default_account_map
                            "2025-03-10" "CLI-001" "Incasso" (dec2 5000) "tester" None
                            "GEN" None (fresh_conn service_db)))
    by (rewrite E1; reflexivity).
  assert (Hr2 : exists r2, res2 = Ok r2 /\ success r2 = false /\
                           map code (error_details r2) = [IDEMPOTENCE_CONFLICT]).
  { apply (f_equal snd) in E2. cbn [snd] in E2. rewrite <- E2, Hc1.
    eexists. split; [vm_compute; reflexivity|]. split; reflexivity. }
  destruct Hr2 as [r2 [-> [Hs2 Hcode]]].
  exists c1, c2, r2. auto.
Defined.

(** ** Reading the lines of an entry back *)

Lemma strip_zeros_pow (k n : nat) (m e : Z) :
  strip_zeros (k + n) (m * 10 ^ Z.of_nat k) e = strip_zeros n m (e + Z.of_nat k).
Proof.
  revert e. induction k as [|k IH]; intros e.
  - cbn [Nat.add Z.of_nat]. rewrite Z.pow_0_r, Z.mul_1_r, Z.add_0_r. reflexivity.
  - cbn [Nat.add strip_zeros].
    rewrite Nat2Z.inj_succ, Z.pow_succ_r by lia.
    replace (m * (10 * 10 ^ Z.of_nat k)) with (m * 10 ^ Z.of_nat k * 10) by ring.
    rewrite Z.mod_mul by lia. cbn [Z.eqb]. rewrite Z.div_mul by lia.
    rewrite IH. f_equal. lia.
Qed.

(** What is left after at most two steps: the cents, with the value kept. *)
Lemma strip_two (n : Z) :
  0 < n ->
  let s := strip_zeros 2 n (-2) in
  0 < fst s <= n /\ -2 <= snd s <= 0 /\ fst s * 10 ^ (snd s + 2) = n.
Proof.
  intros Hn. cbv zeta. cbn [strip_zeros].
  destruct (Z.eqb_spec (n mod 10) 0) as [E1|E1].
  - assert (H1 : n = 10 * (n / 10)) by (rewrite (Z.div_mod n 10) at 1; lia).
    assert (H1' : 0 < n / 10) by lia.
    destruct (Z.eqb_spec ((n / 10) mod 10) 0) as [E2|E2].
    + assert (H2 : n / 10 = 10 * (n / 10 / 10))
        by (rewrite (Z.div_mod (n / 10) 10) at 1; lia).
      cbn [fst snd]. replace (-2 + 1 + 1 + 2) with 2 by reflexivity.
      replace (10 ^ 2) with 100 by reflexivity. lia.
    + cbn [fst snd]. replace (-2 + 1 + 2) with 1 by reflexivity.
      rewrite Z.pow_1_r. lia.
  - cbn [fst snd]. replace (-2 + 2) with 0 by reflexivity. rewrite Z.pow_0_r. lia.
Qed.

Lemma ndigits_pos (c : N) : 1 <= ndigits c.
Proof.
  unfold ndigits. destruct (N.to_uint c) eqn:E; cbn [Decimal.nb_digits]; try lia.
  exfalso. destruct c; cbn in E; [discriminate|].
  pose proof (DecimalPos.Unsigned.to_uint_nonnil p). congruence.
Qed.

(** [Decimal(z) / 100] for a number of cents other than zero. *)
Lemma dec_div_cents (z : Z) :
  z <> 0 -> Z.abs z < 10 ^ 28 ->
  exists c e,
    dec_div (dec_of_int z) (dec_of_int 100) = Ok (DFin (z <? 0) c e) /\
    -2 <= e <= 0 /\ Z.of_N c * 10 ^ (e + 2) = Z.abs z.
Proof.
  intros Hz Hb. unfold dec_div, dec_of_int.
  replace (100 <? 0) with false by reflexivity.
  replace (Z.abs_N 100) with 100%N by reflexivity.
  rewrite xorb_false_r.
  replace (100 =? 0)%N with false by reflexivity.
  destruct (N.eqb_spec (Z.abs_N z) 0) as [E|_]; [lia|].
  cbv zeta.
  replace (ndigits 100) with 3 by reflexivity.
  set (L := ndigits (Z.abs_N z)).
  assert (HL : 1 <= L <= 28).
  { split; [apply ndigits_pos|]. apply ndigits_small; [lia|lia|].
    rewrite N2Z.inj_abs_N. exact Hb. }
  set (shift := 3 - L + prec + 1).
  assert (Hshift : shift = Z.of_nat (Z.to_nat (shift - 2)) + 2)
    by (unfold shift, prec; lia).
  destruct (Z.geb_spec shift 0) as [_|H]; [|unfold shift, prec in H; lia].
  rewrite N2Z.inj_abs_N.
  replace (Z.of_N 100) with (10 ^ 2) by reflexivity.
  assert (Hnum : Z.abs z * 10 ^ shift
                 = Z.abs z * 10 ^ Z.of_nat (Z.to_nat (shift - 2)) * 10 ^ 2).
  { rewrite Hshift at 1. rewrite Z.pow_add_r by lia. ring. }
  rewrite Hnum, Z.mod_mul, Z.div_mul by (vm_compute; discriminate).
  cbn [Z.eqb negb].
  replace (0 - 0 - (0 - 0 - shift)) with shift by lia.
  replace (Z.to_nat shift) with (Z.to_nat (shift - 2) + 2)%nat by lia.
  rewrite strip_zeros_pow.
  replace (0 - 0 - shift + Z.of_nat (Z.to_nat (shift - 2))) with (-2) by lia.
  destruct (strip_two (Z.abs z)) as [Hc [He Hv]]; [lia|].
  set (s := strip_zeros 2 (Z.abs z) (-2)) in *.
  rewrite dec_fix_small by lia.
  exists (Z.to_N (fst s)), (snd s). split; [reflexivity|]. split; [exact He|].
  rewrite Z2N.id by lia. exact Hv.
Qed.

(** One amount, from the cents stored. *)
Lemma amount_read_back (d : Decimal) (z : Z) :
  cents (Some d) = Ok z -> small_amount d ->
  exists o, amount_of_cents z = Ok o /\ read_back d o.
Proof.
  intros Hc Hs.
  destruct (cents_exact d z Hc Hs) as [s [c [Hq [-> Hb]]]].
  unfold amount_of_cents, read_back.
  destruct (Z.eqb_spec (signed s c) 0) as [E|E].
  - exists None. split; [reflexivity|]. eexists. split; [exact Hq|].
    unfold dec_eq, dec_compare, dec_zero.
    replace (Z.min (-2) 0) with (-2) by reflexivity. rewrite E. reflexivity.
  - pose proof (signed_bound s c) as Ha.
    destruct (dec_div_cents (signed s c) E) as [c' [e' [Hd [He Hv]]]]; [lia|].
    rewrite Hd. cbn [bindR]. eexists. split; [reflexivity|].
    eexists. split; [exact Hq|]. split.
    + unfold dec_eq, dec_compare.
      replace (Z.min e' (-2)) with (-2) by lia.
      replace (-2 - -2) with 0 by reflexivity. rewrite Z.pow_0_r, Z.mul_1_r.
      replace (e' - -2) with (e' + 2) by lia.
      assert (Heq : signed (signed s c <? 0) c' * 10 ^ (e' + 2) = signed s c).
      { unfold signed at 1. destruct (Z.ltb_spec (signed s c) 0); lia. }
      rewrite Heq, Z.compare_refl. reflexivity.
    + unfold dec_eq, dec_compare, dec_zero.
      replace (Z.min (-2) 0) with (-2) by reflexivity.
      replace (-2 - -2) with 0 by reflexivity. rewrite Z.pow_0_r, Z.mul_1_r.
      cbn [signed Z.of_N Z.mul].
      destruct (Z.compare_spec (signed s c) 0); [contradiction|reflexivity|reflexivity].
Qed.

Lemma lines_read_back (eid : Z) (ls : list LineDTO) (rows : list LineRow) :
  Forall (fun l => small_amount (dare l) /\ small_amount (avere l)) ls ->
  Forall2 (fun l row =>
             ln_entry_id row = eid /\ ln_account_code row = account_id l /\
             cents (Some (dare l)) = Ok (ln_dare_cents row) /\
             cents (Some (avere l)) = Ok (ln_avere_cents row)) ls rows ->
  exists snaps,
    mapR line_snapshot rows = Ok snaps /\
    Forall2 (fun l s =>
               snap_account_id s = account_id l /\
               read_back (dare l) (snap_dare s) /\
               read_back (avere l) (snap_avere s)) ls snaps.
Proof.
  intros Hsmall H. induction H as [|l row ls rows [Hid [Hacc [Hd Ha]]] _ IH].
  - exists []. split; [reflexivity|constructor].
  - inversion Hsmall as [|? ? [Hsd Hsa] Hrest]; subst.
    destruct (IH Hrest) as [snaps [Hm Hall]].
    destruct (amount_read_back _ _ Hd Hsd) as [od [Hod Hrd]].
    destruct (amount_read_back _ _ Ha Hsa) as [oa [Hoa Hra]].
    exists (mkLineSnapshot (ln_account_code row) od oa :: snaps). split.
    + cbn [mapR]. unfold line_snapshot at 1. rewrite Hod, Hoa. cbn [bindR].
      rewrite Hm. reflexivity.
    + constructor; [|exact Hall]. cbn. auto.
Qed.

Lemma filter_none {A : Type} (f : A -> bool) (l : list A) :
  (forall x, In x l -> f x = false) -> filter f l = [].
Proof.
  induction l as [|x l IH]; intros H; [reflexivity|]. cbn [filter].
  rewrite (H x) by now left. apply IH. intros y Hy. apply H. now right.
Qed.

Lemma filter_all {A : Type} (f : A -> bool) (l : list A) :
  (forall x, In x l -> f x = true) -> filter f l = l.
Proof.
  induction l as [|x l IH]; intros H; [reflexivity|]. cbn [filter].
  rewrite (H x) by now left. f_equal. apply IH. intros y Hy. apply H. now right.
Qed.

(** X17. What [post] stores, [get_entry_lines] reads back.  After a
    successful posting that is not a replay (amounts below 10^18 cents, in
    a database whose line rows all belong to entry rows),
    [get_entry_lines(entry_id)] returns one line for each line of the entry,
    in order, with the same account; an amount comes back as a [Decimal]
    equal to the posted amount rounded to cents, and as [None] where the
    posted amount rounds to zero - so every line read back has [None] on one
    side. *)
Theorem posted_lines_read_back (env : Env) (senv : ServiceEnv) now entry user_id
    accounts periods entries series key (c c' : Conn) (r : EntryResult) :
  post env now entry user_id accounts periods entries series key c = (c', Ok r) ->
  success r = true ->
  truthy_str key = false \/
    (exists k, key = Some k /\ find_idempotence k (tbl_idempotence (db c)) = None) ->
  Forall (fun l => small_amount (dare l) /\ small_amount (avere l)) (lines entry) ->
  lines_have_entries (db c) ->
  service_fault senv SGetEntryLines = None ->
  exists eid snaps,
    entry_id r = Some eid /\
    get_entry_lines senv eid c' = Ok snaps /\
    Forall2 (fun l s =>
               snap_account_id s = account_id l /\
               read_back (dare l) (snap_dare s) /\
               read_back (avere l) (snap_avere s)) (lines entry) snaps.
Proof.
  intros Hp Hs Hk Hsmall Hfk Hfault.
  destruct (post_fresh_of_post _ _ _ _ _ _ _ _ _ _ _ _ Hp Hs Hk)
    as [_ [_ [c2 [Hf Hdb]]]].
  apply post_fresh_tables in Hf. cbv zeta in Hf. cbn [db] in Hf.
  destruct Hf as [-> [_ [_ [_ [[rows [Hrows Hall]] _]]]]].
  set (eid := next_id (map ent_id (tbl_entries (db c)))) in *.
  destruct (lines_read_back eid (lines entry) rows Hsmall Hall) as [snaps [Hm Hsn]].
  exists eid, snaps. split; [reflexivity|]. split; [|exact Hsn].
  unfold get_entry_lines. rewrite Hfault, Hdb, Hrows, filter_app.
  rewrite filter_none, filter_all; [exact Hm| |].
  - intros row Hin. apply Z.eqb_eq.
    clear - Hall Hin. induction Hall as [|l x ls xs [Hid _] _ IH]; [destruct Hin|].
    destruct Hin as [<-|Hin]; [exact Hid|exact (IH Hin)].
  - intros row Hin. apply Z.eqb_neq.
    destruct (Hfk row Hin) as [e [He Hid]].
    assert (ent_id e < eid) by (apply next_id_above, in_map, He). lia.
Qed.

Lemma posted_lines_read_back_witness :
  exists c',
    post_db no_faults sample_now sales_invoice "tester" (Some "gen") None
      (fresh_conn sample_db) = (c', Ok (success_result 1 "2025/GEN/000001")) /\
    get_entry_lines (service_no_faults (fun _ _ _ => [])) 1 c'
    = Ok [mkLineSnapshot "1410" (Some (DFin false 122 0)) None;
          mkLineSnapshot "4100" None (Some (DFin false 100 0));
          mkLineSnapshot "2321" None (Some (DFin false 22 0))] /\
    exists snaps,
      get_entry_lines (service_no_faults (fun _ _ _ => [])) 1 c' = Ok snaps /\
      Forall2 (fun l s =>
                 snap_account_id s = account_id l /\
                 read_back (dare l) (snap_dare s) /\
                 read_back (avere l) (snap_avere s)) (lines sales_invoice) snaps.
Proof.
  destruct (post_db no_faults sample_now sales_invoice "tester" (Some "gen") None
              (fresh_conn sample_db)) as [c' res] eqn:E.
  assert (Hres : res = Ok (success_result 1 "2025/GEN/000001")).
  { apply (f_equal snd) in E. cbn [snd] in E. rewrite <- E. vm_compute. reflexivity. }
  subst res.
  assert (Hc : c' = fst (post_db no_faults sample_now sales_invoice "tester" (Some "gen")
                           None (fresh_conn sample_db))) by (rewrite E; reflexivity).
  assert (Hsmall : Forall (fun l => small_amount (dare l) /\ small_amount (avere l))
                          (lines sales_invoice)).
  { repeat constructor; intros s c0 e0 H; vm_compute in H; injection H as _ <- _;
      reflexivity. }
  assert (Hfk : lines_have_entries (db (fresh_conn sample_db))) by (intros row []).
  unfold post_db in E.
  destruct (posted_lines_read_back no_faults (service_no_faults (fun _ _ _ => []))
              _ _ _ _ _ _ _ _ _ _ _ E eq_refl (or_introl eq_refl) Hsmall Hfk eq_refl)
    as [eid [snaps [Hid [Hget Hall]]]].
  injection Hid as <-.
  exists c'. split; [reflexivity|]. split.
  - rewrite Hc. vm_compute. reflexivity.
  - exists snaps. split; [exact Hget|exact Hall].
Defined.

(** ** Closing a period *)

Lemma sqlite_date_re (s x : string) : sqlite_date s = Some x -> date_re_match s = true.
Proof. unfold sqlite_date. destruct (date_re_match s); [reflexivity|discriminate]. Qed.

(** An entry dated inside a closed period is turned down by [post] before
    anything is touched. *)
Lemma post_db_in_closed_period (env : Env) now (entry : EntryDTO) user_id series key
    (c c' : Conn) (res : Res EntryResult) (p : PeriodRow) :
  In p (tbl_periods (db c)) ->
  per_status p = "closed" ->
  dated_within p (date entry) ->
  post_db env now entry user_id series key c = (c', res) ->
  c' = c /\
  forall r, res = Ok r ->
    success r = false /\ entry_id r = None /\ protocol r = None /\
    In PERIOD_CLOSED (map code (error_details r)).
Proof.
  intros Hin Hst [x [Hx Hb]]. unfold post_db, post.
  destruct (validate entry (AccountsRepoDB env c) (PeriodsRepoDB env c)
              (EntriesRepoDB env c)) as [errs|e] eqn:Ev.
  - pose proof (closed_period_rejected env c entry _ _ p x errs
                  (sqlite_date_re _ _ Hx) Hin Hst Hx Hb Ev) as Hc.
    destruct errs as [|err errs]; [destruct Hc|].
    intros [= <- <-]. split; [reflexivity|]. intros r [= <-]. cbn. auto.
  - intros [= <- <-]. split; [reflexivity|]. intros r [=].
Qed.

Lemma post_adjustments_in_closed_period (senv : ServiceEnv) clock (k : nat)
    (es : list EntryDTO) user_id (c c' : Conn) (res : Res unit) (p : PeriodRow) :
  In p (tbl_periods (db c)) ->
  per_status p = "closed" ->
  Forall (fun e => dated_within p (date e)) es ->
  post_adjustments senv clock k es user_id c = (c', res) ->
  c' = c.
Proof.
  intros Hin Hst Hall. revert k. induction Hall as [|e es He _ IH]; intros k.
  - cbn [post_adjustments]. unfold retM. now intros [= <- _].
  - cbn [post_adjustments]. unfold bindM.
    destruct (post_db (engine_env senv) (clock k) e user_id (Some "ADJ") None c)
      as [c1 [r|ex]] eqn:E;
      destruct (post_db_in_closed_period _ _ _ _ _ _ _ _ _ p Hin Hst He E) as [-> _].
    + apply IH.
    + now intros [= <- _].
Qed.

(** The transaction that locks the period. *)
Lemma close_update_tables (env : Env) (fault : option PyExn) (year : string)
    (month : option string) (c c1 : Conn) (res : Res unit) :
  transaction env
    (exec_at fault
       (fun d => Ok (set_periods d (map (close_matching year month) (tbl_periods d)), tt)))
    c = (c1, res) ->
  tbl_entries (db c1) = tbl_entries (db c) /\
  tbl_entry_lines (db c1) = tbl_entry_lines (db c) /\
  (forall u, res = Ok u ->
     tbl_periods (db c1) = map (close_matching year month) (tbl_periods (db c))).
Proof.
  unfold transaction.
  destruct (begin_loop env max_retries 0 c) as [cb [[]|eb]] eqn:Eb.
  2: { apply begin_loop_raise in Eb. subst cb. intros [= <- <-].
       repeat split. intros u [=]. }
  apply begin_loop_ok in Eb. destruct Eb as [Hs ->].
  unfold exec_at. destruct fault as [e|]; cbn [db saved tx_log].
  { cbn [conn_rollback saved db]. intros [= <- <-]. repeat split. intros u [=]. }
  unfold conn_commit. cbn [saved db tx_log].
  destruct (stmt_fault env STxCommit) as [e|].
  - cbn [conn_rollback saved db]. intros [= <- <-]. repeat split. intros u [=].
  - intros [= <- <-]. cbn [db]. destruct (db c). cbn. repeat split.
Qed.

(** [log_action] writes to the audit log only. *)
Lemma log_action_tables (env : Env) now action user_id payload entry_id (c c' : Conn)
    (res : Res unit) :
  log_action env now action user_id payload entry_id c = (c', res) ->
  tbl_entries (db c') = tbl_entries (db c) /\
  tbl_entry_lines (db c') = tbl_entry_lines (db c) /\
  tbl_periods (db c') = tbl_periods (db c).
Proof.
  unfold log_action, bindM, query, exec, conn_commit, retM.
  destruct (truthy_int entry_id); [destruct entry_id as [eid|]|];
    destruct (stmt_fault env SSelectAuditLast);
    destruct (stmt_fault env SInsertAudit);
    destruct (stmt_fault env SAuditCommit);
    destruct (saved c) eqn:Es;
    cbn; rewrite ?Es; intros [= <- _]; cbn; auto.
Qed.

Lemma closing_entry_in_closed_period (senv : ServiceEnv) now equity (p p' : PeriodRow)
    user_id descr (c c' : Conn) (res : Res EntryResult) :
  In p' (tbl_periods (db c)) ->
  per_status p' = "closed" ->
  dated_within p' (per_end_date p) ->
  _post_income_closing_entry senv now equity p user_id descr c = (c', res) ->
  c' = c /\ forall r, res = Ok r -> entry_id r = None /\ protocol r = None.
Proof.
  intros Hin Hst Hd. unfold _post_income_closing_entry.
  match goal with |- context [match ?X with Ok _ => _ | Raise _ => _ end] =>
    destruct X as [[|l ls]|e]
  end.
  - intros [= <- <-]. split; [reflexivity|]. intros r [= <-]. auto.
  - intros H.
    destruct (post_db_in_closed_period _ _
                (plain_entry (per_end_date p) descr (l :: ls)) _ _ _ _ _ _ p'
                Hin Hst Hd H) as [-> Hr].
    split; [reflexivity|]. intros r Er. destruct (Hr r Er) as [_ [H1 [H2 _]]]. auto.
  - intros [= <- <-]. split; [reflexivity|]. intros r [=].
Qed.

(** X18. [close_period] locks the period before it posts, so nothing it
    posts is accepted.  Where the row found for (year, month) has an end
    date that SQLite's [date()] accepts and that is not before its start
    date, and the adjustments are dated within the period, no call of
    [close_period] writes an entry or a line: the adjustments and the
    closing entry reach the validator after the period has been set to
    'closed' and are turned down with PERIOD_CLOSED.  The result never
    carries an entry id or a protocol, and when the call returns for a
    period that was neither closed nor finalized, the period is closed. *)
Theorem close_period_never_posts (senv : ServiceEnv) (clock : nat -> string)
    (equity : string) (year : string) (month : option string) (user_id descr : string)
    (accruals : list AccrualItem) (deferrals : list DeferralItem)
    (amortizations : list AmortizationItem)
    (p : PeriodRow) (c c' : Conn) (res : Res EntryResult) :
  find (period_matches year month) (tbl_periods (db c)) = Some p ->
  dated_within p (per_end_date p) ->
  Forall (dated_within p)
    (map accrual_date_ accruals ++ map deferral_date_ deferrals ++
     map amortization_date_ amortizations) ->
  close_period senv clock equity year month user_id descr accruals deferrals
    amortizations c = (c', res) ->
  tbl_entries (db c') = tbl_entries (db c) /\
  tbl_entry_lines (db c') = tbl_entry_lines (db c) /\
  forall r, res = Ok r ->
    entry_id r = None /\ protocol r = None /\
    (per_status p <> "closed" -> per_status p <> "finalized" ->
     tbl_periods (db c') = map (close_matching year month) (tbl_periods (db c))).
Proof.
  intros Hfind Hend Hadj.
  destruct c as [d sv lg]. cbn [db] in Hfind. cbn [db].
  unfold close_period, bindM at 1, _get_period, exec_at.
  destruct (service_fault senv SGetPeriod) as [e|].
  { intros [= <- <-]. split; [reflexivity|]. split; [reflexivity|]. intros r [=]. }
  cbn [db saved tx_log]. rewrite Hfind.
  destruct (String.eqb_spec (per_status p) "closed") as [Ec|Ec].
  { unfold retM. intros [= <- <-]. split; [reflexivity|]. split; [reflexivity|].
    intros r [= <-]. split; [reflexivity|]. split; [reflexivity|]. contradiction. }
  destruct (String.eqb_spec (per_status p) "finalized") as [Ef|Ef].
  { unfold retM. intros [= <- <-]. split; [reflexivity|]. split; [reflexivity|].
    intros r [= <-]. split; [reflexivity|]. split; [reflexivity|]. contradiction. }
  set (c0 := {| db := d; saved := sv; tx_log := lg |}).
  set (adjustments := (map accrual_entry accruals ++ map deferral_entry deferrals ++
                       map amortization_entry amortizations)%list).
  unfold bindM at 1.
  destruct (transaction (engine_env senv) _ c0) as [c1 [[]|e1]] eqn:Et;
    destruct (close_update_tables _ _ _ _ _ _ _ Et) as [T1 [T2 T3]];
    cbn [db c0] in T1, T2, T3.
  2: { intros [= <- <-]. split; [exact T1|]. split; [exact T2|]. intros r [=]. }
  specialize (T3 tt eq_refl).
  (* the row found is closed now *)
  set (p' := mkPeriodRow (per_year p) (per_month p) (per_start_date p)
               (per_end_date p) "closed").
  assert (Hin' : In p' (tbl_periods (db c1))).
  { rewrite T3. apply find_some in Hfind. destruct Hfind as [Hin Hm].
    apply in_map_iff. exists p. split; [|exact Hin].
    unfold close_matching. rewrite Hm. reflexivity. }
  assert (Hw : forall s, dated_within p s -> dated_within p' s) by (intros s H; exact H).
  assert (Hdates : Forall (fun e => dated_within p' (date e)) adjustments).
  { unfold adjustments. rewrite !Forall_app in *. rewrite !Forall_map in *.
    destruct Hadj as [H1 [H2 H3]]. repeat split.
    - eapply Forall_impl; [|exact H1]. intros a H. exact (Hw _ H).
    - eapply Forall_impl; [|exact H2]. intros a H. exact (Hw _ H).
    - eapply Forall_impl; [|exact H3]. intros a H. exact (Hw _ H). }
  unfold bindM at 1.
  destruct (post_adjustments senv clock 0 adjustments user_id c1) as [c2 [[]|e2]] eqn:Ea;
    pose proof (post_adjustments_in_closed_period _ _ _ _ _ _ _ _ p' Hin' eq_refl
                  Hdates Ea) as ->.
  2: { intros [= <- <-]. split; [exact T1|]. split; [exact T2|]. intros r [=]. }
  unfold bindM at 1.
  destruct (_post_income_closing_entry senv (clock (List.length adjustments)) equity p
              user_id descr c1) as [c3 [cr|e3]] eqn:Ec3;
    destruct (closing_entry_in_closed_period _ _ _ _ p' _ _ _ _ _ Hin' eq_refl
                (Hw _ Hend) Ec3) as [-> Hcr].
  2: { intros [= <- <-]. split; [exact T1|]. split; [exact T2|]. intros r [=]. }
  destruct (Hcr cr eq_refl) as [Hid Hproto].
  unfold bindM.
  match goal with |- context [log_action ?e ?n ?a ?u ?pl ?i c1] =>
    destruct (log_action e n a u pl i c1) as [c4 [[]|e4]] eqn:El;
      destruct (log_action_tables _ _ _ _ _ _ _ _ _ El) as [L1 [L2 L3]]
  end.
  - unfold retM. intros [= <- <-]. rewrite L1, L2, L3.
    split; [exact T1|]. split; [exact T2|].
    intros r [= <-]. split; [exact Hid|]. split; [exact Hproto|]. intros _ _. exact T3.
  - intros [= <- <-]. rewrite L1, L2. split; [exact T1|]. split; [exact T2|].
    intros r [=].
Qed.

Lemma close_period_never_posts_witness :
  exists c' r,
    close_period (service_no_faults december_rows) (fun _ => sample_now) "9999"
      "2025" (Some "12") "tester" "Chiusura periodo" [december_accrual] [] []
      (fresh_conn december_db) = (c', Ok r) /\
    success r = false /\
    map code (error_details r) = [PERIOD_CLOSED] /\
    tbl_entries (db c') = tbl_entries december_db /\
    tbl_entry_lines (db c') = tbl_entry_lines december_db /\
    map per_status (tbl_periods (db c')) = ["open"; "closed"].
Proof.
  destruct (close_period (service_no_faults december_rows) (fun _ => sample_now) "9999"
              "2025" (Some "12") "tester" "Chiusura periodo" [december_accrual] [] []
              (fresh_conn december_db)) as [c' res] eqn:E.
  assert (Hres : exists r, res = Ok r /\ success r = false /\
                           map code (error_details r) = [PERIOD_CLOSED]).
  { apply (f_equal snd) in E. cbn [snd] in E. rewrite <- E.
    eexists. split; [vm_compute; reflexivity|]. split; reflexivity. }
  destruct Hres as [r [-> [Hs Hc]]].
  assert (Hfind : find (period_matches "2025" (Some "12"))
                    (tbl_periods (db (fresh_conn december_db)))
                  = Some (mkPeriodRow "2025" (Some "12") "2025-12-01" "2025-12-31" "open"))
    by reflexivity.
  assert (Hend : dated_within
                   (mkPeriodRow "2025" (Some "12") "2025-12-01" "2025-12-31" "open")
                   "2025-12-31")
    by (exists "2025-12-31"; split; reflexivity).
  assert (Hadj : Forall (dated_within
                           (mkPeriodRow "2025" (Some "12") "2025-12-01" "2025-12-31" "open"))
                        (map accrual_date_ [december_accrual] ++
                         map deferral_date_ [] ++ map amortization_date_ []))
    by (repeat constructor; exact Hend).
  destruct (close_period_never_posts _ _ _ _ _ _ _ _ _ _ _ _ _ _ Hfind Hend Hadj E)
    as [H1 [H2 H3]].
  destruct (H3 r eq_refl) as [_ [_ Hp]].
  exists c', r. split; [reflexivity|]. split; [exact Hs|]. split; [exact Hc|].
  split; [exact H1|]. split; [exact H2|].
  rewrite Hp; [reflexivity|discriminate|discriminate].
Defined.

(** ** Reversals through the service *)

(** Dividing a number of cents by 100 does not raise. *)
Lemma amount_of_cents_ok (z : Z) : exists o, amount_of_cents z = Ok o.
Proof.
  unfold amount_of_cents. destruct (z =? 0); [eauto|].
  unfold dec_div, dec_of_int.
  replace (Z.abs_N 100 =? 0)%N with false by reflexivity.
  destruct (Z.abs_N z =? 0)%N; [cbn [bindR]; eauto|].
  cbv zeta.
  match goal with |- context [if negb ?b then _ else _] => destruct b end;
    cbn [negb bindR]; eauto.
Qed.

Lemma inverted_lines_ok (rows : list LineRow) : exists ls, mapR inverted_line rows = Ok ls.
Proof.
  induction rows as [|r rows [ls IH]]; [exists []; reflexivity|].
  cbn [mapR]. unfold inverted_line at 1.
  destruct (amount_of_cents_ok (ln_dare_cents r)) as [d ->].
  destruct (amount_of_cents_ok (ln_avere_cents r)) as [a ->].
  cbn [bindR]. rewrite IH. cbn [bindR]. eauto.
Qed.

(** [build_reversal] never returns an entry. *)
Lemma build_reversal_no_draft (senv : ServiceEnv) today id descr (c : Conn)
    (o : option ReversalDraft) :
  build_reversal senv today id descr c = Ok o -> o = None.
Proof.
  unfold build_reversal.
  destruct (service_fault senv SBuildReversalEntry); [discriminate|].
  destruct (find _ (tbl_entries (db c))); [|now intros [= <-]].
  destruct (service_fault senv SBuildReversalLines); [discriminate|].
  destruct (mapR inverted_line _); discriminate.
Qed.

(** X19. [reverse_entry] never posts a reversal.  [build_reversal] reads the
    VAT fields of the original with [row.get(...)], and a [sqlite3.Row] has
    no [get]: for an entry that exists the construction of the reversal
    raises AttributeError before [post_entry] is reached.  So every call
    leaves the connection as it was and returns no success; and for an
    entry that exists and has no reversal, with today's date in no closed
    period and no failing query, the call raises that AttributeError. *)
Theorem reverse_entry_never_posts (senv : ServiceEnv)
    (post_draft : ReversalDraft -> string -> string -> string -> M EntryResult)
    (today today_build : string) (id : Z) (user_id descr series : string)
    (key : option string) (c c' : Conn) (res : Res EntryResult) :
  reverse_entry senv post_draft today today_build id user_id descr series key c
  = (c', res) ->
  c' = c /\
  (forall r, res = Ok r -> success r = false /\ entry_id r = None) /\
  ((exists e, In e (tbl_entries (db c)) /\ ent_id e = id) ->
   (forall e, In e (tbl_entries (db c)) -> ent_reversal_of e <> Some id) ->
   closed_hit (db c) today = false ->
   (forall tag, stmt_fault (engine_env senv) tag = None) ->
   (forall tag, service_fault senv tag = None) ->
   res = Raise (mkExn "AttributeError" "'sqlite3.Row' object has no attribute 'get'")).
Proof.
  unfold reverse_entry. cbv zeta.
  cbn [ent_exists has_reversal_for EntriesRepoDB is_open_by_date PeriodsRepoDB].
  unfold repo_query.
  destruct (stmt_fault (engine_env senv) SRepoEntry) as [e1|] eqn:F1.
  { intros [= <- <-]. split; [reflexivity|]. split; [intros r [=]|].
    intros _ _ _ Hf _. rewrite Hf in F1. discriminate. }
  destruct (existsb (fun e => ent_id e =? id) (tbl_entries (db c))) eqn:Eex.
  2: { intros [= <- <-]. split; [reflexivity|]. split; [intros r [= <-]; auto|].
       intros [e [Hin Hid]] _ _ _ _. exfalso.
       assert (existsb (fun e => ent_id e =? id) (tbl_entries (db c)) = true)
         by (apply existsb_exists; exists e; split; [exact Hin|now apply Z.eqb_eq]).
       congruence. }
  destruct (stmt_fault (engine_env senv) SRepoReversal) as [e2|] eqn:F2.
  { intros [= <- <-]. split; [reflexivity|]. split; [intros r [=]|].
    intros _ _ _ Hf _. rewrite Hf in F2. discriminate. }
  destruct (existsb (fun e => opt_Z_eqb (ent_reversal_of e) (Some id))
                    (tbl_entries (db c))) eqn:Erev.
  { intros [= <- <-]. split; [reflexivity|]. split; [intros r [= <-]; auto|].
    intros _ Hno _ _ _. exfalso.
    apply existsb_exists in Erev. destruct Erev as [e [Hin He]].
    apply (Hno e Hin). destruct (ent_reversal_of e) as [z|]; [|discriminate].
    cbn [opt_Z_eqb] in He. apply Z.eqb_eq in He. now subst. }
  destruct (stmt_fault (engine_env senv) SRepoPeriod) as [e3|] eqn:F3.
  { intros [= <- <-]. split; [reflexivity|]. split; [intros r [=]|].
    intros _ _ _ Hf _. rewrite Hf in F3. discriminate. }
  destruct (closed_hit (db c) today) eqn:Ehit; cbn [negb].
  { intros [= <- <-]. split; [reflexivity|]. split; [intros r [= <-]; auto|].
    intros _ _ Hopen _ _. discriminate. }
  destruct (build_reversal senv today_build id descr c) as [o|eb] eqn:Eb.
  - rewrite (build_reversal_no_draft _ _ _ _ _ _ Eb) in *.
    intros [= <- <-]. split; [reflexivity|]. split; [intros r [= <-]; auto|].
    intros _ _ _ _ Hs. exfalso. unfold build_reversal in Eb.
    rewrite !Hs in Eb.
    apply existsb_exists in Eex. destruct Eex as [e [Hin He]].
    destruct (find (fun e0 => ent_id e0 =? id) (tbl_entries (db c))) eqn:Efind.
    + destruct (inverted_lines_ok
                  (filter (fun l => ln_entry_id l =? id) (tbl_entry_lines (db c))))
        as [ls Hls].
      rewrite Hls in Eb. discriminate.
    + pose proof (find_none _ _ Efind e Hin) as Hn. cbv beta in Hn. congruence.
  - intros [= <- <-]. split; [reflexivity|]. split; [intros r [=]|].
    intros _ _ _ _ Hs. unfold build_reversal in Eb. rewrite !Hs in Eb.
    destruct (find (fun e0 => ent_id e0 =? id) (tbl_entries (db c))); [|discriminate].
    destruct (inverted_lines_ok
                (filter (fun l => ln_entry_id l =? id) (tbl_entry_lines (db c))))
      as [ls Hls].
    rewrite Hls in Eb. cbn [bindR] in Eb. unfold Row_get in Eb. cbn [bindR] in Eb.
    congruence.
Qed.

Lemma reverse_entry_never_posts_witness :
  reverse_entry (service_no_faults december_rows)
    (fun _ _ _ _ => retM (success_result 2 "2025/GEN/000002"))
    "2025-12-20" "2025-12-20" 1 "tester" "Storno" "GEN" None (fresh_conn december_db)
  = (fresh_conn december_db,
     Raise (mkExn "AttributeError" "'sqlite3.Row' object has no attribute 'get'")).
Proof.
  destruct (reverse_entry (service_no_faults december_rows)
              (fun _ _ _ _ => retM (success_result 2 "2025/GEN/000002"))
              "2025-12-20" "2025-12-20" 1 "tester" "Storno" "GEN" None
              (fresh_conn december_db))
    as [c' res] eqn:E.
  destruct (reverse_entry_never_posts _ _ _ _ _ _ _ _ _ _ _ _ E) as [-> [_ H]].
  rewrite H; [reflexivity| | | | |].
  - eexists. split; [left; reflexivity|reflexivity].
  - intros e [<-|[]]. discriminate.
  - reflexivity.
  - reflexivity.
  - reflexivity.
Defined.

(** ** The VAT service and the VAT rule round differently *)

(** [q2] leaves a number of cents, zero included, as it is. *)
Lemma q2_cents_any (c : N) :
  ndigits c <= prec -> q2 (Some (DFin false c (-2))) = Ok (DFin false c (-2)).
Proof.
  intros Hd. destruct (N.eq_dec c 0) as [->|Hc]; [reflexivity|].
  apply q2_cents_id; [lia|exact Hd].
Qed.

Lemma even_of_N (n : N) : Z.even (Z.of_N n) = N.even n.
Proof. destruct n as [|[q|q|]]; reflexivity. Qed.

(** A product that ends in exactly half a cent above an even number of
    cents: [quantize] keeps the even number. *)
Lemma quantize2_even_tie (p : N) :
  (0 < p)%N -> Z.of_N p < 10 ^ 24 ->
  (p mod 100 = 50)%N -> N.even (p / 100) = true ->
  quantize2_even (DFin false p (-4)) = Ok (DFin false (p / 100) (-2)).
Proof.
  intros Hp Hb Hm He. unfold quantize2_even.
  destruct (N.eqb_spec p 0) as [|_]; [lia|].
  assert (Hd : ndigits p <= 24) by (apply ndigits_bound; lia).
  destruct (Z.gtb_spec (-4 + ndigits p - 1 + 2 + 1) prec) as [H|_];
    [unfold prec in H; lia|].
  cbv zeta. replace (-4 >=? -2) with false by reflexivity.
  replace (- -4 - 2) with 2 by reflexivity.
  replace (10 ^ 2) with (Z.of_N 100) by reflexivity.
  rewrite <- N2Z.inj_div, <- N2Z.inj_mod, Hm.
  replace (2 * Z.of_N 50 >? Z.of_N 100) with false by reflexivity.
  replace (2 * Z.of_N 50 =? Z.of_N 100) with true by reflexivity.
  rewrite even_of_N, He, N2Z.id.
  assert (Hq : Z.of_N (p / 100) < 10 ^ 24).
  { rewrite N2Z.inj_div. apply Z.div_lt_upper_bound; [reflexivity|].
    cbn [Z.of_N]. lia. }
  destruct (Z.gtb_spec (ndigits (p / 100)) prec) as [H|_]; [|reflexivity].
  assert (ndigits (p / 100) <= 24) by (apply ndigits_bound; lia).
  unfold prec in H. lia.
Qed.

(** X20. The VAT service and the validator round differently.
    [post_vat_entry] rounds the product of taxable amount and rate with
    [quantize] under the default rounding (half to even), the VAT rule
    expects it rounded half up.  For a taxable amount of [t] cents (below
    10^18) and a rate of [r] hundredths (below 10^6, so that the product is
    exact within the 28 digits of the context) whose product ends in exactly
    half a cent above an even number of cents (1.25 at 0.10, say), the entry
    the service builds is turned down with VAT_MISMATCH: the call leaves the
    connection as it was and returns a failure (with the single error
    DB_ERROR if a repository query raised). *)
Theorem vat_entry_tie_is_rejected (env : Env) now (date0 descr : string) (t r : N)
    (revenue liability receivable user_id : string) (c c' : Conn)
    (res : Res EntryResult) :
  (t < 10 ^ 18)%N -> (r < 10 ^ 6)%N ->
  ((t * r) mod 100 = 50)%N -> N.even (t * r / 100) = true ->
  post_vat_entry env now date0 descr (DFin false t (-2)) (DFin false r (-2))
    revenue liability receivable user_id c = (c', res) ->
  c' = c /\
  exists x, res = Ok x /\ success x = false /\
            (In VAT_MISMATCH (map code (error_details x)) \/
             map code (error_details x) = [DB_ERROR]).
Proof.
  intros Ht Hr Hm He.
  assert (Hp : (0 < t * r)%N).
  { destruct (N.eq_dec (t * r) 0) as [E|]; [rewrite E in Hm; discriminate|lia]. }
  assert (H0 : (0 < t)%N) by (destruct (N.eq_dec t 0) as [E|]; [rewrite E in Hp|]; lia).
  assert (H1 : (0 < r)%N)
    by (destruct (N.eq_dec r 0) as [E|]; [rewrite E, N.mul_0_r in Hp|]; lia).
  assert (Hb : Z.of_N (t * r) < 10 ^ 24).
  { rewrite N2Z.inj_mul. replace (10 ^ 24) with (10 ^ 18 * 10 ^ 6) by reflexivity.
    apply Z.mul_lt_mono_nonneg; lia. }
  set (q := (t * r / 100)%N) in *.
  assert (Hq : Z.of_N q < 10 ^ 24).
  { unfold q. rewrite N2Z.inj_div. apply Z.div_lt_upper_bound; [reflexivity|].
    cbn [Z.of_N]. lia. }
  assert (Hup : ((t * r + 50) / 100 = q + 1)%N).
  { unfold q. rewrite (N.div_mod (t * r) 100) at 1 by discriminate. rewrite Hm.
    replace (100 * (t * r / 100) + 50 + 50)%N with ((t * r / 100 + 1) * 100)%N by lia.
    apply N.div_mul. discriminate. }
  assert (Dt : ndigits t <= prec) by (apply ndigits_bound; unfold prec; lia).
  assert (Dr : ndigits r <= prec) by (apply ndigits_bound; unfold prec; lia).
  assert (Dq : ndigits q <= prec) by (apply ndigits_bound; unfold prec; lia).
  assert (Dq1 : ndigits (q + 1) <= prec) by (apply ndigits_bound; unfold prec; lia).
  unfold post_vat_entry.
  rewrite dec_mul_cents by lia. cbn [bindR].
  rewrite (quantize2_even_tie (t * r) Hp Hb Hm He). fold q. cbn [bindR].
  rewrite dec_add_pos_cents by lia. cbn [bindR].
  set (entry := mkEntryDTO _ _ _ _ _ _ _ _ _ _ _ _ _ _ _).
  assert (Hvat : exists msg, validate_vat_consistency entry
                             = Ok [mkLedgerError VAT_MISMATCH msg]).
  { unfold validate_vat_consistency, entry.
    cbn [taxable_amount vat_rate vat_amount].
    rewrite (q2_cents_any t Dt). cbn [bindR].
    rewrite (q2_cents_any r Dr). cbn [bindR].
    rewrite dec_mul_cents by lia. cbn [bindR].
    rewrite q2_hundredths by lia. cbn [bindR]. rewrite Hup.
    rewrite (q2_cents_any q Dq). cbn [bindR].
    assert (Hne : dec_ne (DFin false (q + 1) (-2)) (DFin false q (-2)) = true).
    { unfold dec_ne, dec_eq, dec_compare. cbv zeta.
      replace (Z.min (-2) (-2)) with (-2) by reflexivity.
      replace (-2 - -2) with 0 by reflexivity. cbn [signed].
      rewrite Z.pow_0_r, !Z.mul_1_r.
      destruct (Z.compare_spec (Z.of_N (q + 1)) (Z.of_N q)); [lia|reflexivity|reflexivity]. }
    rewrite Hne. eauto. }
  destruct Hvat as [msg Hvat].
  unfold post_entry, post_db, post.
  destruct (validate entry (AccountsRepoDB env c) (PeriodsRepoDB env c)
              (EntriesRepoDB env c)) as [errs|ev] eqn:Ev.
  - destruct (validate_ok_inv _ _ _ _ _ Ev)
      as [e1 [e2 [e3 [e4 [e5 [e6 [_ [_ [_ [_ [_ [H6 ->]]]]]]]]]]]].
    rewrite Hvat in H6. injection H6 as <-.
    assert (Hall : In VAT_MISMATCH
                      (map code (e1 ++ e2 ++ e3 ++ e4 ++ e5 ++
                                 [mkLedgerError VAT_MISMATCH msg]))).
    { rewrite !map_app, !in_app_iff. cbn. tauto. }
    destruct (e1 ++ e2 ++ e3 ++ e4 ++ e5 ++ [mkLedgerError VAT_MISMATCH msg])%list
      as [|err errs]; [destruct Hall|].
    intros [= <- <-]. split; [reflexivity|]. eexists. split; [reflexivity|].
    split; [reflexivity|]. left. exact Hall.
  - intros [= <- <-]. split; [reflexivity|]. eexists. split; [reflexivity|].
    split; [reflexivity|]. right. reflexivity.
Qed.

Lemma vat_entry_tie_is_rejected_witness :
  exists x,
    post_vat_entry no_faults sample_now "2025-03-10" "Vendita" (DFin false 125 (-2))
      (DFin false 10 (-2)) "4100" "2321" "1410" "tester" (fresh_conn service_db)
    = (fresh_conn service_db, Ok x) /\
    success x = false /\
    map code (error_details x) = [VAT_MISMATCH].
Proof.
  destruct (post_vat_entry no_faults sample_now "2025-03-10" "Vendita"
              (DFin false 125 (-2)) (DFin false 10 (-2)) "4100" "2321" "1410" "tester"
              (fresh_conn service_db)) as [c' res] eqn:E.
  assert (Ht : (125 < 10 ^ 18)%N) by reflexivity.
  assert (Hr : (10 < 10 ^ 6)%N) by reflexivity.
  destruct (vat_entry_tie_is_rejected _ _ _ _ 125 10 _ _ _ _ _ _ _ Ht Hr eq_refl eq_refl E)
    as [-> [x [-> _]]].
  apply (f_equal snd) in E. cbn [snd] in E.
  exists x. split; [reflexivity|].
  assert (Hx : Ok x = Ok (failure_result
                 [mkLedgerError VAT_MISMATCH "IVA incoerente: attesa=0.13, trovata=0.12"]
                 ["IVA incoerente: attesa=0.13, trovata=0.12"])).
  { rewrite <- E. vm_compute. reflexivity. }
  injection Hx as ->. split; reflexivity.
Defined.

(** ** Postings and the audit chain *)

Lemma json_q2_wf (o : option Decimal) (j : json) : json_q2 o = Ok j -> json_wf j = true.
Proof.
  unfold json_q2. destruct o as [x|]; [|now intros [= <-]].
  destruct (q2 (Some x)); [|discriminate]. cbn [bindR]. now intros [= <-].
Qed.

Lemma json_lines_wf (ls : list LineDTO) (js : list json) :
  mapR json_line ls = Ok js -> forallb json_wf js = true.
Proof.
  revert js. induction ls as [|l ls IH]; intros js; cbn [mapR].
  - now intros [= <-].
  - unfold json_line at 1.
    destruct (cents (Some (dare l))); [|discriminate]. cbn [bindR].
    destruct (cents (Some (avere l))); [|discriminate]. cbn [bindR].
    destruct (mapR json_line ls) as [js'|]; [|discriminate]. cbn [bindR].
    intros [= <-]. cbn [forallb]. rewrite (IH js' eq_refl). reflexivity.
Qed.

(** The payload [post] hands to the audit is a dictionary without a
    repeated key, at every level. *)
Lemma canonical_payload_wf (entry : EntryDTO) (user_id : string) (proto : option string)
    (payload : list (string * json)) :
  canonical_payload entry user_id proto = Ok payload -> json_wf (JDict payload) = true.
Proof.
  unfold canonical_payload, entry_content.
  destruct (json_q2 (taxable_amount entry)) as [t|] eqn:Et; [|discriminate].
  destruct (json_q2 (vat_rate entry)) as [r|] eqn:Er; [|discriminate].
  destruct (json_q2 (vat_amount entry)) as [a|] eqn:Ea; [|discriminate].
  destruct (mapR json_line (lines entry)) as [ls|] eqn:El; [|discriminate].
  cbn [bindR]. intros [= <-].
  apply json_q2_wf in Et. apply json_q2_wf in Er. apply json_q2_wf in Ea.
  apply json_lines_wf in El.
  destruct (documento entry), (document_date entry), (cliente_fornitore entry),
    (reversal_of entry), (client_reference_id entry), proto;
    cbn; rewrite Et, Er, Ea, El; reflexivity.
Qed.

(** X21. Posting keeps the audit log verifiable.  If the audit log is in
    rowid order and the chain of every entry id other than 0 verifies, then
    after a successful [post] the same holds: [verify_chain(entry_id)]
    returns True for every entry id other than 0, the new entry included. *)
Theorem posting_keeps_audit_chains (env : Env) now entry user_id accounts periods
    entries series key (c c' : Conn) (r : EntryResult) (env2 : Env) (eid : Z) :
  audit_inv (tbl_audit_log (db c)) ->
  post env now entry user_id accounts periods entries series key c = (c', Ok r) ->
  success r = true ->
  stmt_fault env2 SSelectAuditChain = None ->
  eid <> 0 ->
  audit_inv (tbl_audit_log (db c')) /\ verify_chain env2 eid c' = Ok true.
Proof.
  intros Hinv Hp Hs Hf Hne.
  assert (H : audit_inv (tbl_audit_log (db c'))).
  { destruct (post_success_cases _ _ _ _ _ _ _ _ _ _ _ _ Hp Hs)
      as [_ [_ [[c2 [Hfresh Hdb]]|[Hdb _]]]].
    - apply post_fresh_tables in Hfresh. cbv zeta in Hfresh. cbn [db] in Hfresh.
      destruct Hfresh as [_ [_ [_ [_ [_ [_ [_ [payload [Hpay Hlog]]]]]]]]].
      rewrite Hdb, Hlog. apply audit_inv_step; [exact Hinv|].
      exact (canonical_payload_wf _ _ _ _ Hpay).
    - rewrite Hdb. exact Hinv. }
  split; [exact H|]. apply verify_chain_of_inv; assumption.
Qed.

Lemma posting_keeps_audit_chains_witness :
  exists c',
    post_db no_faults sample_now sales_invoice "tester" (Some "gen") None
      (fresh_conn sample_db) = (c', Ok (success_result 1 "2025/GEN/000001")) /\
    verify_chain no_faults 1 c' = Ok true.
Proof.
  destruct (post_db no_faults sample_now sales_invoice "tester" (Some "gen") None
              (fresh_conn sample_db)) as [c' res] eqn:E.
  assert (Hres : res = Ok (success_result 1 "2025/GEN/000001")).
  { apply (f_equal snd) in E. cbn [snd] in E. rewrite <- E. vm_compute. reflexivity. }
  subst res. exists c'. split; [reflexivity|].
  unfold post_db in E.
  assert (Hne : 1 <> 0) by discriminate.
  assert (Hinv : audit_inv (tbl_audit_log (db (fresh_conn sample_db))))
    by exact audit_inv_empty.
  exact (proj2 (posting_keeps_audit_chains _ _ _ _ _ _ _ _ _ _ _ _ no_faults 1
                  Hinv E eq_refl eq_refl Hne)).
Defined.
